(** * cloudinstall/gui.py: the controller overlay, the node view's poll timer
      and the loop's asynchronous bridge

    A shallow embedding of [ControllerOverlay], [NodeViewMode.tick] /
    [keypress] / [do_update] / [update_and_redraw] and [PegasusGUI.run_async]
    of [src/cloudinstall/gui.py], and further on of the idle lock
    ([PegasusGUI.tick], [_key_pressed], [LockScreen.keypress]), the hot
    keys ([_header_hotkeys]) and [AddCharmDialog].

    Python objects become records, attribute writes become record updates
    threaded through a small state-and-exception monad, and every call that
    leaves the file (charm hooks, the juju client, [utils._run],
    [pegasus.poll_state], the urwid loop) is taken from a record of
    externals acting on an abstract world; each such call is also written
    to an event log so that statements about "which calls were made" can be
    stated. *)

From Stdlib Require Import List String ZArith Bool Arith Lia Permutation Sorted.
From Stdlib Require Import DecimalString.
From Stdlib Require Import Relations.Relation_Operators.
Import ListNotations.

Open Scope string_scope.
Open Scope list_scope.

(* ================================================================== *)
(** ** Data read from the pollers *)

(** A juju machine, as far as gui.py reads it. *)
Record Machine := mkMachine {
  machine_id : string;
  agent_state : string;
  dns_name : string
}.

(** Modelled from the spec: the unit class is not part of the sources.
    The fields are the attributes gui.py reads of a unit; the spec gives
    a unit "an address, an agent state, and optional error detail", so
    [agent_state_info] is [None] on a unit that carries no detail. *)
Record Unit := mkUnit {
  unit_name : string;
  unit_agent_state : string;
  agent_state_info : option string;
  public_address : string;
  is_horizon : bool;
  is_jujugui : bool
}.

Record Service := mkService {
  service_name : string;
  units : list Unit
}.

(** [juju_state]: [machines_allocated()] and [services]. *)
Record JujuState := mkJujuState {
  machines_allocated : list Machine;
  services : list Service
}.

(** [maas_state]: only [machines_allocated()] is read. *)
Record MaasState := mkMaasState {
  maas_machines_allocated : list Machine
}.

(** Modelled from the spec: [JujuState.service(name)] is not part of the
    sources; the spec reads it as "the snapshot shows a live service with
    that name", so it is the first service of the snapshot carrying the
    name, [None] when there is none. *)
Definition service (juju_state : JujuState) (name : string) : option Service :=
  find (fun s => String.eqb (service_name s) name) (services juju_state).

(* ================================================================== *)
(** ** Charm classes *)

(** A charm class ([m.__charm_class__]).  Class objects compare by
    identity; [class_id] stands for that identity.  [name] is what
    [charm.name()] returns and [charm_name] the attribute of the same
    name; the source consults the former when deploying and the latter
    when finalizing. *)
Record CharmClass := mkCharmClass {
  class_id : nat;
  deploy_priority : Z;
  name : string;
  charm_name : string
}.

Definition CharmClass_eq_dec (a b : CharmClass) : {a = b} + {a <> b}.
Proof.
  decide equality; auto using Nat.eq_dec, Z.eq_dec, string_dec.
Defined.

(** [c in l] on a list of classes. *)
Definition class_in (c : CharmClass) (l : list CharmClass) : bool :=
  if in_dec CharmClass_eq_dec c l then true else false.

(** [sorted(l, key=attrgetter('deploy_priority'))]: Python's sort is
    stable, so the result is the stable ascending arrangement, which
    insertion from the right computes. *)
Fixpoint insert_by_priority (c : CharmClass) (l : list CharmClass) : list CharmClass :=
  match l with
  | [] => [c]
  | d :: l' =>
      if (deploy_priority c <=? deploy_priority d)%Z
      then c :: d :: l'
      else d :: insert_by_priority c l'
  end.

Definition sorted (l : list CharmClass) : list CharmClass :=
  fold_right insert_by_priority [] l.

(* ================================================================== *)
(** ** Exceptions, external calls and the event log *)

(** An instance of [Exception], identified by its message. *)
Definition exn := string.

Inductive outcome (A : Type) : Type :=
| Ret (a : A)
| Raise (e : exn).
Arguments Ret {A} a.
Arguments Raise {A} e.

(** Calls that leave gui.py. *)
Inductive extcall : Type :=
| Setup (c : CharmClass) (_id : string)      (* charm.setup(_id=...) *)
| SetRelations (c : CharmClass)              (* charm.set_relations() *)
| PostProc (c : CharmClass)                  (* charm.post_proc() *)
| AddMachine                                 (* self.client.add_machine(constraints) *)
| Run (cmd : string)                         (* utils._run(cmd) *)
| PollState.                                 (* pegasus.poll_state() *)

(** The log: every external call with the exception it raised (if
    any), what [run_async] and its two closures ask of the loop and of
    the operating system, and the two places where a traceback is
    logged. *)
Inductive event : Type :=
| EvCall (k : extcall) (failure : option exn)
| EvWatchPipe (fd : nat)                     (* self.watch_pipe(done) *)
| EvThreadStart (fd : nat)                   (* threading.Thread(target=run_f).start() *)
| EvWrite (fd : nat)                         (* write(write_fd, b'done') *)
| EvCallback (got_result : bool)             (* callback(result['res']); is it not None? *)
| EvRemoveWatchPipe (fd : nat)               (* self.remove_watch_pipe(write_fd) *)
| EvClose (fd : nat)                         (* close(write_fd) *)
| EvLogDebug (e : exn)                       (* log.debug(format_exc()) *)
| EvLogWarning (e : exn)                     (* log.warning(format_exc()) *)
| EvDrawScreen.                              (* self.loop.draw_screen() *)

Record Ctx (W : Type) := mkCtx {
  world : W;
  trace : list event
}.
Arguments mkCtx {W} _ _.
Arguments world {W} _.
Arguments trace {W} _.

(* ================================================================== *)
(** ** The monad: object state, ambient context, exceptions

    A raised exception keeps the state reached so far, as attribute
    writes made before a Python exception stay made. *)

Definition M (W S A : Type) : Type := S -> Ctx W -> outcome A * S * Ctx W.

Definition ret {W S A} (a : A) : M W S A := fun s c => (Ret a, s, c).

Definition raise {W S A} (e : exn) : M W S A := fun s c => (Raise e, s, c).

Definition bind {W S A B} (m : M W S A) (f : A -> M W S B) : M W S B :=
  fun s c =>
    match m s c with
    | (Ret a, s', c') => f a s' c'
    | (Raise e, s', c') => (Raise e, s', c')
    end.

Definition get {W S} : M W S S := fun s c => (Ret s, s, c).

Definition modify {W S} (f : S -> S) : M W S unit := fun s c => (Ret tt, f s, c).

Definition emit {W S} (ev : event) : M W S unit :=
  fun s c => (Ret tt, s, mkCtx (world c) (trace c ++ [ev])).

(** An external call that returns nothing of interest: run it on the
    world, log it with its failure, re-raise the failure. *)
Definition call {W S} (k : extcall) (run : W -> option exn * W) : M W S unit :=
  fun s c =>
    let (r, w') := run (world c) in
    let c' := mkCtx w' (trace c ++ [EvCall k r]) in
    match r with
    | None => (Ret tt, s, c')
    | Some e => (Raise e, s, c')
    end.

Declare Scope monad_scope.
Delimit Scope monad_scope with monad.
Notation "x <- m ;; k" := (bind m (fun x => k))
  (at level 100, m at next level, right associativity) : monad_scope.
Notation "m ;;; k" := (bind m (fun _ => k))
  (at level 100, right associativity) : monad_scope.
Open Scope monad_scope.

(** [for x in l: body(x)]. *)
Fixpoint for_each {W S X} (l : list X) (body : X -> M W S unit) : M W S unit :=
  match l with
  | [] => ret tt
  | x :: l' => body x ;;; for_each l' body
  end.

(** Run a computation of an inner object inside an outer one. *)
Definition zoom {W S T A} (proj : T -> S) (put : S -> T -> T)
  (m : M W S A) : M W T A :=
  fun t c =>
    match m (proj t) c with
    | (r, s', c') => (r, put s' t, c')
    end.

(** A computation that touches neither the object nor the world. *)
Definition of_outcome {W S A} (o : outcome A) : M W S A := fun s c => (o, s, c).

(* ================================================================== *)
(** ** ControllerOverlay *)

Record ControllerOverlay := mkControllerOverlay {
  done : bool;
  machine : option Machine;
  deployed_charm_classes : list CharmClass;
  finalized_charm_classes : list CharmClass;
  single_net_configured : bool;
  info_text : string
}.

Definition PXE_BOOT : string :=
  ("You need one node to act as the cloud controller. " ++
   "Please PXE boot the node you would like to use.")%string.

Definition NODE_WAIT : string :=
  ("Please wait while the cloud controller is " ++
   "installed on your host system.")%string.

Definition set_done (b : bool) (o : ControllerOverlay) : ControllerOverlay :=
  mkControllerOverlay b (machine o) (deployed_charm_classes o)
    (finalized_charm_classes o) (single_net_configured o) (info_text o).

Definition set_machine (m : option Machine) (o : ControllerOverlay) : ControllerOverlay :=
  mkControllerOverlay (done o) m (deployed_charm_classes o)
    (finalized_charm_classes o) (single_net_configured o) (info_text o).

Definition append_deployed (c : CharmClass) (o : ControllerOverlay) : ControllerOverlay :=
  mkControllerOverlay (done o) (machine o) (deployed_charm_classes o ++ [c])
    (finalized_charm_classes o) (single_net_configured o) (info_text o).

Definition append_finalized (c : CharmClass) (o : ControllerOverlay) : ControllerOverlay :=
  mkControllerOverlay (done o) (machine o) (deployed_charm_classes o)
    (finalized_charm_classes o ++ [c]) (single_net_configured o) (info_text o).

Definition set_single_net_configured (b : bool) (o : ControllerOverlay) : ControllerOverlay :=
  mkControllerOverlay (done o) (machine o) (deployed_charm_classes o)
    (finalized_charm_classes o) b (info_text o).

Definition set_info_text (t : string) (o : ControllerOverlay) : ControllerOverlay :=
  mkControllerOverlay (done o) (machine o) (deployed_charm_classes o)
    (finalized_charm_classes o) (single_net_configured o) t.

(* ================================================================== *)
(** ** try / except / finally *)

(** [try: m  except Exception: h(e)]. *)
Definition try_except {W S A} (m : M W S A) (h : exn -> M W S A) : M W S A :=
  fun s c =>
    match m s c with
    | (Raise e, s', c') => h e s' c'
    | r => r
    end.

(** [try: m  finally: fin]: [fin] always runs; what [m] raised is
    raised again after it unless [fin] itself raises. *)
Definition try_finally {W S A} (m : M W S A) (fin : M W S unit) : M W S A :=
  fun s c =>
    match m s c with
    | (r, s', c') =>
        match fin s' c' with
        | (Ret _, s'', c'') => (r, s'', c'')
        | (Raise e, s'', c'') => (Raise e, s'', c'')
        end
    end.

(* ================================================================== *)
(** ** NodeViewMode and the loop (PegasusGUI) *)

(** What [loop.widget] can be. *)
Inductive Widget : Type :=
| WControllerOverlay
| WNodeViewMode
| WConsoleMode
| WLockScreen.

(** What [NodeViewMode._target] can be: [self.controller_overlay] or
    [self]. *)
Inductive Target : Type :=
| TControllerOverlay
| TNodeViewMode.

Definition Target_eqb (a b : Target) : bool :=
  match a, b with
  | TControllerOverlay, TControllerOverlay => true
  | TNodeViewMode, TNodeViewMode => true
  | _, _ => false
  end.

Definition widget_of_target (t : Target) : Widget :=
  match t with
  | TControllerOverlay => WControllerOverlay
  | TNodeViewMode => WNodeViewMode
  end.

(** What a poll delivers: [(JujuState(), MaasState())]. *)
Definition PollResult : Type := (JujuState * MaasState)%type.

(** A [Node]: the service it shows and the texts of its unit columns
    (the [open_dialog] it is handed is the view's own method). *)
Record Node := mkNode {
  node_service : Service;
  unit_info : list string
}.

Record NodeViewMode := mkNodeViewMode {
  timer : string;
  status_info : string;
  horizon_url : string;
  jujugui_url : string;
  poll_interval : Z;
  ticks_left : Z;
  nv_juju_state : option JujuState;
  nv_maas_state : option MaasState;
  nodes : list Node;                         (* self.nodes._contents *)
  controller_overlay : ControllerOverlay;
  _target : Target
}.

(** The functions handed to [run_async].  The file has one such call,
    [run_async(self.refresh_states, self.update_and_redraw)]; the other
    constructors stand for any other function a caller may pass. *)
Inductive BlockingFn : Type :=
| FnRefreshStates
| FnOther (n : nat).

Inductive Callback : Type :=
| CbUpdateAndRedraw
| CbOther (n : nat).

(** One pipe watched by the loop on behalf of [run_async]: the closure
    [done] registered for it (through the callback it closes over), the
    closure's [result] cell and the number of unread writes. *)
Record Pipe := mkPipe {
  write_fd : nat;
  done_callback : Callback;
  result_res : option PollResult;            (* result['res'] *)
  unread : nat
}.

(** A thread started on the closure [run_f] that has not run yet. *)
Record Thread := mkThread {
  target_f : BlockingFn;
  thread_fd : nat
}.

Record PegasusGUI := mkPegasusGUI {
  node_view : NodeViewMode;
  widget : Widget;
  pipes : list Pipe;
  threads : list Thread;
  next_fd : nat
}.

Definition with_view (f : NodeViewMode -> NodeViewMode) (g : PegasusGUI) : PegasusGUI :=
  mkPegasusGUI (f (node_view g)) (widget g) (pipes g) (threads g) (next_fd g).

Definition set_widget (w : Widget) (g : PegasusGUI) : PegasusGUI :=
  mkPegasusGUI (node_view g) w (pipes g) (threads g) (next_fd g).

Definition set_pipes (ps : list Pipe) (g : PegasusGUI) : PegasusGUI :=
  mkPegasusGUI (node_view g) (widget g) ps (threads g) (next_fd g).

Definition set_threads (ts : list Thread) (g : PegasusGUI) : PegasusGUI :=
  mkPegasusGUI (node_view g) (widget g) (pipes g) ts (next_fd g).

Definition set_timer (t : string) (v : NodeViewMode) : NodeViewMode :=
  mkNodeViewMode t (status_info v) (horizon_url v) (jujugui_url v)
    (poll_interval v) (ticks_left v) (nv_juju_state v) (nv_maas_state v)
    (nodes v) (controller_overlay v) (_target v).

Definition set_status_info (t : string) (v : NodeViewMode) : NodeViewMode :=
  mkNodeViewMode (timer v) t (horizon_url v) (jujugui_url v)
    (poll_interval v) (ticks_left v) (nv_juju_state v) (nv_maas_state v)
    (nodes v) (controller_overlay v) (_target v).

Definition set_horizon_url (t : string) (v : NodeViewMode) : NodeViewMode :=
  mkNodeViewMode (timer v) (status_info v) t (jujugui_url v)
    (poll_interval v) (ticks_left v) (nv_juju_state v) (nv_maas_state v)
    (nodes v) (controller_overlay v) (_target v).

Definition set_jujugui_url (t : string) (v : NodeViewMode) : NodeViewMode :=
  mkNodeViewMode (timer v) (status_info v) (horizon_url v) t
    (poll_interval v) (ticks_left v) (nv_juju_state v) (nv_maas_state v)
    (nodes v) (controller_overlay v) (_target v).

Definition set_ticks_left (n : Z) (v : NodeViewMode) : NodeViewMode :=
  mkNodeViewMode (timer v) (status_info v) (horizon_url v) (jujugui_url v)
    (poll_interval v) n (nv_juju_state v) (nv_maas_state v)
    (nodes v) (controller_overlay v) (_target v).

Definition set_states (js : JujuState) (ms : MaasState) (v : NodeViewMode) : NodeViewMode :=
  mkNodeViewMode (timer v) (status_info v) (horizon_url v) (jujugui_url v)
    (poll_interval v) (ticks_left v) (Some js) (Some ms)
    (nodes v) (controller_overlay v) (_target v).

Definition set_nodes (ns : list Node) (v : NodeViewMode) : NodeViewMode :=
  mkNodeViewMode (timer v) (status_info v) (horizon_url v) (jujugui_url v)
    (poll_interval v) (ticks_left v) (nv_juju_state v) (nv_maas_state v)
    ns (controller_overlay v) (_target v).

Definition set_controller_overlay (o : ControllerOverlay) (v : NodeViewMode) : NodeViewMode :=
  mkNodeViewMode (timer v) (status_info v) (horizon_url v) (jujugui_url v)
    (poll_interval v) (ticks_left v) (nv_juju_state v) (nv_maas_state v)
    (nodes v) o (_target v).

Definition set__target (t : Target) (v : NodeViewMode) : NodeViewMode :=
  mkNodeViewMode (timer v) (status_info v) (horizon_url v) (jujugui_url v)
    (poll_interval v) (ticks_left v) (nv_juju_state v) (nv_maas_state v)
    (nodes v) (controller_overlay v) t.

(** [needle in hay] on strings. *)
Fixpoint str_contains (needle hay : string) : bool :=
  if String.prefix needle hay then true
  else match hay with
       | EmptyString => false
       | String _ hay' => str_contains needle hay'
       end.

(** [str(n)] for an integer. *)
Definition str_of_Z (n : Z) : string :=
  DecimalString.NilZero.string_of_int (Z.to_int n).

(** The newline of the format strings. *)
Definition nl : string := String (Ascii.ascii_of_nat 10) EmptyString.

(** White space as [str.lstrip()] takes it, within ASCII. *)
Definition is_space (a : Ascii.ascii) : bool :=
  let n := Ascii.nat_of_ascii a in
  ((9 <=? n) && (n <=? 13) || (28 <=? n) && (n <=? 32))%nat.

Fixpoint lstrip (t : string) : string :=
  match t with
  | EmptyString => EmptyString
  | String a t' => if is_space a then lstrip t' else t
  end.

(** The text [Node.__init__] builds for one unit; [.lstrip()] on a
    detail that is [None] is an [AttributeError]. *)
Definition unit_info_text (u : Unit) : outcome string :=
  let info := (unit_name u ++ " (" ++ unit_agent_state u ++ ")")%string in
  let info := (info ++ nl ++ "  address: " ++ public_address u)%string in
  if str_contains "error" (unit_agent_state u) then
    match agent_state_info u with
    | None => Raise "AttributeError: 'NoneType' object has no attribute 'lstrip'"
    | Some state_info =>
        Ret (info ++ nl ++ "  info: " ++ lstrip state_info ++ nl ++ nl)%string
    end
  else Ret (info ++ nl ++ nl)%string.

(** The loop of [Node.__init__] over the units. *)
Fixpoint unit_infos (us : list Unit) : outcome (list string) :=
  match us with
  | [] => Ret []
  | u :: us' =>
      match unit_info_text u with
      | Raise e => Raise e
      | Ret info =>
          match unit_infos us' with
          | Raise e => Raise e
          | Ret infos => Ret (info :: infos)
          end
      end
  end.

(** [Node(service, open_dialog)]. *)
Definition Node_init (service : Service) : outcome Node :=
  match unit_infos (units service) with
  | Raise e => Raise e
  | Ret infos => Ret (mkNode service infos)
  end.

(** [[Node(s, self.open_dialog) for s in juju_state.services]]. *)
Fixpoint make_nodes (ss : list Service) : outcome (list Node) :=
  match ss with
  | [] => Ret []
  | s :: ss' =>
      match Node_init s with
      | Raise e => Raise e
      | Ret n =>
          match make_nodes ss' with
          | Raise e => Raise e
          | Ret ns => Ret (n :: ns)
          end
      end
  end.

(* ================================================================== *)
(** ** What the file does not own *)

(** Everything the file does not own.  Each external acts on [World]
    and may raise. *)
Record Externals := mkExternals {
  World : Type;
  SINGLE_SYSTEM : bool;                      (* pegasus.SINGLE_SYSTEM *)
  MULTI_SYSTEM : bool;                       (* pegasus.MULTI_SYSTEM *)
  (* [m.__charm_class__ for m in charm_modules] *)
  charm_registry : list CharmClass;
  charm_setup : CharmClass -> JujuState -> string -> World -> option exn * World;
  charm_set_relations : CharmClass -> JujuState -> World -> option exn * World;
  charm_post_proc : CharmClass -> JujuState -> World -> option exn * World;
  client_add_machine : World -> option exn * World;
  utils_run : string -> World -> option exn * World;
  poll_state : World -> outcome PollResult * World;
  (* whatever else is handed to [run_async] from outside the file *)
  other_blocking : nat -> M World unit PollResult;
  other_callback : nat -> option PollResult -> M World PegasusGUI unit
}.

Section Overlay.

Variable X : Externals.

Local Abbreviation OM := (M (World X) ControllerOverlay).

(** [ControllerOverlay.__init__]. *)
Definition ControllerOverlay_init : ControllerOverlay :=
  mkControllerOverlay false None [] [] false
    (if SINGLE_SYSTEM X then NODE_WAIT else PXE_BOOT).

(** [CommandRunner.add_machine(constraints=None)]. *)
Definition add_machine : OM unit :=
  call AddMachine (client_add_machine X).

Definition get_started_machine (allocated : list Machine) : OM (option Machine) :=
  let started_machines :=
    filter (fun m => String.eqb (agent_state m) "started") allocated in
  match started_machines with
  | [] =>
      modify (set_info_text ("Waiting for a machine " ++ "to become ready.")%string) ;;;
      ret None
  | m :: _ => ret (Some m)
  end.

Definition get_controller_machine (juju_state : JujuState) (maas_state : MaasState)
  : OM (option Machine) :=
  let allocated := machines_allocated juju_state in
  if MULTI_SYSTEM X then
    let maas_allocated := maas_machines_allocated maas_state in
    if (List.length allocated =? 0)%nat && (List.length maas_allocated =? 0)%nat then
      let err_msg := ("No machines allocated to juju. " ++
                      "Please pxe boot a machine.")%string in
      modify (set_info_text err_msg) ;;;
      ret None
    else if (List.length allocated =? 0)%nat && (0 <? List.length maas_allocated)%nat then
      modify (set_info_text "Adding maas machine to juju") ;;;
      add_machine ;;;
      ret None
    else get_started_machine allocated
  else if SINGLE_SYSTEM X then get_started_machine allocated
  else ret None.

Definition scp_command (host : string) : string :=
  ("scp -oStrictHostKeyChecking=no " ++
   "/usr/share/cloud-installer/templates/lxc-host-only " ++
   "ubuntu@" ++ host ++ ":/tmp/lxc-host-only")%string.

Definition ssh_command (host : string) : string :=
  let cmds := [ ("sudo mv /tmp/lxc-host-only " ++
                 "/etc/network/interfaces.d/lxcbr0.cfg")%string;
                "sudo rm /etc/network/interfaces.d/eth0.cfg";
                "sudo reboot" ] in
  ("ssh -oStrictHostKeyChecking=no " ++
   "ubuntu@" ++ host ++ " " ++ String.concat " && " cmds)%string.

(** [self.machine.<attr>]: an [AttributeError] when [self.machine] is
    [None]. *)
Definition machine_attr (attr : Machine -> string) (attr_name : string) : OM string :=
  self <- get ;;
  match machine self with
  | Some m => ret (attr m)
  | None => raise ("AttributeError: 'NoneType' object has no attribute '"
                   ++ attr_name ++ "'")%string
  end.

Definition configure_lxc_network : OM unit :=
  host <- machine_attr dns_name "dns_name" ;;
  call (Run (scp_command host)) (utils_run X (scp_command host)) ;;;
  call (Run (ssh_command host)) (utils_run X (ssh_command host)) ;;;
  modify (set_single_net_configured true).

(** Body of the loop over [undeployed_charm_classes]. *)
Definition deploy_charm (juju_state : JujuState) (charm_class : CharmClass) : OM unit :=
  let service_names := map service_name (services juju_state) in
  if existsb (String.eqb (name charm_class)) service_names then
    modify (append_deployed charm_class)
  else
    mid <- machine_attr machine_id "machine_id" ;;
    let _id := ("lxc:" ++ mid)%string in
    call (Setup charm_class _id) (charm_setup X charm_class juju_state _id) ;;;
    modify (append_deployed charm_class).

(** Body of the loop over [unfinalized_charm_classes]. *)
Definition finalize_charm (juju_state : JujuState) (charm_class : CharmClass) : OM unit :=
  match service juju_state (charm_name charm_class) with
  | None => ret tt
  | Some _ =>
      call (SetRelations charm_class) (charm_set_relations X charm_class juju_state) ;;;
      call (PostProc charm_class) (charm_post_proc X charm_class juju_state) ;;;
      modify (append_finalized charm_class)
  end.

(** The [if self.machine is None:] block of [_process]; [false] stands
    for its [return True  # keep polling]. *)
Definition acquire_machine (juju_state : JujuState) (maas_state : MaasState) : OM bool :=
  self <- get ;;
  match machine self with
  | Some _ => ret true
  | None =>
      m <- get_controller_machine juju_state maas_state ;;
      modify (set_machine m) ;;;
      match m with
      | None => ret false
      | Some _ =>
          self <- get ;;
          (if SINGLE_SYSTEM X && negb (single_net_configured self)
           then configure_lxc_network else ret tt) ;;;
          ret true
      end
  end.

(** The block of [_process] that walks [undeployed_charm_classes]. *)
Definition deploy_charms (juju_state : JujuState) (charm_classes : list CharmClass)
  : OM unit :=
  self <- get ;;
  let undeployed_charm_classes :=
    filter (fun c => negb (class_in c (deployed_charm_classes self))) charm_classes in
  if (0 <? List.length undeployed_charm_classes)%nat then
    modify (set_info_text "Deploying charms") ;;;
    for_each undeployed_charm_classes (deploy_charm juju_state)
  else ret tt.

(** The block of [_process] that walks [unfinalized_charm_classes]. *)
Definition set_charm_relations (juju_state : JujuState) : OM unit :=
  self <- get ;;
  let unfinalized_charm_classes :=
    filter (fun c => negb (class_in c (finalized_charm_classes self)))
           (deployed_charm_classes self) in
  if (0 <? List.length unfinalized_charm_classes)%nat then
    modify (set_info_text "Setting charm relations") ;;;
    for_each unfinalized_charm_classes (finalize_charm juju_state)
  else ret tt.

Definition _process (juju_state : JujuState) (maas_state : MaasState) : OM bool :=
  let charm_classes := sorted (charm_registry X) in
  acquired <- acquire_machine juju_state maas_state ;;
  if negb acquired then ret true else
  deploy_charms juju_state charm_classes ;;;
  set_charm_relations juju_state ;;;
  self <- get ;;
  if (List.length (finalized_charm_classes self) =? List.length charm_classes)%nat
  then ret false
  else ret true.

Definition process (juju_state : JujuState) (maas_state : MaasState) : OM bool :=
  self <- get ;;
  if done self then ret false else
  continue_ <- _process juju_state maas_state ;;
  (if negb continue_ then modify (set_done true) else ret tt) ;;;
  ret continue_.

End Overlay.

Section GUI.

Variable X : Externals.

Local Abbreviation GM := (M (World X) PegasusGUI).

(** [NodeViewMode.__init__], with the loop it is handed to. *)
Definition NodeViewMode_init : NodeViewMode :=
  mkNodeViewMode "" "" "" "" 10 0 None None []
    (ControllerOverlay_init X) TControllerOverlay.

Definition PegasusGUI_init : PegasusGUI :=
  mkPegasusGUI NodeViewMode_init WControllerOverlay [] [] 0.

(** The [target] setter of [NodeViewMode]. *)
Definition set_target (val : Target) : GM unit :=
  modify (with_view (set__target val)) ;;;
  self <- get ;;
  match widget self with
  | WConsoleMode => ret tt
  | WLockScreen => ret tt
  | _ => modify (set_widget (widget_of_target val))
  end.

(** [self.controller_overlay.process(...)] seen from the view. *)
Definition overlay_process (juju_state : JujuState) (maas_state : MaasState)
  : GM bool :=
  zoom (fun g => controller_overlay (node_view g))
       (fun o => with_view (set_controller_overlay o))
       (process X juju_state maas_state).

(** [pegasus.poll_state()] through [NodeViewMode.refresh_states]: it
    touches nothing of the view. *)
Definition refresh_states : M (World X) unit PollResult :=
  fun u c =>
    match poll_state X (world c) with
    | (Ret r, w') => (Ret r, u, mkCtx w' (trace c ++ [EvCall PollState None]))
    | (Raise e, w') => (Raise e, u, mkCtx w' (trace c ++ [EvCall PollState (Some e)]))
    end.

Definition do_update (juju_state : JujuState) (maas_state : MaasState) : GM unit :=
  nodes <- of_outcome (make_nodes (services juju_state)) ;;
  self <- get ;;
  (if Target_eqb (_target (node_view self)) TControllerOverlay then
     continue_polling <- overlay_process juju_state maas_state ;;
     if negb continue_polling then set_target TNodeViewMode else ret tt
   else ret tt) ;;;
  modify (with_view (set_nodes nodes)).

(** Body of the inner loop of [update_and_redraw]. *)
Definition show_unit_urls (i : Unit) : GM unit :=
  (if is_horizon i then
     let ip := public_address i in
     modify (with_view (set_horizon_url
                          ("Horizon: " ++ "http://" ++ ip ++ "/horizon")%string)) ;;;
     if str_contains "0.0.0.0" (public_address i)
     then modify (with_view (set_status_info
                               ("[INFO] Nodes " ++ "are still deploying")%string))
     else modify (with_view (set_status_info
                               ("[INFO] Nodes " ++ "are accessible")%string))
   else ret tt) ;;;
  if is_jujugui i then
    modify (with_view (set_jujugui_url
                         ("Juju-GUI: " ++ "http://" ++ public_address i ++ "/")%string))
  else ret tt.

(** The two nested loops of [update_and_redraw]. *)
Definition show_urls (juju_state : JujuState) : GM unit :=
  for_each (services juju_state)
    (fun n => for_each (units n) show_unit_urls).

(** [state] is what the bridge hands over: [None] when the poll
    raised, and unpacking [None] is a [TypeError]. *)
Definition update_and_redraw (state : option PollResult) : GM unit :=
  modify (with_view (set_status_info "[INFO] Polling node availability")) ;;;
  match state with
  | None => raise "TypeError: 'NoneType' object is not iterable"
  | Some (juju_state, maas_state) =>
      modify (with_view (set_states juju_state maas_state)) ;;;
      do_update juju_state maas_state ;;;
      show_urls juju_state ;;;
      emit EvDrawScreen
  end.

(** ** PegasusGUI.run_async *)

Definition blocking_fn (f : BlockingFn) : M (World X) unit PollResult :=
  match f with
  | FnRefreshStates => refresh_states
  | FnOther n => other_blocking X n
  end.

Definition callback_fn (cb : Callback) : option PollResult -> GM unit :=
  match cb with
  | CbUpdateAndRedraw => update_and_redraw
  | CbOther n => other_callback X n
  end.

Definition lookup_pipe (fd : nat) (g : PegasusGUI) : option Pipe :=
  find (fun p => Nat.eqb (write_fd p) fd) (pipes g).

Definition update_pipe (fd : nat) (f : Pipe -> Pipe) (g : PegasusGUI) : PegasusGUI :=
  set_pipes (map (fun p => if Nat.eqb (write_fd p) fd then f p else p) (pipes g)) g.

Definition set_result_res (r : option PollResult) (p : Pipe) : Pipe :=
  mkPipe (write_fd p) (done_callback p) r (unread p).

Definition set_unread (n : nat) (p : Pipe) : Pipe :=
  mkPipe (write_fd p) (done_callback p) (result_res p) n.

(** [self.watch_pipe(done)]: a fresh descriptor, watched from now on;
    the [result = {'res': None}] cell of the call lives with it. *)
Definition watch_pipe (callback : Callback) : GM nat :=
  self <- get ;;
  let fd := next_fd self in
  modify (fun g => mkPegasusGUI (node_view g) (widget g)
                     (mkPipe fd callback None 0 :: pipes g) (threads g)
                     (S (next_fd g))) ;;;
  emit (EvWatchPipe fd) ;;;
  ret fd.

(** [self.remove_watch_pipe(write_fd)]. *)
Definition remove_watch_pipe (fd : nat) : GM unit :=
  modify (fun g => set_pipes
                     (filter (fun p => negb (Nat.eqb (write_fd p) fd)) (pipes g)) g) ;;;
  emit (EvRemoveWatchPipe fd).

(** The closure [done] of [run_async]. *)
Definition run_async_done (callback : Callback) (fd : nat) : GM unit :=
  try_finally
    (try_except
       (self <- get ;;
        let res := match lookup_pipe fd self with
                   | Some p => result_res p
                   | None => None
                   end in
        emit (EvCallback (match res with Some _ => true | None => false end)) ;;;
        callback_fn callback res)
       (fun e => emit (EvLogWarning e)))
    (remove_watch_pipe fd ;;;
     emit (EvClose fd)).

(** The closure [run_f] of [run_async], the body of the worker thread.
    [f] runs off the loop and is given no access to the loop's objects. *)
Definition run_async_run_f (f : BlockingFn) (fd : nat) : GM unit :=
  try_except
    (r <- zoom (fun _ => tt) (fun _ g => g) (blocking_fn f) ;;
     modify (update_pipe fd (set_result_res (Some r))))
    (fun e => emit (EvLogDebug e)) ;;;
  modify (update_pipe fd (fun p => set_unread (S (unread p)) p)) ;;;
  emit (EvWrite fd).

Definition run_async (f : BlockingFn) (callback : Callback) : GM unit :=
  write_fd <- watch_pipe callback ;;
  modify (fun g => set_threads (threads g ++ [mkThread f write_fd]) g) ;;;
  emit (EvThreadStart write_fd).

(** The started thread [t] runs to its end. *)
Definition thread_run (t : Thread) : GM unit :=
  run_async_run_f (target_f t) (thread_fd t).

(** Modelled from the spec: the loop's side of [watch_pipe] belongs to
    urwid, not to the sources.  The spec has the loop's handler read the
    notification and invoke the callback: when the pipe is still watched
    and holds unread data the loop consumes it and calls the function
    registered for it; otherwise nothing happens. *)
Definition loop_read_pipe (fd : nat) : GM unit :=
  self <- get ;;
  match lookup_pipe fd self with
  | Some p =>
      if (0 <? unread p)%nat then
        modify (update_pipe fd (set_unread 0)) ;;;
        run_async_done (done_callback p) fd
      else ret tt
  | None => ret tt
  end.

(** ** NodeViewMode.tick and keypress *)

Definition tick : GM unit :=
  self <- get ;;
  (if (ticks_left (node_view self) =? 0)%Z then
     modify (with_view (set_ticks_left (poll_interval (node_view self)))) ;;;
     run_async FnRefreshStates CbUpdateAndRedraw
   else ret tt) ;;;
  self <- get ;;
  modify (with_view (set_timer
    ("(Re-poll in " ++ str_of_Z (ticks_left (node_view self)) ++ " (s))")%string)) ;;;
  modify (with_view (fun v => set_ticks_left (ticks_left v - 1) v)).

(** [Frame.keypress(self, size, key)] is urwid's; of the call only the
    write to [ticks_left] before it is modelled, and the key is handed
    back. *)
Definition keypress (key : string) : GM string :=
  (if String.eqb key "f5"
   then modify (with_view (set_ticks_left 0))
   else ret tt) ;;;
  ret key.

End GUI.

(* ================================================================== *)
(** ** Runs of the orchestrator and what is said about them *)

Definition extend_deployed (l : list CharmClass) (o : ControllerOverlay) : ControllerOverlay :=
  mkControllerOverlay (done o) (machine o) (deployed_charm_classes o ++ l)
    (finalized_charm_classes o) (single_net_configured o) (info_text o).

Definition extend_finalized (l : list CharmClass) (o : ControllerOverlay) : ControllerOverlay :=
  mkControllerOverlay (done o) (machine o) (deployed_charm_classes o)
    (finalized_charm_classes o ++ l) (single_net_configured o) (info_text o).

(** The exception an event reports, if any. *)
Definition failed (ev : event) : option exn :=
  match ev with
  | EvCall _ f => f
  | _ => None
  end.

Definition no_failure (evs : list event) : Prop :=
  Forall (fun ev => failed ev = None) evs.

(** A computation neither swallows nor invents exceptions when its
    outcome agrees with its events in this sense: it returns after calls
    that all returned, and it raises exactly what its last call raised,
    all calls before having returned. *)
Definition agrees {A} (r : outcome A) (evs : list event) : Prop :=
  match r with
  | Ret _ => no_failure evs
  | Raise e => exists evs0 k, evs = evs0 ++ [EvCall k (Some e)] /\ no_failure evs0
  end.

Definition is_run (ev : event) : bool :=
  match ev with
  | EvCall (Run _) _ => true
  | _ => false
  end.

Definition name_in_services (juju_state : JujuState) (c : CharmClass) : bool :=
  existsb (String.eqb (name c)) (map service_name (services juju_state)).

(** Whether the snapshot has a service for [charm.charm_name]. *)
Definition has_service (juju_state : JujuState) (c : CharmClass) : bool :=
  match service juju_state (charm_name c) with
  | Some _ => true
  | None => false
  end.

(** [started_machines[0]] of [get_started_machine], when there is one. *)
Definition first_started (allocated : list Machine) : option Machine :=
  hd_error (filter (fun m => String.eqb (agent_state m) "started") allocated).

(** [unfinalized_charm_classes] as [_process] computes it. *)
Definition unfinalized (s : ControllerOverlay) : list CharmClass :=
  filter (fun c => negb (class_in c (finalized_charm_classes s)))
         (deployed_charm_classes s).

(** What an event of the deployment loop looks like. *)
Definition setup_event (juju_state : JujuState) (m : Machine) (l : list CharmClass)
  (ev : event) : Prop :=
  exists x f,
    ev = EvCall (Setup x ("lxc:" ++ machine_id m)%string) f
    /\ In x l /\ name_in_services juju_state x = false.

(** What an event of the finalization loop looks like. *)
Definition relation_event (juju_state : JujuState) (l : list CharmClass)
  (ev : event) : Prop :=
  exists x f,
    (ev = EvCall (SetRelations x) f \/ ev = EvCall (PostProc x) f)
    /\ In x l /\ has_service juju_state x = true.

(** An event of the acquisition block: a call of the client or a
    command. *)
Definition acquire_event (ev : event) : Prop :=
  exists f, ev = EvCall AddMachine f \/ exists cmd, ev = EvCall (Run cmd) f.

(** Every [setup] in the log went to a container on the chosen
    machine. *)
Definition setup_log (s : ControllerOverlay) (tr : list event) : Prop :=
  forall x _id f,
    In (EvCall (Setup x _id) f) tr ->
    exists m, machine s = Some m /\ _id = ("lxc:" ++ machine_id m)%string.

(** What the presentation part of [update_and_redraw] leaves alone. *)
Definition same_control (g g' : PegasusGUI) : Prop :=
  controller_overlay (node_view g') = controller_overlay (node_view g)
  /\ _target (node_view g') = _target (node_view g)
  /\ widget g' = widget g
  /\ pipes g' = pipes g
  /\ threads g' = threads g
  /\ next_fd g' = next_fd g
  /\ ticks_left (node_view g') = ticks_left (node_view g).

Section Runs.

Variable X : Externals.

(** One call of [process] by the loop, on any snapshot, in any world;
    the log is carried from call to call. *)
Inductive process_call
  : ControllerOverlay * list event -> ControllerOverlay * list event -> Prop :=
| process_call_intro :
    forall juju_state maas_state (w : World X) s tr r s' c',
      process X juju_state maas_state s (mkCtx w tr) = (r, s', c') ->
      process_call (s, tr) (s', trace c').

(** Any number of calls, one after the other. *)
Definition process_calls := clos_refl_trans_n1 _ process_call.

(** What a fresh orchestrator can get to. *)
Definition reachable (st : ControllerOverlay * list event) : Prop :=
  process_calls (ControllerOverlay_init X, []) st.

(** The facts that hold of the orchestrator between calls. *)
Record invariant (s : ControllerOverlay) : Prop := mkInvariant {
  inv_fin_dep : incl (finalized_charm_classes s) (deployed_charm_classes s);
  inv_dep_all : incl (deployed_charm_classes s) (charm_registry X);
  inv_dep_nodup : NoDup (charm_registry X) -> NoDup (deployed_charm_classes s);
  inv_fin_nodup : NoDup (charm_registry X) -> NoDup (finalized_charm_classes s);
  inv_no_machine :
    machine s = None ->
    deployed_charm_classes s = [] /\ single_net_configured s = false /\ done s = false;
  inv_done :
    done s = true ->
    List.length (finalized_charm_classes s) = List.length (charm_registry X);
  inv_done_deployed :
    done s = true -> incl (charm_registry X) (deployed_charm_classes s);
  inv_not_done :
    NoDup (charm_registry X) -> charm_registry X <> [] -> done s = false ->
    List.length (finalized_charm_classes s) < List.length (charm_registry X)
}.

(** [undeployed_charm_classes] as [_process] computes it. *)
Definition undeployed (s : ControllerOverlay) : list CharmClass :=
  filter (fun c => negb (class_in c (deployed_charm_classes s)))
         (sorted (charm_registry X)).

(** The orchestrator and the log after one more call of [process]. *)
Definition after_call (juju_state : JujuState) (maas_state : MaasState) (w : World X)
  (st : ControllerOverlay * list event) : ControllerOverlay * list event :=
  (snd (fst (process X juju_state maas_state (fst st) (mkCtx w (snd st)))),
   trace (snd (process X juju_state maas_state (fst st) (mkCtx w (snd st))))).

(** What the log holds of [utils._run] in single-node mode, by what
    the orchestrator has chosen. *)
Definition network_log (s : ControllerOverlay) (tr : list event) : Prop :=
  match machine s with
  | None => filter is_run tr = [] /\ single_net_configured s = false
  | Some m =>
      let scp := Run (scp_command (dns_name m)) in
      let ssh := Run (ssh_command (dns_name m)) in
      (exists e, filter is_run tr = [EvCall scp (Some e)]
                 /\ single_net_configured s = false)
      \/ (exists e, filter is_run tr = [EvCall scp None; EvCall ssh (Some e)]
                    /\ single_net_configured s = false)
      \/ (filter is_run tr = [EvCall scp None; EvCall ssh None]
          /\ single_net_configured s = true)
  end.

End Runs.

(* ================================================================== *)
(** ** A small installation to run the definitions on *)

Module Demo.

Definition mysql := mkCharmClass 0 1 "mysql" "mysql".
Definition keystone := mkCharmClass 1 2 "keystone" "keystone".

Definition never_fails : extcall -> option exn := fun _ => None.

Definition setup_fails : extcall -> option exn :=
  fun k => match k with
           | Setup _ _ => Some "setup failed"
           | _ => None
           end.

(** The world counts the external calls made; [fails] decides which of
    them raise; a poll delivers [polled]. *)
Definition externals (single multi : bool) (registry : list CharmClass)
  (fails : extcall -> option exn) (polled : outcome PollResult) : Externals :=
  mkExternals nat single multi registry
    (fun c _ _id w => (fails (Setup c _id), S w))
    (fun c _ w => (fails (SetRelations c), S w))
    (fun c _ w => (fails (PostProc c), S w))
    (fun w => (fails AddMachine, S w))
    (fun cmd w => (fails (Run cmd), S w))
    (fun w => (polled, S w))
    (fun _ _ c => (Raise "not used", tt, c))
    (fun _ _ g c => (Ret tt, g, c)).

Definition machine1 := mkMachine "1" "started" "host1".
Definition pending1 := mkMachine "1" "pending" "host1".

Definition no_machines : JujuState := mkJujuState [] [].
Definition bare_machine : JujuState := mkJujuState [machine1] [].
Definition services_up : JujuState :=
  mkJujuState [machine1] [mkService "mysql" []; mkService "keystone" []].
Definition services_without_machine : JujuState :=
  mkJujuState [pending1] [mkService "mysql" []].
Definition maas_empty : MaasState := mkMaasState [].
Definition maas_one : MaasState := mkMaasState [pending1].

Definition ctx0 : Ctx nat := mkCtx 0 [].

Definition poll_ok : outcome PollResult := Ret (bare_machine, maas_empty).

(** Two charms, one host, nothing fails. *)
Definition single_node : Externals :=
  externals true false [keystone; mysql] never_fails poll_ok.

(** The same on MAAS. *)
Definition multi_node : Externals :=
  externals false true [keystone; mysql] never_fails poll_ok.

(** One charm whose [setup] raises. *)
Definition failing_setup : Externals :=
  externals false true [mysql] setup_fails poll_ok.

(** No charm at all. *)
Definition no_charms : Externals :=
  externals true false [] never_fails poll_ok.

(** A poll that raises. *)
Definition failing_poll : Externals :=
  externals true false [mysql] never_fails (Raise "poll failed").

Definition run_fails : extcall -> option exn :=
  fun k => match k with
           | Run _ => Some "run failed"
           | _ => None
           end.

(** One charm on one host whose remote commands raise. *)
Definition failing_run : Externals :=
  externals true false [mysql] run_fails poll_ok.

(** A snapshot with a unit in error state that carries no detail. *)
Definition unit_in_error : Unit :=
  mkUnit "mysql/0" "error" None "10.0.0.2" false false.
Definition service_in_error : JujuState :=
  mkJujuState [machine1] [mkService "mysql" [unit_in_error]].

End Demo.

(* ================================================================== *)
(** ** More about runs of the orchestrator *)



Definition is_add_machine (ev : event) : bool :=
  match ev with
  | EvCall AddMachine _ => true
  | _ => false
  end.

(** What the loops of [update_and_redraw] over the units can change of
    the loop's objects: the three texts they write. *)
Definition same_but_texts (g g' : PegasusGUI) : Prop :=
  exists st h j,
    g' = with_view (fun v => set_status_info st
                               (set_horizon_url h (set_jujugui_url j v))) g.

Section Ticks.

Variable X : Externals.

(** [process] called on one polled snapshot after the other, as the
    loop does: what a call returned or raised does not stop the next. *)
Fixpoint run_calls (snapshots : list PollResult) (s : ControllerOverlay)
  (c : Ctx (World X)) : ControllerOverlay * Ctx (World X) :=
  match snapshots with
  | [] => (s, c)
  | (juju_state, maas_state) :: rest =>
      run_calls rest
        (snd (fst (process X juju_state maas_state s c)))
        (snd (process X juju_state maas_state s c))
  end.

(** [NodeViewMode.tick] called [n] times in a row. *)
Fixpoint ticks (n : nat) (g : PegasusGUI) (c : Ctx (World X))
  : PegasusGUI * Ctx (World X) :=
  match n with
  | O => (g, c)
  | S n' => ticks n' (snd (fst (tick X g c))) (snd (tick X g c))
  end.

(** [NodeViewMode.destroy]. *)
Definition destroy : M (World X) PegasusGUI unit :=
  modify (set_widget WNodeViewMode).

(** [PegasusGUI._header_hotkeys]; [ExitMainLoop] is the exception that
    ends urwid's loop. *)
Definition _header_hotkeys (key : string) : M (World X) PegasusGUI unit :=
  self <- get ;;
  match widget self with
  | WLockScreen => ret tt
  | _ =>
      (if String.eqb key "f8" then
         self <- get ;;
         match widget self with
         | WConsoleMode =>
             modify (set_widget (widget_of_target (_target (node_view self))))
         | _ => modify (set_widget WConsoleMode)
         end
       else ret tt) ;;;
      if String.eqb key "q" || String.eqb key "Q"
      then raise "ExitMainLoop"
      else ret tt
  end.

End Ticks.

(* ================================================================== *)
(** ** The idle lock of PegasusGUI and the LockScreen *)

Definition LOCK_TIME : Z := 120.

(** urwid text markup, as far as the file uses it: a plain string or an
    [(attribute, text)] pair. *)
Inductive Markup : Type :=
| Plain (text : string)
| Attr (attribute text : string).

(** A [LockScreen]: the cell [old] its [unlock] closes over, the text
    of its password [Edit] and its [invalid] text. *)
Record LockScreen := mkLockScreen {
  old_res : Widget;                          (* old['res'] *)
  password : string;                         (* self.password.get_edit_text() *)
  invalid : Markup
}.

Definition INVALID : Markup := Attr "error" "Invalid password.".

Definition set_invalid (m : Markup) (l : LockScreen) : LockScreen :=
  mkLockScreen (old_res l) (password l) m.

Definition set_password (t : string) (l : LockScreen) : LockScreen :=
  mkLockScreen (old_res l) t (invalid l).

(** The attributes of PegasusGUI that the idle lock uses, around the
    ones modelled so far: [lock_screen] is the [LockScreen] that
    [self.widget] is while it is one, and [alarms] counts the calls of
    [set_alarm_in]. *)
Record PegasusLoop := mkPegasusLoop {
  gui : PegasusGUI;
  lock_ticks : Z;
  locked : bool;
  lock_screen : option LockScreen;
  alarms : nat
}.

Definition set_gui (g : PegasusGUI) (l : PegasusLoop) : PegasusLoop :=
  mkPegasusLoop g (lock_ticks l) (locked l) (lock_screen l) (alarms l).

Definition set_lock_ticks (n : Z) (l : PegasusLoop) : PegasusLoop :=
  mkPegasusLoop (gui l) n (locked l) (lock_screen l) (alarms l).

Definition set_locked (b : bool) (l : PegasusLoop) : PegasusLoop :=
  mkPegasusLoop (gui l) (lock_ticks l) b (lock_screen l) (alarms l).

Definition set_lock_screen (ls : option LockScreen) (l : PegasusLoop) : PegasusLoop :=
  mkPegasusLoop (gui l) (lock_ticks l) (locked l) ls (alarms l).

Definition set_alarms (n : nat) (l : PegasusLoop) : PegasusLoop :=
  mkPegasusLoop (gui l) (lock_ticks l) (locked l) (lock_screen l) n.

(** What the lock reads of its surroundings: the module constant
    [IS_TTY], two constants of [pegasus], and urwid's [Overlay.keypress],
    which hands every key but [enter] to the password field: what it
    returns for a key and the text it leaves in the field. *)
Record LockSettings := mkLockSettings {
  IS_TTY : bool;
  OPENSTACK_PASSWORD : option string;
  PASSWORD_FILE : string;
  Overlay_keypress : string -> string -> option string * string
}.

Section IdleLock.

Variable X : Externals.
Variable P : LockSettings.

Local Abbreviation LM := (M (World X) PegasusLoop).

Definition IOERROR : Markup :=
  Attr "error"
    ("Problem accessing " ++ PASSWORD_FILE P ++ ". Please make sure " ++
     "it contains exactly one line that is the lock " ++
     "password.")%string.

(** [PegasusGUI.__init__], as far as the lock goes: it starts at zero
    ticks, not locked. *)
Definition PegasusLoop_init : PegasusLoop :=
  mkPegasusLoop (PegasusGUI_init X) 0 false None 0.

(** [PegasusGUI._key_pressed]. *)
Definition _key_pressed (keys : list string) : LM (list string) :=
  modify (set_lock_ticks LOCK_TIME) ;;;
  ret keys.

(** The closure [unlock] of [PegasusGUI.tick], for the lock screen [ls]
    it was made with. *)
Definition unlock (ls : LockScreen) : LM unit :=
  self <- get ;;
  let old :=
    match old_res ls with
    | WControllerOverlay =>
        if done (controller_overlay (node_view (gui self)))
        then WNodeViewMode
        else old_res ls
    | w => w
    end in
  modify (fun l => set_gui (set_widget old (gui l)) l) ;;;
  modify (set_lock_screen None) ;;;
  modify (set_lock_ticks LOCK_TIME) ;;;
  modify (set_locked false).

(** [PegasusGUI.tick]. *)
Definition PegasusGUI_tick : LM unit :=
  self <- get ;;
  (if negb (locked self) && IS_TTY P then
     if (lock_ticks self =? 0)%Z then
       modify (set_locked true) ;;;
       let old := widget (gui self) in
       modify (set_lock_screen (Some (mkLockScreen old "" (Plain "")))) ;;;
       modify (fun l => set_gui (set_widget WLockScreen (gui l)) l)
     else
       modify (set_lock_ticks (lock_ticks self - 1))
   else ret tt) ;;;
  zoom gui set_gui (tick X) ;;;
  modify (fun l => set_alarms (S (alarms l)) l).

(** [PegasusGUI.tick] called [n] times in a row. *)
Fixpoint PegasusGUI_ticks (n : nat) (l : PegasusLoop) (c : Ctx (World X))
  : PegasusLoop * Ctx (World X) :=
  match n with
  | O => (l, c)
  | S n' =>
      PegasusGUI_ticks n' (snd (fst (PegasusGUI_tick l c)))
                          (snd (PegasusGUI_tick l c))
  end.

(** [LockScreen.keypress] of the lock screen [ls] on display. *)
Definition LockScreen_keypress (ls : LockScreen) (key : string)
  : LM (option string) :=
  if String.eqb key "enter" then
    match OPENSTACK_PASSWORD P with
    | None =>
        modify (set_lock_screen (Some (set_invalid IOERROR ls))) ;;;
        ret None
    | Some pw =>
        if String.eqb pw (password ls) then
          unlock ls ;;;
          ret None
        else
          modify (set_lock_screen
                    (Some (set_password "" (set_invalid INVALID ls)))) ;;;
          ret None
    end
  else
    modify (set_lock_screen
              (Some (set_password (snd (Overlay_keypress P key (password ls))) ls))) ;;;
    ret (fst (Overlay_keypress P key (password ls))).

End IdleLock.

(* ================================================================== *)
(** ** AddCharmDialog *)

Record RadioButton := mkRadioButton {
  rb_label : string;
  rb_state : bool
}.

(** An [AddCharmDialog]: the radio buttons of [self.boxes] (the count
    editor, last in [self.boxes], is kept apart), the value of
    [self.count_editor] and the index handed to [set_focus]. *)
Record AddCharmDialog := mkAddCharmDialog {
  radio_boxes : list RadioButton;
  count_editor : Z;
  first_index : nat
}.

(** The loop of [AddCharmDialog.__init__] (the same loop is in
    [ChangeStateDialog.__init__]): [acc] is [first_index] so far and
    [i] the index of the head of [names]. *)
Fixpoint first_index_loop (names : list string) (i acc : nat) : nat :=
  match names with
  | [] => acc
  | n :: rest =>
      first_index_loop rest (S i)
        (if negb (String.eqb n "") && Nat.eqb acc 0 then i else acc)
  end.

Section Dialog.

Variable X : Externals.

(** [charm_class.allow_multi_units]. *)
Variable allow_multi_units : CharmClass -> bool.

(** [self.client.add_unit(service_name, machine_id, count)] of the juju
    client. *)
Variable client_add_unit :
  string -> option string -> Z -> World X -> option exn * World X.

(** The state urwid gives a new radio button of a group, by its
    position in the group. *)
Variable radio_initial_state : nat -> bool.

(** [AddCharmDialog.__init__]. *)
Definition AddCharmDialog_init : AddCharmDialog :=
  let charm_classes := filter allow_multi_units (charm_registry X) in
  let names := map name charm_classes in
  mkAddCharmDialog
    (map (fun p => mkRadioButton (snd p) (radio_initial_state (fst p)))
         (combine (seq 0 (List.length names)) names))
    1
    (first_index_loop names 0 0).

(** [CommandRunner.add_unit(service_name, machine_id=None, count=1)];
    the call acts on the world and may raise. *)
Definition add_unit (service_name : string) (machine_id : option string)
  (count : Z) : M (World X) PegasusGUI unit :=
  fun g c =>
    match client_add_unit service_name machine_id count (world c) with
    | (None, w') => (Ret tt, g, mkCtx w' (trace c))
    | (Some e, w') => (Raise e, g, mkCtx w' (trace c))
    end.

(** [AddCharmDialog.yes], with [NodeViewMode.destroy] as the [destroy]
    the dialog is made with in [open_dialog]; the [log.info] line is
    left out. *)
Definition AddCharmDialog_yes (self : AddCharmDialog) : M (World X) PegasusGUI unit :=
  match filter rb_state (radio_boxes self) with
  | [] => raise "IndexError: list index out of range"
  | selected :: _ =>
      let _charm_to_deploy := rb_label selected in
      let n := count_editor self in
      add_unit _charm_to_deploy None n ;;;
      destroy X
  end.

End Dialog.

(* ================================================================== *)
(** ** A small lock and a small dialog to run the definitions on *)

Module DemoLock.

(** The lock password is [secret]; a key typed on the lock screen is
    appended to the password field and consumed. *)
Definition settings (tty : bool) (pw : option string) : LockSettings :=
  mkLockSettings tty pw "/etc/openstack.passwd"
    (fun key text => (None, (text ++ key)%string)).

Definition on_tty : LockSettings := settings true (Some "secret").
Definition off_tty : LockSettings := settings false (Some "secret").

(** A loop locked over the overlay. *)
Definition locked_loop (X : Externals) : PegasusLoop :=
  mkPegasusLoop (set_widget WLockScreen (PegasusGUI_init X)) 0 true
    (Some (mkLockScreen WControllerOverlay "" (Plain ""))) 1.

(** A client whose [add_unit] returns and leaves the world as it is. *)
Definition add_unit_ok (X : Externals) :
  string -> option string -> Z -> World X -> option exn * World X :=
  fun _ _ _ w => (None, w).

End DemoLock.

(* ================================================================== *)
(** * Facts *)

Arguments String.append : simpl never.

(** A block that logged nothing. *)
Ltac no_events :=
  exists []; rewrite app_nil_r;
  split; [reflexivity|]; split; [constructor|]; split; [constructor|].

(** ** Lists and the sort *)

Lemma class_in_true (c : CharmClass) (l : list CharmClass) :
  class_in c l = true <-> In c l.
Proof.
  unfold class_in. destruct (in_dec CharmClass_eq_dec c l); split; intros; congruence || auto.
Qed.

Lemma class_in_false (c : CharmClass) (l : list CharmClass) :
  class_in c l = false <-> ~ In c l.
Proof.
  unfold class_in. destruct (in_dec CharmClass_eq_dec c l); split; intros;
    congruence || auto; contradiction.
Qed.

Lemma insert_by_priority_perm (c : CharmClass) (l : list CharmClass) :
  Permutation (insert_by_priority c l) (c :: l).
Proof.
  induction l as [|d l IH]; simpl.
  - apply Permutation_refl.
  - destruct (deploy_priority c <=? deploy_priority d)%Z.
    + apply Permutation_refl.
    + eapply perm_trans; [apply perm_skip, IH | apply perm_swap].
Qed.

Lemma sorted_perm (l : list CharmClass) : Permutation (sorted l) l.
Proof.
  induction l as [|c l IH]; simpl.
  - constructor.
  - eapply perm_trans; [apply insert_by_priority_perm | apply perm_skip, IH].
Qed.

Lemma sorted_In (c : CharmClass) (l : list CharmClass) : In c (sorted l) <-> In c l.
Proof.
  split; apply Permutation_in; [| apply Permutation_sym]; apply sorted_perm.
Qed.

Lemma sorted_length (l : list CharmClass) : List.length (sorted l) = List.length l.
Proof. apply Permutation_length, sorted_perm. Qed.

Lemma sorted_NoDup (l : list CharmClass) : NoDup l -> NoDup (sorted l).
Proof.
  intro H. eapply Permutation_NoDup; [apply Permutation_sym, sorted_perm | exact H].
Qed.

Lemma NoDup_filter {A} (f : A -> bool) (l : list A) : NoDup l -> NoDup (filter f l).
Proof.
  induction 1 as [|x l Hx Hl IH]; simpl; [constructor|].
  destruct (f x); auto. constructor; auto.
  intro Hin. apply filter_In in Hin. tauto.
Qed.

Lemma NoDup_app_intro {A} (l1 l2 : list A) :
  NoDup l1 -> NoDup l2 -> (forall x, In x l1 -> ~ In x l2) -> NoDup (l1 ++ l2).
Proof.
  induction 1 as [|x l1 Hx Hl1 IH]; simpl; intros H2 Hd; auto.
  constructor.
  - rewrite in_app_iff. intros [H|H]; [auto | eapply Hd; eauto].
  - apply IH; auto.
Qed.

Lemma NoDup_app_split {A} (l1 l2 : list A) :
  NoDup (l1 ++ l2) -> NoDup l1 /\ NoDup l2 /\ (forall x, In x l1 -> ~ In x l2).
Proof.
  induction l1 as [|x l1 IH]; simpl; intro H.
  - repeat split; auto. constructor.
  - inversion H as [|? ? Hx Hl]; subst. destruct (IH Hl) as (H1 & H2 & H3).
    rewrite in_app_iff in Hx. repeat split; auto.
    + constructor; tauto.
    + intros y [Hy|Hy]; [subst; tauto | auto].
Qed.

(** ** The monad *)

Lemma bind_inv {W S A B} (m : M W S A) (f : A -> M W S B) s c r s' c' :
  bind m f s c = (r, s', c') ->
  (exists a s1 c1, m s c = (Ret a, s1, c1) /\ f a s1 c1 = (r, s', c'))
  \/ (exists e, m s c = (Raise e, s', c') /\ r = Raise e).
Proof.
  unfold bind. destruct (m s c) as [[[a|e] s1] c1]; intro H.
  - left. eauto.
  - right. inversion H; subst. eauto.
Qed.

Lemma call_inv {W S} (k : extcall) (run : W -> option exn * W) (s : S) c r s' c' :
  call k run s c = (r, s', c') ->
  s' = s /\
  c' = mkCtx (snd (run (world c))) (trace c ++ [EvCall k (fst (run (world c)))]) /\
  r = match fst (run (world c)) with None => Ret tt | Some e => Raise e end.
Proof.
  unfold call. destruct (run (world c)) as [[e|] w']; simpl; intro H;
    inversion H; subst; auto.
Qed.

Lemma no_failure_app (evs1 evs2 : list event) :
  no_failure evs1 -> no_failure evs2 -> no_failure (evs1 ++ evs2).
Proof. unfold no_failure. intros. apply Forall_app; auto. Qed.

Lemma agrees_app {A} (r : outcome A) (evs1 evs2 : list event) :
  no_failure evs1 -> agrees r evs2 -> agrees r (evs1 ++ evs2).
Proof.
  intros H1 H2. destruct r as [a|e]; simpl in *.
  - apply no_failure_app; auto.
  - destruct H2 as (evs0 & k & -> & H0). exists (evs1 ++ evs0), k.
    rewrite app_assoc. split; auto. apply no_failure_app; auto.
Qed.

Lemma extend_deployed_nil (s : ControllerOverlay) : extend_deployed [] s = s.
Proof. destruct s; unfold extend_deployed; simpl. rewrite app_nil_r. reflexivity. Qed.

Lemma extend_finalized_nil (s : ControllerOverlay) : extend_finalized [] s = s.
Proof. destruct s; unfold extend_finalized; simpl. rewrite app_nil_r. reflexivity. Qed.

Lemma extend_deployed_cons (x : CharmClass) (l : list CharmClass) (s : ControllerOverlay) :
  extend_deployed l (append_deployed x s) = extend_deployed (x :: l) s.
Proof.
  unfold extend_deployed, append_deployed; simpl. rewrite <- app_assoc. reflexivity.
Qed.

Lemma extend_finalized_cons (x : CharmClass) (l : list CharmClass) (s : ControllerOverlay) :
  extend_finalized l (append_finalized x s) = extend_finalized (x :: l) s.
Proof.
  unfold extend_finalized, append_finalized; simpl. rewrite <- app_assoc. reflexivity.
Qed.

Section Facts.

Variable X : Externals.

(** ** The two loops *)

Lemma setup_event_mono js m l l' ev :
  incl l l' -> setup_event js m l ev -> setup_event js m l' ev.
Proof. intros Hi (x & f & -> & Hx & Hn). exists x, f. auto. Qed.

Lemma relation_event_mono js l l' ev :
  incl l l' -> relation_event js l ev -> relation_event js l' ev.
Proof. intros Hi (x & f & He & Hx & Hn). exists x, f. auto. Qed.

Lemma deploy_charm_spec (js : JujuState) (m : Machine) (x : CharmClass) s c r s1 c1 :
  machine s = Some m ->
  deploy_charm X js x s c = (r, s1, c1) ->
  (name_in_services js x = true
   /\ r = Ret tt /\ s1 = append_deployed x s /\ c1 = c)
  \/ (name_in_services js x = false
      /\ exists f,
          trace c1 = trace c ++ [EvCall (Setup x ("lxc:" ++ machine_id m)%string) f]
          /\ match f with
             | None => r = Ret tt /\ s1 = append_deployed x s
             | Some e => r = Raise e /\ s1 = s
             end).
Proof.
  intros Hm H. unfold deploy_charm in H. fold (name_in_services js x) in H.
  destruct (name_in_services js x) eqn:Hn.
  - left. inversion H; subst. auto.
  - right. split; auto.
    unfold machine_attr, bind, get, call, modify, ret in H. rewrite Hm in H.
    destruct (charm_setup X x js ("lxc:" ++ machine_id m)%string (world c)) as [[e|] w'];
      inversion H; subst; [exists (Some e) | exists None]; split; auto.
Qed.

Lemma deploy_loop_spec (js : JujuState) (m : Machine) :
  forall l s c r s' c',
    machine s = Some m ->
    for_each l (deploy_charm X js) s c = (r, s', c') ->
    exists l1 evs,
      s' = extend_deployed l1 s
      /\ trace c' = trace c ++ evs
      /\ agrees r evs
      /\ Forall (setup_event js m l) evs
      /\ match r with
         | Ret _ => l1 = l
         | Raise e =>
             exists x l2 evs0,
               l = l1 ++ x :: l2
               /\ evs = evs0 ++ [EvCall (Setup x ("lxc:" ++ machine_id m)%string) (Some e)]
         end.
Proof.
  induction l as [|x l IH]; intros s c r s' c' Hm H.
  - inversion H; subst. exists [], []. rewrite extend_deployed_nil, app_nil_r.
    repeat split; constructor.
  - cbn [for_each] in H. apply bind_inv in H.
    assert (Hmono : forall evs, Forall (setup_event js m l) evs ->
                                Forall (setup_event js m (x :: l)) evs).
    { intros evs. apply Forall_impl. intro ev. apply setup_event_mono.
      intros y Hy. right. exact Hy. }
    destruct H as [(a & s1 & c1 & H1 & H2) | (e & H1 & ->)].
    + apply (deploy_charm_spec js m) in H1; [| exact Hm].
      assert (Hs1 : s1 = append_deployed x s
                    /\ exists evs1, trace c1 = trace c ++ evs1 /\ no_failure evs1
                                    /\ Forall (setup_event js m (x :: l)) evs1).
      { destruct H1 as [(Hn & _ & -> & ->) | (Hn & f & Ht & Hf)].
        - split; auto. exists []. rewrite app_nil_r. repeat split; constructor.
        - destruct f as [e|]; destruct Hf as [Hr ->]; [discriminate|].
          split; auto. eexists. split; [exact Ht|]. split.
          + repeat constructor.
          + constructor; [| constructor]. exists x, None. repeat split; auto. left; auto. }
      destruct Hs1 as (-> & evs1 & Ht1 & Hnf & Hf1).
      apply IH in H2; [| exact Hm].
      destruct H2 as (l1 & evs & -> & Ht & Ha & Hf & Hr).
      exists (x :: l1), (evs1 ++ evs). rewrite extend_deployed_cons.
      rewrite Ht, Ht1, <- app_assoc.
      repeat split; auto.
      * apply agrees_app; auto.
      * apply Forall_app; auto.
      * destruct r as [u|e].
        -- congruence.
        -- destruct Hr as (y & l2 & evs0 & -> & ->). exists y, l2, (evs1 ++ evs0).
           rewrite <- app_assoc. split; reflexivity.
    + apply (deploy_charm_spec js m) in H1; [| exact Hm].
      destruct H1 as [(Hn & Hr & _) | (Hn & f & Ht & Hf)]; [discriminate|].
      destruct f as [e'|]; destruct Hf as [Hr ->]; [| discriminate].
      inversion Hr; subst e'.
      exists [], [EvCall (Setup x ("lxc:" ++ machine_id m)%string) (Some e)].
      rewrite extend_deployed_nil.
      repeat split; auto.
      * exists [], (Setup x ("lxc:" ++ machine_id m)%string). split; auto. constructor.
      * constructor; [| constructor]. exists x, (Some e). repeat split; auto. left; auto.
      * exists x, l, []. split; reflexivity.
Qed.

Lemma finalize_charm_spec (js : JujuState) (x : CharmClass) s c r s1 c1 :
  finalize_charm X js x s c = (r, s1, c1) ->
  (has_service js x = false /\ r = Ret tt /\ s1 = s /\ c1 = c)
  \/ (has_service js x = true
      /\ exists evs,
          trace c1 = trace c ++ evs
          /\ ((evs = [EvCall (SetRelations x) None; EvCall (PostProc x) None]
               /\ r = Ret tt /\ s1 = append_finalized x s)
              \/ (exists e, evs = [EvCall (SetRelations x) (Some e)]
                            /\ r = Raise e /\ s1 = s)
              \/ (exists e, evs = [EvCall (SetRelations x) None;
                                   EvCall (PostProc x) (Some e)]
                            /\ r = Raise e /\ s1 = s))).
Proof.
  unfold finalize_charm, has_service.
  destruct (service js (charm_name x)) as [sv|].
  - intro H. right. split; auto.
    unfold bind, call, modify in H.
    destruct (charm_set_relations X x js (world c)) as [[e|] w1].
    + inversion H; subst. eexists. split; [reflexivity|]. right. left.
      exists e. repeat split; reflexivity.
    + cbn [world trace] in H.
      destruct (charm_post_proc X x js w1) as [[e|] w2]; inversion H; subst;
        cbn [trace]; rewrite <- app_assoc; eexists; (split; [reflexivity|]).
      * right. right. exists e. repeat split; reflexivity.
      * left. repeat split; reflexivity.
  - intro H. inversion H; subst. left. auto.
Qed.

Lemma finalize_loop_spec (js : JujuState) :
  forall l s c r s' c',
    for_each l (finalize_charm X js) s c = (r, s', c') ->
    exists l1 evs,
      s' = extend_finalized l1 s
      /\ trace c' = trace c ++ evs
      /\ agrees r evs
      /\ Forall (relation_event js l) evs
      /\ match r with
         | Ret _ => l1 = filter (has_service js) l
         | Raise e =>
             exists l0 x l2 evs0 k,
               l = l0 ++ x :: l2
               /\ l1 = filter (has_service js) l0
               /\ has_service js x = true
               /\ evs = evs0 ++ [EvCall k (Some e)]
               /\ (k = SetRelations x \/ k = PostProc x)
         end.
Proof.
  induction l as [|x l IH]; intros s c r s' c' H.
  - inversion H; subst. exists [], []. rewrite extend_finalized_nil, app_nil_r.
    repeat apply conj; constructor.
  - cbn [for_each] in H. apply bind_inv in H.
    assert (Hev : forall k f, (k = SetRelations x \/ k = PostProc x) ->
                              has_service js x = true ->
                              relation_event js (x :: l) (EvCall k f)).
    { intros k f Hk Hs. exists x, f. repeat apply conj; auto.
      - destruct Hk; subst; auto.
      - left; auto. }
    destruct H as [(a & s1 & c1 & H1 & H2) | (e & H1 & ->)].
    + apply finalize_charm_spec in H1.
      apply IH in H2. destruct H2 as (l1 & evs & -> & Ht & Ha & Hf & Hr).
      assert (Hf' : Forall (relation_event js (x :: l)) evs).
      { revert Hf. apply Forall_impl. intro ev. apply relation_event_mono.
        intros y Hy. right. exact Hy. }
      destruct H1 as [(Hn & _ & -> & ->) | (Hn & evs1 & Ht1 & Hc)].
      * exists l1, evs. repeat apply conj; auto.
        destruct r as [u|e]; [cbn [filter]; rewrite Hn; auto|].
        destruct Hr as (l0 & y & l2 & evs0 & k & -> & -> & Hy & -> & Hk).
        exists (x :: l0), y, l2, evs0, k. cbn [filter]. rewrite Hn. repeat apply conj; auto.
      * destruct Hc as [(-> & _ & ->) | [(e & _ & He & _) | (e & _ & He & _)]];
          try discriminate.
        exists (x :: l1), ([EvCall (SetRelations x) None; EvCall (PostProc x) None] ++ evs).
        rewrite extend_finalized_cons, Ht, Ht1, <- app_assoc.
        repeat apply conj; auto.
        -- apply agrees_app; auto. repeat constructor.
        -- apply Forall_app. split; auto.
        -- destruct r as [u|e]; [cbn [filter]; rewrite Hn; congruence|].
           destruct Hr as (l0 & y & l2 & evs0 & k & -> & -> & Hy & -> & Hk).
           exists (x :: l0), y, l2,
             ([EvCall (SetRelations x) None; EvCall (PostProc x) None] ++ evs0), k.
           cbn [filter]. rewrite Hn, <- app_assoc. repeat apply conj; auto.
    + apply finalize_charm_spec in H1.
      destruct H1 as [(Hn & Hr & _) | (Hn & evs1 & Ht1 & Hc)]; [discriminate|].
      destruct Hc as [(_ & Hr & _) | [(e' & -> & He & ->) | (e' & -> & He & ->)]];
        try discriminate; inversion He; subst e'.
      * exists [], [EvCall (SetRelations x) (Some e)]. rewrite extend_finalized_nil.
        repeat apply conj; auto.
        -- exists [], (SetRelations x). split; auto. constructor.
        -- exists [], x, l, [], (SetRelations x). repeat apply conj; auto.
      * exists [], [EvCall (SetRelations x) None; EvCall (PostProc x) (Some e)].
        rewrite extend_finalized_nil.
        repeat apply conj; auto.
        -- exists [EvCall (SetRelations x) None], (PostProc x). split; auto.
           repeat constructor.
        -- exists [], x, l, [EvCall (SetRelations x) None], (PostProc x).
           repeat apply conj; auto.
Qed.

(** ** Controller acquisition *)

Lemma set_info_text_same (s : ControllerOverlay) : s = set_info_text (info_text s) s.
Proof. destruct s; reflexivity. Qed.

Lemma get_started_machine_spec (allocated : list Machine) s c r s1 c1 :
  get_started_machine X allocated s c = (r, s1, c1) ->
  c1 = c /\ r = Ret (first_started allocated)
  /\ s1 = set_info_text (info_text s1) s.
Proof.
  unfold get_started_machine, first_started.
  destruct (filter _ allocated) as [|m l]; intro H; inversion H; subst;
    repeat apply conj; auto. apply set_info_text_same.
Qed.

Lemma get_controller_machine_spec (js : JujuState) (ms : MaasState) s c r s1 c1 :
  get_controller_machine X js ms s c = (r, s1, c1) ->
  s1 = set_info_text (info_text s1) s
  /\ ((c1 = c /\ (r = Ret None \/ r = Ret (first_started (machines_allocated js))))
      \/ (c1 = mkCtx (snd (client_add_machine X (world c)))
                     (trace c ++ [EvCall AddMachine (fst (client_add_machine X (world c)))])
          /\ r = match fst (client_add_machine X (world c)) with
                 | None => Ret None
                 | Some e => Raise e
                 end)).
Proof.
  unfold get_controller_machine.
  destruct (MULTI_SYSTEM X).
  - destruct (_ && _).
    + intro H; inversion H; subst. split; auto.
    + destruct (_ && _).
      * unfold add_machine, bind, modify, call, ret.
        destruct (client_add_machine X (world c)) as [[e|] w']; cbn [fst snd];
          intro H; inversion H; subst; split; auto.
      * intro H. apply get_started_machine_spec in H. destruct H as (-> & -> & H).
        split; auto.
  - destruct (SINGLE_SYSTEM X).
    + intro H. apply get_started_machine_spec in H. destruct H as (-> & -> & H).
      split; auto.
    + intro H; inversion H; subst. split; auto. apply set_info_text_same.
Qed.

Lemma configure_lxc_network_spec (m : Machine) s c r s1 c1 :
  machine s = Some m ->
  configure_lxc_network X s c = (r, s1, c1) ->
  let scp := Run (scp_command (dns_name m)) in
  let ssh := Run (ssh_command (dns_name m)) in
  (exists e, r = Raise e /\ s1 = s
             /\ trace c1 = trace c ++ [EvCall scp (Some e)])
  \/ (exists e, r = Raise e /\ s1 = s
                /\ trace c1 = trace c ++ [EvCall scp None; EvCall ssh (Some e)])
  \/ (r = Ret tt /\ s1 = set_single_net_configured true s
      /\ trace c1 = trace c ++ [EvCall scp None; EvCall ssh None]).
Proof.
  intros Hm H. unfold configure_lxc_network, machine_attr, bind, get, ret, call, modify in H.
  rewrite Hm in H.
  destruct (utils_run X (scp_command (dns_name m)) (world c)) as [[e|] w1].
  - inversion H; subst. left. eauto.
  - cbn [world trace] in H.
    destruct (utils_run X (ssh_command (dns_name m)) w1) as [[e|] w2];
      inversion H; subst; cbn [trace]; rewrite <- app_assoc; right; [left | right]; eauto.
Qed.

Lemma acquire_machine_chosen (js : JujuState) (ms : MaasState) s c ra s1 c1 m :
  machine s = Some m ->
  acquire_machine X js ms s c = (ra, s1, c1) ->
  ra = Ret true /\ s1 = s /\ c1 = c.
Proof.
  intros Hm H. unfold acquire_machine, bind, get in H. rewrite Hm in H.
  inversion H; auto.
Qed.

(** The acquisition block when no machine is chosen yet, case by case:
    what [get_controller_machine] said, and how far
    [configure_lxc_network] got. *)
Lemma acquire_machine_unchosen (js : JujuState) (ms : MaasState) s c ra s1 c1 :
  machine s = None ->
  acquire_machine X js ms s c = (ra, s1, c1) ->
  exists rm s0 c0,
    get_controller_machine X js ms s c = (rm, s0, c0)
    /\ match rm with
       | Raise e => ra = Raise e /\ s1 = s0 /\ c1 = c0
       | Ret None => ra = Ret false /\ s1 = set_machine None s0 /\ c1 = c0
       | Ret (Some m) =>
           if SINGLE_SYSTEM X && negb (single_net_configured s0)
           then exists rc s2,
               configure_lxc_network X (set_machine (Some m) s0) c0 = (rc, s2, c1)
               /\ s1 = s2
               /\ ra = match rc with Ret _ => Ret true | Raise e => Raise e end
           else ra = Ret true /\ s1 = set_machine (Some m) s0 /\ c1 = c0
       end.
Proof.
  intros Hm H. unfold acquire_machine in H. unfold bind at 1, get at 1 in H.
  rewrite Hm in H. apply bind_inv in H.
  destruct H as [(mo & s0 & c0 & Hg & H) | (e & Hg & ->)].
  - exists (Ret mo), s0, c0. split; auto.
    unfold bind at 1, modify at 1 in H.
    destruct mo as [m|].
    + unfold bind at 1, get at 1 in H.
      cbn [single_net_configured set_machine] in H.
      destruct (SINGLE_SYSTEM X && negb (single_net_configured s0)).
      * unfold bind in H.
        destruct (configure_lxc_network X _ c0) as [[[u|e] s2] c2] eqn:Hc;
          inversion H; subst; eauto.
      * inversion H; subst; auto.
    + inversion H; subst; auto.
  - exists (Raise e), s1, c1. auto.
Qed.

(** Everything later proofs use about the acquisition block. *)
Lemma acquire_machine_spec (js : JujuState) (ms : MaasState) s c ra s1 c1 :
  acquire_machine X js ms s c = (ra, s1, c1) ->
  done s1 = done s
  /\ deployed_charm_classes s1 = deployed_charm_classes s
  /\ finalized_charm_classes s1 = finalized_charm_classes s
  /\ (forall m, machine s = Some m -> ra = Ret true /\ s1 = s /\ c1 = c)
  /\ match ra with
     | Ret true => exists m, machine s1 = Some m
                             /\ (machine s = None ->
                                 first_started (machines_allocated js) = Some m)
     | Ret false => machine s = None /\ machine s1 = None
     | Raise _ => True
     end
  /\ exists evs,
      trace c1 = trace c ++ evs
      /\ agrees ra evs
      /\ Forall acquire_event evs
      /\ (machine s = None -> single_net_configured s = false ->
          match machine s1 with
          | None => filter is_run evs = [] /\ single_net_configured s1 = false
          | Some m =>
              if SINGLE_SYSTEM X
              then network_log s1 evs
              else filter is_run evs = [] /\ single_net_configured s1 = false
          end).
Proof.
  intro H. destruct (machine s) as [m|] eqn:Hm.
  - destruct (acquire_machine_chosen js ms _ _ _ _ _ _ Hm H) as (-> & -> & ->).
    repeat apply conj; auto.
    + exists m. split; auto. discriminate.
    + no_events. discriminate.
  - apply acquire_machine_unchosen in H; [| exact Hm].
    destruct H as (rm & s0 & c0 & Hg & H).
    apply get_controller_machine_spec in Hg. destruct Hg as (Hs0 & Hg).
    assert (Hf0 : done s0 = done s /\ machine s0 = None
                  /\ deployed_charm_classes s0 = deployed_charm_classes s
                  /\ finalized_charm_classes s0 = finalized_charm_classes s
                  /\ single_net_configured s0 = single_net_configured s).
    { rewrite Hs0. cbn. auto. }
    destruct Hf0 as (Hd0 & Hm0 & Hdep0 & Hfin0 & Hsnc0).
    assert (Hacq : forall k, acquire_event (EvCall AddMachine k)).
    { intro k. exists k. left. reflexivity. }
    assert (Hrun : forall cmd k, acquire_event (EvCall (Run cmd) k)).
    { intros cmd k. exists k. right. exists cmd. reflexivity. }
    destruct rm as [[m|]|e].
    + (* a machine was picked *)
      destruct Hg as [(-> & Hr) | (_ & Hr)].
      2:{ destruct (fst (client_add_machine X (world c))); discriminate. }
      assert (Hfs : first_started (machines_allocated js) = Some m).
      { destruct Hr as [Hr|Hr]; inversion Hr; auto. }
      destruct (SINGLE_SYSTEM X) eqn:Hsingle;
        [destruct (single_net_configured s0) eqn:Hsnc|]; cbn [andb negb] in H.
      * destruct H as (-> & -> & ->). cbn. repeat apply conj; auto; try discriminate.
        -- eauto.
        -- no_events. intros; congruence.
      * destruct H as (rc & s2 & Hc & -> & ->).
        apply (configure_lxc_network_spec m) in Hc; [| reflexivity].
        cbn zeta in Hc.
        destruct Hc as [(e & -> & -> & Ht) | [(e & -> & -> & Ht) | (-> & -> & Ht)]];
          cbn; repeat apply conj; auto; try discriminate; eauto;
          (eexists; split; [exact Ht|]); repeat apply conj; auto.
        -- exists [], (Run (scp_command (dns_name m))). split; auto. constructor.
        -- intros; unfold network_log. cbn. left. exists e. rewrite Hsnc. auto.
        -- exists [EvCall (Run (scp_command (dns_name m))) None],
             (Run (ssh_command (dns_name m))). split; auto. repeat constructor.
        -- intros; unfold network_log. cbn. right. left. exists e. rewrite Hsnc. auto.
        -- repeat constructor.
      * destruct H as (-> & -> & ->). cbn. repeat apply conj; auto; try discriminate.
        -- eauto.
        -- no_events. intros; split; auto; congruence.
    + (* keep polling *)
      destruct H as (-> & -> & ->). cbn. repeat apply conj; auto; try discriminate.
      destruct Hg as [(-> & _) | (-> & Hr)].
      * no_events. intros; split; auto; congruence.
      * eexists. split; [reflexivity|].
        destruct (fst (client_add_machine X (world c))); [discriminate|].
        repeat apply conj; auto.
        -- repeat constructor.
        -- intros; split; auto; congruence.
    + (* the client raised *)
      destruct H as (-> & -> & ->). rewrite Hm0.
      repeat apply conj; auto; try discriminate.
      destruct Hg as [(_ & [Hr|Hr]) | (-> & Hr)]; try discriminate.
      eexists. split; [reflexivity|].
      destruct (fst (client_add_machine X (world c))) as [e'|]; inversion Hr; subst e'.
      repeat apply conj; auto.
      * exists [], AddMachine. split; auto. constructor.
      * intros; split; auto; congruence.
Qed.

(** ** The deployment and finalization blocks *)

Lemma deploy_charms_spec (js : JujuState) (m : Machine) s c r s' c' :
  machine s = Some m ->
  deploy_charms X js (sorted (charm_registry X)) s c = (r, s', c') ->
  exists l1 evs,
    s' = set_info_text (info_text s') (extend_deployed l1 s)
    /\ trace c' = trace c ++ evs
    /\ agrees r evs
    /\ Forall (setup_event js m (undeployed X s)) evs
    /\ match r with
       | Ret _ => l1 = undeployed X s
       | Raise e =>
           exists x l2 evs0,
             undeployed X s = l1 ++ x :: l2
             /\ evs = evs0 ++ [EvCall (Setup x ("lxc:" ++ machine_id m)%string) (Some e)]
       end.
Proof.
  intros Hm H. unfold deploy_charms in H. unfold bind at 1, get at 1 in H.
  fold (undeployed X s) in H.
  destruct (0 <? List.length (undeployed X s))%nat eqn:Hlen.
  - unfold bind at 1, modify at 1 in H.
    apply (deploy_loop_spec js m) in H; [| exact Hm].
    destruct H as (l1 & evs & -> & Ht & Ha & Hf & Hr).
    exists l1, evs. repeat apply conj; auto.
  - inversion H; subst. exists [], []. rewrite extend_deployed_nil, app_nil_r.
    repeat apply conj; try constructor.
    + apply set_info_text_same.
    + apply Nat.ltb_ge in Hlen. destruct (undeployed X s'); [reflexivity | simpl in Hlen; lia].
Qed.

Lemma set_charm_relations_spec (js : JujuState) s c r s' c' :
  set_charm_relations X js s c = (r, s', c') ->
  exists l1 evs,
    s' = set_info_text (info_text s') (extend_finalized l1 s)
    /\ trace c' = trace c ++ evs
    /\ agrees r evs
    /\ Forall (relation_event js (unfinalized s)) evs
    /\ match r with
       | Ret _ => l1 = filter (has_service js) (unfinalized s)
       | Raise e =>
           exists l0 x l2 evs0 k,
             unfinalized s = l0 ++ x :: l2
             /\ l1 = filter (has_service js) l0
             /\ has_service js x = true
             /\ evs = evs0 ++ [EvCall k (Some e)]
             /\ (k = SetRelations x \/ k = PostProc x)
       end.
Proof.
  intro H. unfold set_charm_relations in H. unfold bind at 1, get at 1 in H.
  fold (unfinalized s) in H.
  destruct (0 <? List.length (unfinalized s))%nat eqn:Hlen.
  - unfold bind at 1, modify at 1 in H.
    apply finalize_loop_spec in H.
    destruct H as (l1 & evs & -> & Ht & Ha & Hf & Hr).
    exists l1, evs. repeat apply conj; auto.
  - inversion H; subst. exists [], []. rewrite extend_finalized_nil, app_nil_r.
    repeat apply conj; try constructor.
    + apply set_info_text_same.
    + apply Nat.ltb_ge in Hlen.
      destruct (unfinalized s'); [reflexivity | simpl in Hlen; lia].
Qed.

(** ** [_process] and [process], block by block *)

Lemma _process_inv (js : JujuState) (ms : MaasState) s c r s' c' :
  _process X js ms s c = (r, s', c') ->
  exists ra s1 c1,
    acquire_machine X js ms s c = (ra, s1, c1)
    /\ match ra with
       | Raise e => r = Raise e /\ s' = s1 /\ c' = c1
       | Ret false => r = Ret true /\ s' = s1 /\ c' = c1
       | Ret true =>
           exists rd s2 c2,
             deploy_charms X js (sorted (charm_registry X)) s1 c1 = (rd, s2, c2)
             /\ match rd with
                | Raise e => r = Raise e /\ s' = s2 /\ c' = c2
                | Ret _ =>
                    exists rf,
                      set_charm_relations X js s2 c2 = (rf, s', c')
                      /\ r = match rf with
                             | Raise e => Raise e
                             | Ret _ =>
                                 Ret (negb (List.length (finalized_charm_classes s')
                                            =? List.length (sorted (charm_registry X)))%nat)
                             end
                end
       end.
Proof.
  intro H. unfold _process in H. apply bind_inv in H.
  destruct H as [(a & s1 & c1 & Ha & H) | (e & Ha & ->)].
  - exists (Ret a), s1, c1. split; auto.
    destruct a; cbn [negb] in H.
    + apply bind_inv in H.
      destruct H as [(u & s2 & c2 & Hd & H) | (e & Hd & ->)].
      * exists (Ret u), s2, c2. split; auto.
        apply bind_inv in H.
        destruct H as [(u' & s3 & c3 & Hf & H) | (e & Hf & ->)].
        -- unfold bind, get in H.
           destruct (_ =? _)%nat eqn:Hlen; inversion H; subst;
             exists (Ret u'); rewrite Hlen; auto.
        -- exists (Raise e). auto.
      * exists (Raise e), s', c'. auto.
    + inversion H; subst. auto.
  - exists (Raise e), s', c'. auto.
Qed.

Lemma process_inv (js : JujuState) (ms : MaasState) s c r s' c' :
  process X js ms s c = (r, s', c') ->
  if done s then r = Ret false /\ s' = s /\ c' = c
  else exists s0,
      _process X js ms s c = (r, s0, c')
      /\ s' = match r with Ret false => set_done true s0 | _ => s0 end.
Proof.
  unfold process. unfold bind at 1, get at 1.
  destruct (done s).
  - intro H; inversion H; auto.
  - intro H. unfold bind in H.
    destruct (_process X js ms s c) as [[[b|e] s0] c0].
    + destruct b; inversion H; subst; eauto.
    + inversion H; subst. eauto.
Qed.

Lemma unfinalized_ext (s t : ControllerOverlay) :
  deployed_charm_classes t = deployed_charm_classes s ->
  finalized_charm_classes t = finalized_charm_classes s ->
  unfinalized t = unfinalized s.
Proof. unfold unfinalized. intros -> ->. reflexivity. Qed.

Lemma undeployed_ext (s t : ControllerOverlay) :
  deployed_charm_classes t = deployed_charm_classes s ->
  undeployed X t = undeployed X s.
Proof. unfold undeployed. intros ->. reflexivity. Qed.

(** One call of [process] on an orchestrator that is not done: what the
    acquisition block did, then what was appended to the two lists and
    logged by the two loops, and how the call ended. *)
Lemma process_summary (js : JujuState) (ms : MaasState) s c r s' c' :
  process X js ms s c = (r, s', c') ->
  done s = false ->
  exists ra s1 c1 ld lf evs_d evs_f,
    acquire_machine X js ms s c = (ra, s1, c1)
    /\ deployed_charm_classes s' = deployed_charm_classes s ++ ld
    /\ finalized_charm_classes s' = finalized_charm_classes s ++ lf
    /\ machine s' = machine s1
    /\ single_net_configured s' = single_net_configured s1
    /\ trace c' = trace c1 ++ evs_d ++ evs_f
    /\ (forall m, machine s1 = Some m -> Forall (setup_event js m (undeployed X s)) evs_d)
    /\ Forall (relation_event js (unfinalized (extend_deployed ld s))) evs_f
    /\ match ra with
       | Raise e =>
           r = Raise e /\ s' = s1 /\ ld = [] /\ lf = [] /\ evs_d = [] /\ evs_f = []
       | Ret false =>
           r = Ret true /\ s' = s1 /\ ld = [] /\ lf = [] /\ evs_d = [] /\ evs_f = []
       | Ret true =>
           agrees r (evs_d ++ evs_f)
           /\ ((exists e x l2 evs0 _id,
                  r = Raise e
                  /\ undeployed X s = ld ++ x :: l2
                  /\ evs_d = evs0 ++ [EvCall (Setup x _id) (Some e)]
                  /\ lf = [] /\ evs_f = [] /\ done s' = false)
               \/ (ld = undeployed X s
                   /\ no_failure evs_d
                   /\ ((exists e l0 x l2 evs0 k,
                          r = Raise e
                          /\ unfinalized (extend_deployed ld s) = l0 ++ x :: l2
                          /\ lf = filter (has_service js) l0
                          /\ has_service js x = true
                          /\ evs_f = evs0 ++ [EvCall k (Some e)]
                          /\ (k = SetRelations x \/ k = PostProc x)
                          /\ done s' = false)
                       \/ (lf = filter (has_service js)
                                       (unfinalized (extend_deployed ld s))
                           /\ no_failure evs_f
                           /\ r = Ret (negb (List.length (finalized_charm_classes s')
                                             =? List.length (charm_registry X))%nat)
                           /\ done s' = (List.length (finalized_charm_classes s')
                                         =? List.length (charm_registry X))%nat))))
       end.
Proof.
  intros H Hd. apply process_inv in H. rewrite Hd in H.
  destruct H as (s0 & H & Hs').
  apply _process_inv in H. destruct H as (ra & s1 & c1 & Hacq & H).
  exists ra, s1, c1.
  destruct (acquire_machine_spec js ms _ _ _ _ _ Hacq)
    as (Hd1 & Hdep1 & Hfin1 & _ & Hra & _).
  destruct ra as [[|]|e].
  - (* past acquisition *)
    destruct Hra as (m & Hm1 & _).
    destruct H as (rd & s2 & c2 & Hdc & H).
    apply (deploy_charms_spec js m) in Hdc; [| exact Hm1].
    destruct Hdc as (ld & evs_d & Hs2 & Ht2 & Ha2 & Hf2 & Hr2).
    assert (Hund : undeployed X s1 = undeployed X s) by (apply undeployed_ext; auto).
    rewrite Hund in *.
    assert (F2 : done s2 = false /\ machine s2 = machine s1
                 /\ deployed_charm_classes s2 = deployed_charm_classes s ++ ld
                 /\ finalized_charm_classes s2 = finalized_charm_classes s
                 /\ single_net_configured s2 = single_net_configured s1).
    { rewrite Hs2. cbn. rewrite Hd1, Hdep1, Hfin1. auto. }
    destruct F2 as (Hd2 & Hm2 & Hdep2 & Hfin2 & Hsnc2).
    destruct rd as [u|e].
    + destruct H as (rf & Hsr & Hr).
      apply set_charm_relations_spec in Hsr.
      destruct Hsr as (lf & evs_f & Hs0 & Ht0 & Ha0 & Hf0 & Hr0).
      assert (Hunf : unfinalized s2 = unfinalized (extend_deployed ld s))
        by (apply unfinalized_ext; auto).
      rewrite Hunf in *.
      assert (F0 : done s0 = false /\ machine s0 = machine s1
                   /\ deployed_charm_classes s0 = deployed_charm_classes s ++ ld
                   /\ finalized_charm_classes s0 = finalized_charm_classes s ++ lf
                   /\ single_net_configured s0 = single_net_configured s1).
      { rewrite Hs0. cbn. rewrite Hd2, Hm2, Hdep2, Hfin2, Hsnc2. auto. }
      destruct F0 as (Hd0 & Hm0 & Hdep0 & Hfin0 & Hsnc0).
      assert (F' : machine s' = machine s1
                   /\ deployed_charm_classes s' = deployed_charm_classes s ++ ld
                   /\ finalized_charm_classes s' = finalized_charm_classes s ++ lf
                   /\ single_net_configured s' = single_net_configured s1).
      { subst s'. destruct r as [[|]|]; cbn; auto. }
      destruct F' as (Hm' & Hdep' & Hfin' & Hsnc').
      exists ld, lf, evs_d, evs_f.
      rewrite Ht0, Ht2, <- app_assoc.
      repeat apply conj; auto.
      * intros m' Hm'1. assert (m' = m) by congruence. subst m'. exact Hf2.
      * subst r. destruct rf as [u'|e]; apply agrees_app; auto.
      * right. repeat apply conj; auto.
        destruct rf as [u'|e].
        -- right. rewrite sorted_length in Hr. rewrite Hfin0 in Hr. rewrite Hfin'.
           repeat apply conj; auto.
           subst s'. rewrite Hr. rewrite <- Hfin0.
           destruct (Nat.eqb (List.length (finalized_charm_classes s0))
                             (List.length (charm_registry X))); cbn; auto.
        -- left. destruct Hr0 as (l0 & x & l2 & evs0 & k & H1 & H2 & H3 & H4 & H5).
           exists e, l0, x, l2, evs0, k. repeat apply conj; auto.
           subst s' r. exact Hd0.
    + destruct H as (-> & -> & ->). cbn in Hs'. subst s'.
      exists ld, [], evs_d, []. rewrite !app_nil_r.
      repeat apply conj; auto.
      * intros m' Hm'1. assert (m' = m) by congruence. subst m'. exact Hf2.
      * left. destruct Hr2 as (x & l2 & evs0 & H1 & H2).
        exists e, x, l2, evs0, ("lxc:" ++ machine_id m)%string.
        repeat apply conj; auto.
  - destruct H as (-> & -> & ->). subst s'.
    exists [], [], [], []. rewrite !app_nil_r.
    repeat apply conj; auto; constructor.
  - destruct H as (-> & -> & ->). subst s'.
    exists [], [], [], []. rewrite !app_nil_r.
    repeat apply conj; auto; constructor.
Qed.

(** ** What one call appends *)

Lemma process_appended (js : JujuState) (ms : MaasState) s c r s' c' :
  process X js ms s c = (r, s', c') ->
  exists ld lf,
    deployed_charm_classes s' = deployed_charm_classes s ++ ld
    /\ finalized_charm_classes s' = finalized_charm_classes s ++ lf
    /\ (exists rest, undeployed X s = ld ++ rest)
    /\ (exists l0 rest,
          unfinalized (extend_deployed ld s) = l0 ++ rest
          /\ lf = filter (has_service js) l0).
Proof.
  intro H. destruct (done s) eqn:Hd.
  - apply process_inv in H. rewrite Hd in H. destruct H as (_ & -> & _).
    exists [], []. rewrite !app_nil_r. repeat apply conj; auto.
    + exists (undeployed X s). reflexivity.
    + exists [], (unfinalized (extend_deployed [] s)). auto.
  - apply process_summary in H; [| exact Hd].
    destruct H as (ra & s1 & c1 & ld & lf & evs_d & evs_f
                   & Hacq & Hdep & Hfin & _ & _ & _ & _ & _ & H).
    exists ld, lf. split; [exact Hdep|]. split; [exact Hfin|].
    assert (Hnil : ld = [] -> lf = [] ->
                   (exists rest, undeployed X s = ld ++ rest)
                   /\ (exists l0 rest,
                         unfinalized (extend_deployed ld s) = l0 ++ rest
                         /\ lf = filter (has_service js) l0)).
    { intros -> ->. split.
      - exists (undeployed X s). reflexivity.
      - exists [], (unfinalized (extend_deployed [] s)). auto. }
    destruct ra as [[|]|e].
    + destruct H as (_ & [H | H]).
      * destruct H as (e & x & l2 & evs0 & _id & _ & Hu & _ & -> & _).
        split; [exists (x :: l2); exact Hu|].
        exists [], (unfinalized (extend_deployed ld s)). auto.
      * destruct H as (Hld & _ & [H | H]).
        -- destruct H as (e & l0 & x & l2 & evs0 & k & _ & Hu & Hlf & _).
           split; [exists []; rewrite app_nil_r; auto|].
           exists l0, (x :: l2). auto.
        -- destruct H as (Hlf & _).
           split; [exists []; rewrite app_nil_r; auto|].
           exists (unfinalized (extend_deployed ld s)), []. rewrite app_nil_r. auto.
    + destruct H as (_ & _ & Hld & Hlf & _). auto.
    + destruct H as (_ & _ & Hld & Hlf & _). auto.
Qed.

Lemma undeployed_In (s : ControllerOverlay) (x : CharmClass) :
  In x (undeployed X s) <->
  In x (charm_registry X) /\ ~ In x (deployed_charm_classes s).
Proof.
  unfold undeployed. rewrite filter_In, sorted_In, negb_true_iff, class_in_false.
  tauto.
Qed.

Lemma unfinalized_In (s : ControllerOverlay) (x : CharmClass) :
  In x (unfinalized s) <->
  In x (deployed_charm_classes s) /\ ~ In x (finalized_charm_classes s).
Proof.
  unfold unfinalized. rewrite filter_In, negb_true_iff, class_in_false. tauto.
Qed.

Lemma undeployed_NoDup (s : ControllerOverlay) :
  NoDup (charm_registry X) -> NoDup (undeployed X s).
Proof. intro H. apply NoDup_filter, sorted_NoDup, H. Qed.

Lemma unfinalized_NoDup (s : ControllerOverlay) :
  NoDup (deployed_charm_classes s) -> NoDup (unfinalized s).
Proof. apply NoDup_filter. Qed.

(** ** The invariant *)

Lemma invariant_init : invariant X (ControllerOverlay_init X).
Proof.
  constructor; cbn; intros; auto; try constructor; try discriminate;
    try (intros x []).
  destruct (charm_registry X); [congruence | cbn; lia].
Qed.

Lemma invariant_step (js : JujuState) (ms : MaasState) s c r s' c' :
  invariant X s ->
  process X js ms s c = (r, s', c') ->
  invariant X s'.
Proof.
  intros I H. destruct (done s) eqn:Hd.
  { apply process_inv in H. rewrite Hd in H. destruct H as (_ & -> & _). exact I. }
  destruct (process_appended _ _ _ _ _ _ _ H)
    as (ld & lf & Hdep & Hfin & (rest & Hrest) & (l0 & rest' & Hrest' & Hlf)).
  assert (Hld : forall x, In x ld ->
                          In x (charm_registry X) /\ ~ In x (deployed_charm_classes s)).
  { intros x Hx. apply undeployed_In. rewrite Hrest. apply in_or_app. auto. }
  assert (Hl0 : forall x, In x l0 ->
                          In x (deployed_charm_classes s ++ ld)
                          /\ ~ In x (finalized_charm_classes s)).
  { intros x Hx.
    assert (Hu : In x (unfinalized (extend_deployed ld s)))
      by (rewrite Hrest'; apply in_or_app; auto).
    apply unfinalized_In in Hu. exact Hu. }
  assert (Hlf' : forall x, In x lf -> In x l0).
  { intros x Hx. rewrite Hlf in Hx. apply filter_In in Hx. tauto. }
  assert (Hdep_nd : NoDup (charm_registry X) -> NoDup (deployed_charm_classes s ++ ld)).
  { intro Hnd. apply NoDup_app_intro.
    - apply (inv_dep_nodup X s I Hnd).
    - pose proof (undeployed_NoDup s Hnd) as Hu. rewrite Hrest in Hu.
      apply NoDup_app_split in Hu. tauto.
    - intros x Hx Hx'. apply Hld in Hx'. tauto. }
  assert (Hdep_all : incl (deployed_charm_classes s ++ ld) (charm_registry X)).
  { intros x Hx. apply in_app_or in Hx. destruct Hx as [Hx|Hx].
    - apply (inv_dep_all X s I), Hx.
    - apply Hld in Hx. tauto. }
  assert (Hl0_nd : NoDup (charm_registry X) -> NoDup (l0 ++ rest')).
  { intro Hnd. rewrite <- Hrest'. apply unfinalized_NoDup. cbn. auto. }
  assert (Hfin_nd : NoDup (charm_registry X) -> NoDup (finalized_charm_classes s ++ lf)).
  { intro Hnd. apply NoDup_app_intro.
    - apply (inv_fin_nodup X s I Hnd).
    - rewrite Hlf. apply NoDup_filter.
      pose proof (Hl0_nd Hnd) as Hu. apply NoDup_app_split in Hu. tauto.
    - intros x Hx Hx'. apply Hlf', Hl0 in Hx'. tauto. }
  assert (Hfin_all : incl (finalized_charm_classes s ++ lf) (charm_registry X)).
  { intros x Hx. apply in_app_or in Hx. destruct Hx as [Hx|Hx].
    - apply (inv_dep_all X s I), (inv_fin_dep X s I), Hx.
    - apply Hlf', Hl0 in Hx. destruct Hx as [Hx _].
      apply in_app_or in Hx. destruct Hx as [Hx|Hx].
      + apply (inv_dep_all X s I), Hx.
      + apply Hld in Hx. tauto. }
  apply process_summary in H; [| exact Hd].
  destruct H as (ra & s1 & c1 & ld' & lf' & evs_d & evs_f
                 & Hacq & Hdep' & Hfin' & Hm' & Hsnc' & _ & _ & _ & H).
  assert (ld' = ld) by (rewrite Hdep in Hdep'; apply app_inv_head in Hdep'; auto).
  assert (lf' = lf) by (rewrite Hfin in Hfin'; apply app_inv_head in Hfin'; auto).
  subst ld' lf'. clear Hdep' Hfin'.
  destruct (acquire_machine_spec js ms _ _ _ _ _ Hacq)
    as (Hd1 & Hdep1 & Hfin1 & Hch & Hra & evs_a & _ & _ & _ & Hnet).
  constructor.
  - (* finalized within deployed *)
    rewrite Hdep, Hfin. intros x Hx. apply in_app_or in Hx. destruct Hx as [Hx|Hx].
    + apply in_or_app. left. apply (inv_fin_dep X s I), Hx.
    + apply Hlf', Hl0 in Hx. tauto.
  - (* deployed within the registry *)
    rewrite Hdep. intros x Hx. apply in_app_or in Hx. destruct Hx as [Hx|Hx].
    + apply (inv_dep_all X s I), Hx.
    + apply Hld in Hx. tauto.
  - rewrite Hdep. exact Hdep_nd.
  - rewrite Hfin. exact Hfin_nd.
  - (* nothing happens without a machine *)
    intro Hnone. rewrite Hm' in Hnone.
    destruct (machine s) as [m|] eqn:Hm.
    { destruct (Hch m eq_refl) as (_ & -> & _). congruence. }
    destruct (inv_no_machine X s I Hm) as (Hdep0 & Hsnc0 & _).
    specialize (Hnet eq_refl Hsnc0). rewrite Hnone in Hnet.
    destruct ra as [[|]|e].
    + destruct Hra as (m & Hm1 & _). congruence.
    + destruct H as (_ & -> & -> & _). rewrite Hdep1, Hd1. tauto.
    + destruct H as (_ & -> & -> & _). rewrite Hdep1, Hd1. tauto.
  - (* done means complete *)
    intro Hdone. destruct ra as [[|]|e].
    + destruct H as (_ & [H | (_ & _ & [H | H])]).
      * destruct H as (? & ? & ? & ? & ? & _ & _ & _ & _ & _ & Hf). congruence.
      * destruct H as (? & ? & ? & ? & ? & ? & _ & _ & _ & _ & _ & _ & Hf). congruence.
      * destruct H as (_ & _ & _ & Hf). rewrite Hdone in Hf.
        symmetry in Hf. apply Nat.eqb_eq in Hf. exact Hf.
    + destruct H as (_ & -> & _). congruence.
    + destruct H as (_ & -> & _). congruence.
  - (* done means everything was deployed *)
    intro Hdone. destruct ra as [[|]|e].
    + destruct H as (_ & [H | (Hall & _ & [H | H])]).
      * destruct H as (? & ? & ? & ? & ? & _ & _ & _ & _ & _ & Hf). congruence.
      * destruct H as (? & ? & ? & ? & ? & ? & _ & _ & _ & _ & _ & _ & Hf). congruence.
      * intros x Hx. rewrite Hdep, Hall. apply in_or_app.
        destruct (in_dec CharmClass_eq_dec x (deployed_charm_classes s)) as [Hi|Hi];
          [left; exact Hi | right; apply undeployed_In; auto].
    + destruct H as (_ & -> & _). congruence.
    + destruct H as (_ & -> & _). congruence.
  - (* not done means incomplete *)
    intros Hnd Hne Hdone.
    pose proof (inv_not_done X s I Hnd Hne Hd) as Hlt.
    destruct ra as [[|]|e].
    + destruct H as (_ & [H | (_ & _ & [H | H])]).
      * destruct H as (? & ? & ? & ? & ? & _ & _ & _ & Hlf0 & _).
        rewrite Hfin, Hlf0, app_nil_r. exact Hlt.
      * destruct H as (e & l1 & x & l2 & evs0 & k & _ & Hu & Hlf1 & _).
        assert (Hx : In x (unfinalized (extend_deployed ld s))).
        { rewrite Hu. apply in_or_app. right. left. reflexivity. }
        apply unfinalized_In in Hx. cbn in Hx. destruct Hx as [Hxd Hxf].
        assert (Hxl : ~ In x lf).
        { rewrite Hlf1. intro Hin. apply filter_In in Hin. destruct Hin as [Hin _].
          pose proof (unfinalized_NoDup (extend_deployed ld s) (Hdep_nd Hnd)) as Hn.
          rewrite Hu in Hn. apply NoDup_app_split in Hn. destruct Hn as (_ & _ & Hn).
          apply (Hn x Hin). left. reflexivity. }
        assert (Hnd' : NoDup (x :: finalized_charm_classes s ++ lf)).
        { constructor; [rewrite in_app_iff; tauto | auto]. }
        assert (Hin' : incl (x :: finalized_charm_classes s ++ lf) (charm_registry X)).
        { intros y [<-|Hy]; [apply Hdep_all, Hxd | apply Hfin_all, Hy]. }
        pose proof (NoDup_incl_length Hnd' Hin') as Hle. cbn in Hle.
        rewrite Hfin. lia.
      * destruct H as (_ & _ & _ & Hf). rewrite Hdone in Hf.
        symmetry in Hf. apply Nat.eqb_neq in Hf.
        pose proof (NoDup_incl_length (Hfin_nd Hnd) Hfin_all) as Hle.
        rewrite <- Hfin in Hle. lia.
    + destruct H as (_ & -> & _). rewrite Hfin1. exact Hlt.
    + destruct H as (_ & -> & _). rewrite Hfin1. exact Hlt.
Qed.

Lemma reachable_invariant (s : ControllerOverlay) (tr : list event) :
  reachable X (s, tr) -> invariant X s.
Proof.
  unfold reachable, process_calls. intro H.
  remember (ControllerOverlay_init X, @nil event) as st0 eqn:E0.
  remember (s, tr) as st eqn:E. revert s tr E.
  induction H as [|st1 st2 Hstep Hrt IH]; intros s tr E; subst.
  - inversion E; subst. apply invariant_init.
  - inversion Hstep as [js ms w s1 tr1 r s2 c2 Hp E1 E2]; subst.
    eapply invariant_step; [| exact Hp].
    eapply IH; reflexivity.
Qed.

(** ** What one call logs *)

Lemma process_log (js : JujuState) (ms : MaasState) s c r s' c' :
  process X js ms s c = (r, s', c') ->
  exists evs_a evs_d evs_f,
    trace c' = trace c ++ evs_a ++ evs_d ++ evs_f
    /\ Forall acquire_event evs_a
    /\ (forall m, machine s' = Some m ->
                  Forall (setup_event js m (undeployed X s)) evs_d)
    /\ (machine s' = None -> evs_d = [])
    /\ Forall (relation_event js (deployed_charm_classes s')) evs_f
    /\ agrees r (evs_a ++ evs_d ++ evs_f).
Proof.
  intro H. destruct (done s) eqn:Hd.
  - apply process_inv in H. rewrite Hd in H. destruct H as (-> & -> & ->).
    exists [], [], []. rewrite !app_nil_r. repeat apply conj; auto; constructor.
  - apply process_summary in H; [| exact Hd].
    destruct H as (ra & s1 & c1 & ld & lf & evs_d & evs_f
                   & Hacq & Hdep & Hfin & Hm' & _ & Ht & Hsetup & Hrel & H).
    destruct (acquire_machine_spec js ms _ _ _ _ _ Hacq)
      as (_ & _ & _ & _ & Hra & evs_a & Hta & Haa & Hfa & _).
    exists evs_a, evs_d, evs_f.
    rewrite Ht, Hta, <- app_assoc.
    assert (Hrel' : Forall (relation_event js (deployed_charm_classes s')) evs_f).
    { revert Hrel. apply Forall_impl. intro ev. apply relation_event_mono.
      intros x Hx. apply unfinalized_In in Hx. cbn in Hx. rewrite Hdep. tauto. }
    repeat apply conj; auto.
    + intros m Hm. apply Hsetup. congruence.
    + intro Hnone. destruct ra as [[|]|e].
      * destruct Hra as (m & Hm1 & _). congruence.
      * tauto.
      * tauto.
    + destruct ra as [[|]|e].
      * destruct H as (Ha & _). apply agrees_app; auto.
      * destruct H as (-> & _ & _ & _ & -> & ->). rewrite !app_nil_r. exact Haa.
      * destruct H as (-> & _ & _ & _ & -> & ->). rewrite !app_nil_r. exact Haa.
Qed.

(** ** Runs *)

Lemma process_call_run (js : JujuState) (ms : MaasState) (w : World X) s tr :
  process_call X (s, tr)
    (snd (fst (process X js ms s (mkCtx w tr))),
     trace (snd (process X js ms s (mkCtx w tr)))).
Proof.
  destruct (process X js ms s (mkCtx w tr)) as [[r s'] c'] eqn:H.
  cbn. econstructor. exact H.
Qed.

Lemma process_calls_trans a b d :
  process_calls X a b -> process_calls X b d -> process_calls X a d.
Proof.
  intros Hab Hbd. induction Hbd as [|y z Hstep Hby IH].
  - exact Hab.
  - eapply rtn1_trans; eauto.
Qed.

Lemma process_calls_grow s tr s' tr' :
  process_calls X (s, tr) (s', tr') ->
  (exists ld, deployed_charm_classes s' = deployed_charm_classes s ++ ld)
  /\ (exists lf, finalized_charm_classes s' = finalized_charm_classes s ++ lf)
  /\ (exists evs, tr' = tr ++ evs).
Proof.
  intro H. remember (s, tr) as a eqn:Ea. remember (s', tr') as b eqn:Eb.
  revert s' tr' Eb.
  induction H as [|y z Hstep Hby IH]; intros s' tr' Eb; subst.
  - inversion Eb; subst. repeat split; exists []; rewrite app_nil_r; reflexivity.
  - inversion Hstep as [js ms w s1 tr1 r s2 c2 Hp E1 E2]; subst.
    destruct (IH s1 tr1 eq_refl) as ((ld & Hd) & (lf & Hf) & (evs & Ht)).
    destruct (process_appended _ _ _ _ _ _ _ Hp) as (ld' & lf' & Hd' & Hf' & _).
    destruct (process_log _ _ _ _ _ _ _ Hp) as (ea & ed & ef & Ht' & _).
    cbn in Ht'. repeat split.
    + exists (ld ++ ld'). rewrite Hd', Hd, app_assoc. reflexivity.
    + exists (lf ++ lf'). rewrite Hf', Hf, app_assoc. reflexivity.
    + exists (evs ++ ea ++ ed ++ ef). rewrite Ht', Ht, <- app_assoc. reflexivity.
Qed.

(** ** The claims about the orchestrator *)

(** C3: across any sequence of [process] calls of one orchestrator the
    lists of deployed and of finalized charm classes only grow (what was
    there stays, in place, and more is appended), and after every call
    the finalized classes are among the deployed ones and the deployed
    ones among the registered ones. *)
Theorem C3_progress_only_grows_and_nests (s s' : ControllerOverlay)
  (tr tr' : list event) :
  reachable X (s, tr) ->
  process_calls X (s, tr) (s', tr') ->
  (exists ld, deployed_charm_classes s' = deployed_charm_classes s ++ ld)
  /\ (exists lf, finalized_charm_classes s' = finalized_charm_classes s ++ lf)
  /\ incl (finalized_charm_classes s') (deployed_charm_classes s')
  /\ incl (deployed_charm_classes s') (charm_registry X).
Proof.
  intros Hr Hs.
  destruct (process_calls_grow _ _ _ _ Hs) as (Hd & Hf & _).
  assert (I : invariant X s').
  { apply (reachable_invariant s' tr'). eapply process_calls_trans; eauto. }
  repeat split; auto.
  - apply (inv_fin_dep X s' I).
  - apply (inv_dep_all X s' I).
Qed.

(** C4: in one call of [process], a charm class that the call adds to
    the finalized list is in the deployed list and the snapshot of that
    call has a service of its [charm_name]; [set_relations] and
    [post_proc] are called only for such classes, and only after every
    [setup] the call makes. *)
Theorem C4_finalized_only_deployed_and_live (js : JujuState) (ms : MaasState)
  (s : ControllerOverlay) (c : Ctx (World X)) :
  let s' := snd (fst (process X js ms s c)) in
  let c' := snd (process X js ms s c) in
  (forall x, In x (finalized_charm_classes s') ->
             ~ In x (finalized_charm_classes s) ->
             In x (deployed_charm_classes s')
             /\ service js (charm_name x) <> None)
  /\ exists before after,
      trace c' = trace c ++ before ++ after
      /\ (forall x f, ~ In (EvCall (SetRelations x) f) before
                      /\ ~ In (EvCall (PostProc x) f) before)
      /\ (forall ev, In ev after ->
                     exists x f,
                       (ev = EvCall (SetRelations x) f \/ ev = EvCall (PostProc x) f)
                       /\ In x (deployed_charm_classes s')
                       /\ service js (charm_name x) <> None).
Proof.
  destruct (process X js ms s c) as [[r s'] c'] eqn:H. cbn.
  assert (Hserv : forall x, has_service js x = true ->
                            service js (charm_name x) <> None).
  { intros x. unfold has_service. destruct (service js (charm_name x)); congruence. }
  split.
  - intros x Hin Hnot.
    pose proof H as H0.
    destruct (process_appended _ _ _ _ _ _ _ H)
      as (ld & lf & Hdep & Hfin & _ & (l0 & rest & Hu & Hlf)).
    rewrite Hfin in Hin. apply in_app_or in Hin. destruct Hin as [Hin|Hin]; [tauto|].
    rewrite Hlf in Hin. apply filter_In in Hin. destruct Hin as [Hin Hs].
    assert (Hx : In x (unfinalized (extend_deployed ld s)))
      by (rewrite Hu; apply in_or_app; auto).
    apply unfinalized_In in Hx. cbn in Hx. rewrite Hdep. split; [tauto | auto].
  - destruct (process_log _ _ _ _ _ _ _ H)
      as (ea & ed & ef & Ht & Ha & Hd & Hdn & Hf & _).
    exists (ea ++ ed), ef. rewrite <- app_assoc. split; [exact Ht|]. split.
    + assert (Hed : forall ev, In ev ed -> exists y _id f, ev = EvCall (Setup y _id) f).
      { intros ev Hev. destruct (machine s') as [m|] eqn:Hm.
        - specialize (Hd m eq_refl). rewrite Forall_forall in Hd.
          destruct (Hd ev Hev) as (y & f & -> & _). eauto.
        - rewrite (Hdn eq_refl) in Hev. destruct Hev. }
      rewrite Forall_forall in Ha.
      intros x f. split; intro Hin; apply in_app_or in Hin; destruct Hin as [Hin|Hin].
      * destruct (Ha _ Hin) as (f' & [He | (cmd & He)]); discriminate.
      * destruct (Hed _ Hin) as (y & _id & f' & He). discriminate.
      * destruct (Ha _ Hin) as (f' & [He | (cmd & He)]); discriminate.
      * destruct (Hed _ Hin) as (y & _id & f' & He). discriminate.
    + rewrite Forall_forall in Hf. intros ev Hev.
      destruct (Hf ev Hev) as (x & f & He & Hx & Hs). exists x, f. auto.
Qed.

Lemma agrees_failure {A} (r : outcome A) (evs : list event) (k : extcall) (e : exn) :
  agrees r evs ->
  In (EvCall k (Some e)) evs ->
  r = Raise e /\ exists evs0, evs = evs0 ++ [EvCall k (Some e)] /\ no_failure evs0.
Proof.
  intros Ha Hin. destruct r as [a|e'].
  - cbn in Ha. unfold no_failure in Ha. rewrite Forall_forall in Ha.
    specialize (Ha _ Hin). discriminate.
  - destruct Ha as (evs0 & k' & -> & Hn).
    apply in_app_or in Hin. destruct Hin as [Hin | [Hin | []]].
    + unfold no_failure in Hn. rewrite Forall_forall in Hn.
      specialize (Hn _ Hin). discriminate.
    + inversion Hin; subst. eauto.
Qed.

Lemma process_done_iff (js : JujuState) (ms : MaasState) s c r s' c' :
  process X js ms s c = (r, s', c') ->
  (r = Ret false <-> done s' = true).
Proof.
  intro H. destruct (done s) eqn:Hd.
  - apply process_inv in H. rewrite Hd in H. destruct H as (-> & -> & _). tauto.
  - apply process_summary in H; [| exact Hd].
    destruct H as (ra & s1 & c1 & ld & lf & evs_d & evs_f
                   & Hacq & _ & _ & _ & _ & _ & _ & _ & H).
    destruct (acquire_machine_spec js ms _ _ _ _ _ Hacq) as (Hd1 & _).
    destruct ra as [[|]|e].
    + destruct H as (_ & [H | (_ & _ & [H | H])]).
      * destruct H as (? & ? & ? & ? & ? & -> & _ & _ & _ & _ & Hf).
        split; [discriminate | congruence].
      * destruct H as (? & ? & ? & ? & ? & ? & -> & _ & _ & _ & _ & _ & Hf).
        split; [discriminate | congruence].
      * destruct H as (_ & _ & -> & ->).
        destruct (_ =? _)%nat; cbn; split; congruence.
    + destruct H as (-> & -> & _). split; [discriminate | congruence].
    + destruct H as (-> & -> & _). split; [discriminate | congruence].
Qed.

(** C1, as the code has it: an exception raised by a charm hook during
    [process] is not caught by the orchestrator.  For every snapshot and
    every registry, whatever external call of the call raises, [process]
    raises that same exception to its caller, as the last thing it does.
    When the registry lists no class twice, a class whose [setup] raised
    is not in the deployed list afterwards, and a class whose
    [set_relations] or [post_proc] raised is not in the finalized list
    (a class listed twice can be in the list through its other entry). *)
Theorem C1_hook_failure_reaches_the_caller (js : JujuState) (ms : MaasState)
  (s : ControllerOverlay) (tr : list event) (w : World X) :
  reachable X (s, tr) ->
  let r := fst (fst (process X js ms s (mkCtx w tr))) in
  let s' := snd (fst (process X js ms s (mkCtx w tr))) in
  let c' := snd (process X js ms s (mkCtx w tr)) in
  exists evs,
    trace c' = tr ++ evs
    /\ forall k e,
        In (EvCall k (Some e)) evs ->
        r = Raise e
        /\ (exists evs0, evs = evs0 ++ [EvCall k (Some e)])
        /\ (NoDup (charm_registry X) ->
            (forall x _id, k = Setup x _id -> ~ In x (deployed_charm_classes s'))
            /\ (forall x, k = SetRelations x \/ k = PostProc x ->
                          ~ In x (finalized_charm_classes s'))).
Proof.
  intros Hreach.
  destruct (process X js ms s (mkCtx w tr)) as [[r s'] c'] eqn:H. cbn.
  pose proof (reachable_invariant _ _ Hreach) as I.
  destruct (process_log _ _ _ _ _ _ _ H)
    as (ea & ed & ef & Ht & Hfa & _ & _ & _ & Hagr).
  exists (ea ++ ed ++ ef). split; [exact Ht|].
  intros k e Hin.
  destruct (agrees_failure _ _ _ _ Hagr Hin) as (Hr & evs0 & Hlast & Hclean).
  split; [exact Hr|]. split; [eauto|].
  intro Hnd.
  destruct (done s) eqn:Hd.
  { apply process_inv in H. rewrite Hd in H. destruct H as (-> & _). discriminate. }
  apply process_summary in H; [| exact Hd].
  destruct H as (ra & s1 & c1 & ld & lf & evs_d & evs_f
                 & Hacq & Hdep & Hfin & _ & _ & Ht' & _ & _ & H).
  destruct (acquire_machine_spec js ms _ _ _ _ _ Hacq)
    as (_ & _ & _ & _ & _ & evs_a & Hta & Haa & Hfa' & _).
  cbn in Ht, Ht', Hta.
  assert (Hsame : ea ++ ed ++ ef = evs_a ++ evs_d ++ evs_f).
  { rewrite Hta, <- app_assoc in Ht'. rewrite Ht in Ht'.
    apply app_inv_head in Ht'. exact Ht'. }
  rewrite Hsame in Hlast.
  assert (Hdep_nd : NoDup (deployed_charm_classes s ++ ld)).
  { apply NoDup_app_intro.
    - apply (inv_dep_nodup X s I Hnd).
    - pose proof (undeployed_NoDup s Hnd) as Hu.
      destruct ra as [[|]|e'];
        [destruct H as (_ & [H | (Hall & _)])
        | destruct H as (_ & _ & -> & _); constructor
        | destruct H as (_ & _ & -> & _); constructor].
      + destruct H as (? & ? & ? & ? & ? & _ & Hu' & _).
        rewrite Hu' in Hu. apply NoDup_app_split in Hu. tauto.
      + rewrite Hall. exact Hu.
    - intros x Hx Hx'.
      assert (Hin' : In x (undeployed X s)).
      { destruct ra as [[|]|e'];
          [destruct H as (_ & [H | (Hall & _)])
          | destruct H as (_ & _ & -> & _); destruct Hx'
          | destruct H as (_ & _ & -> & _); destruct Hx'].
        - destruct H as (? & ? & ? & ? & ? & _ & Hu' & _).
          rewrite Hu'. apply in_or_app. auto.
        - rewrite <- Hall. exact Hx'. }
      apply undeployed_In in Hin'. tauto. }
  destruct ra as [[|]|e'].
  - destruct H as (_ & [H | (Hall & Hcd & [H | H])]).
    + (* a setup raised *)
      destruct H as (e1 & x & l2 & evs1 & _id & _ & Hu & Hed & -> & -> & _).
      rewrite Hed, app_nil_r in Hlast.
      rewrite app_assoc in Hlast. apply app_inj_tail in Hlast.
      destruct Hlast as (_ & Hk). inversion Hk; subst k e1. clear Hk.
      split.
      * intros y _id' Hy. inversion Hy; subst y _id'.
        rewrite Hdep. rewrite in_app_iff.
        pose proof (undeployed_NoDup s Hnd) as Hund. rewrite Hu in Hund.
        apply NoDup_app_split in Hund. destruct Hund as (_ & _ & Hdisj).
        assert (Hx : In x (undeployed X s)).
        { rewrite Hu. apply in_or_app. right. left. reflexivity. }
        apply undeployed_In in Hx.
        intros [Hc|Hc]; [tauto|]. apply (Hdisj x Hc). left. reflexivity.
      * intros y [Hy|Hy]; discriminate.
    + (* set_relations or post_proc raised *)
      destruct H as (e1 & l0 & x & l2 & evs1 & k1 & _ & Hu & Hlf & _ & Hef & Hk1 & _).
      rewrite Hef in Hlast. rewrite !app_assoc in Hlast. apply app_inj_tail in Hlast.
      destruct Hlast as (_ & Hk). inversion Hk; subst k e1. clear Hk.
      split.
      * intros y _id' Hy. destruct Hk1; subst k1; discriminate.
      * intros y Hy.
        assert (y = x) by (destruct Hk1; destruct Hy; subst; congruence).
        subst y.
        pose proof (unfinalized_NoDup (extend_deployed ld s) Hdep_nd) as Hn.
        rewrite Hu in Hn. apply NoDup_app_split in Hn. destruct Hn as (_ & _ & Hdisj).
        assert (Hx : In x (unfinalized (extend_deployed ld s))).
        { rewrite Hu. apply in_or_app. right. left. reflexivity. }
        apply unfinalized_In in Hx. cbn in Hx.
        rewrite Hfin, in_app_iff, Hlf.
        intros [Hc|Hc]; [tauto|]. apply filter_In in Hc. destruct Hc as [Hc _].
        apply (Hdisj x Hc). left. reflexivity.
    + (* the call returned *)
      destruct H as (_ & _ & Hret & _). rewrite Hr in Hret. discriminate.
  - destruct H as (Hret & _). rewrite Hr in Hret. discriminate.
  - (* the acquisition block raised *)
    destruct H as (_ & _ & _ & _ & -> & ->). rewrite !app_nil_r in Hlast.
    assert (Hk : acquire_event (EvCall k (Some e))).
    { rewrite Forall_forall in Hfa'. apply Hfa'. rewrite Hlast.
      apply in_or_app. right. left. reflexivity. }
    destruct Hk as (f & [Hk | (cmd & Hk)]); inversion Hk; subst.
    + split; [intros; discriminate | intros y [Hy|Hy]; discriminate].
    + split; [intros; discriminate | intros y [Hy|Hy]; discriminate].
Qed.

Lemma process_latched (s : ControllerOverlay) :
  done s = true ->
  forall js ms (c : Ctx (World X)), process X js ms s c = (Ret false, s, c).
Proof.
  intros Hd js ms c. unfold process, bind, get. rewrite Hd. reflexivity.
Qed.

(** C2, as the code has it: on an orchestrator whose registry lists at
    least one charm class and none twice, a call of [process] returns
    false exactly when the finalized list holds every registered class
    once the call is over; and from then on every call returns false at
    once, changing neither the orchestrator nor the world nor the log. *)
Theorem C2_false_iff_all_finalized_then_latched (js : JujuState) (ms : MaasState)
  (s : ControllerOverlay) (tr : list event) (w : World X) :
  NoDup (charm_registry X) ->
  charm_registry X <> [] ->
  reachable X (s, tr) ->
  let r := fst (fst (process X js ms s (mkCtx w tr))) in
  let s' := snd (fst (process X js ms s (mkCtx w tr))) in
  (r = Ret false <-> incl (charm_registry X) (finalized_charm_classes s'))
  /\ (r = Ret false ->
      forall js' ms' (c2 : Ctx (World X)),
        process X js' ms' s' c2 = (Ret false, s', c2)).
Proof.
  intros Hnd Hne Hreach.
  destruct (process X js ms s (mkCtx w tr)) as [[r s'] c'] eqn:H. cbn.
  pose proof (reachable_invariant _ _ Hreach) as I.
  pose proof (invariant_step _ _ _ _ _ _ _ I H) as I'.
  pose proof (process_done_iff _ _ _ _ _ _ _ H) as Hiff.
  assert (Hin : incl (finalized_charm_classes s') (charm_registry X)).
  { intros x Hx. apply (inv_dep_all X s' I'), (inv_fin_dep X s' I'), Hx. }
  split.
  - rewrite Hiff. split.
    + intro Hd. apply NoDup_length_incl.
      * apply (inv_fin_nodup X s' I' Hnd).
      * rewrite (inv_done X s' I' Hd). apply le_n.
      * exact Hin.
    + intro Hall. destruct (done s') eqn:Hd; [reflexivity|].
      pose proof (inv_not_done X s' I' Hnd Hne Hd) as Hlt.
      pose proof (NoDup_incl_length Hnd Hall) as Hle. lia.
  - intro Hr. apply process_latched. apply Hiff, Hr.
Qed.

(** C5, as the code has it: a call of [process] never calls the [setup]
    of a charm class whose [name()] is among the service names of the
    snapshot; and when the call returns with a controller machine
    chosen, every such registered class is in the deployed list. *)
Theorem C5_deployed_service_is_not_set_up (js : JujuState) (ms : MaasState)
  (s : ControllerOverlay) (tr : list event) (w : World X) (x : CharmClass) :
  name_in_services js x = true ->
  let r := fst (fst (process X js ms s (mkCtx w tr))) in
  let s' := snd (fst (process X js ms s (mkCtx w tr))) in
  let c' := snd (process X js ms s (mkCtx w tr)) in
  (exists evs,
      trace c' = tr ++ evs
      /\ forall _id f, ~ In (EvCall (Setup x _id) f) evs)
  /\ (reachable X (s, tr) ->
      In x (charm_registry X) ->
      (exists b, r = Ret b) ->
      machine s' <> None ->
      In x (deployed_charm_classes s')).
Proof.
  intro Hname.
  destruct (process X js ms s (mkCtx w tr)) as [[r s'] c'] eqn:H. cbn.
  split.
  - destruct (process_log _ _ _ _ _ _ _ H)
      as (ea & ed & ef & Ht & Hfa & Hsetup & Hnone & Hrel & _).
    exists (ea ++ ed ++ ef). split; [exact Ht|].
    intros _id f Hin.
    apply in_app_or in Hin. destruct Hin as [Hin|Hin].
    { rewrite Forall_forall in Hfa.
      destruct (Hfa _ Hin) as (f' & [He | (cmd & He)]); discriminate. }
    apply in_app_or in Hin. destruct Hin as [Hin|Hin].
    + destruct (machine s') as [m|] eqn:Hm.
      * specialize (Hsetup m eq_refl). rewrite Forall_forall in Hsetup.
        destruct (Hsetup _ Hin) as (y & f' & He & _ & Hn).
        inversion He; subst. congruence.
      * rewrite (Hnone eq_refl) in Hin. destruct Hin.
    + rewrite Forall_forall in Hrel.
      destruct (Hrel _ Hin) as (y & f' & [He|He] & _); discriminate.
  - intros Hreach Hreg (b & ->) Hm.
    pose proof (reachable_invariant _ _ Hreach) as I.
    destruct (done s) eqn:Hd.
    { apply process_inv in H. rewrite Hd in H. destruct H as (_ & -> & _).
      apply (inv_done_deployed X s I Hd), Hreg. }
    apply process_summary in H; [| exact Hd].
    destruct H as (ra & s1 & c1 & ld & lf & evs_d & evs_f
                   & Hacq & Hdep & _ & Hm' & _ & _ & _ & _ & H).
    destruct (acquire_machine_spec js ms _ _ _ _ _ Hacq) as (_ & _ & _ & _ & Hra & _).
    destruct ra as [[|]|e].
    + destruct H as (_ & [H | (Hall & _)]).
      * destruct H as (? & ? & ? & ? & ? & Hc & _). discriminate.
      * rewrite Hdep, Hall. apply in_or_app.
        destruct (in_dec CharmClass_eq_dec x (deployed_charm_classes s)) as [Hi|Hi];
          [left; exact Hi | right; apply undeployed_In; auto].
    + destruct Hra as (_ & Hn). congruence.
    + destruct H as (Hc & _). discriminate.
Qed.

Lemma set_machine_None (s : ControllerOverlay) (t : string) :
  machine s = None -> set_machine None (set_info_text t s) = set_info_text t s.
Proof. destruct s; cbn; intros ->; reflexivity. Qed.

(** C7, as the code has it: in multi-node mode, on an orchestrator with
    no controller machine chosen,
    - with no machine allocated in juju and none in MAAS, [process] sets
      the status text to the PXE-boot message and returns true, calling
      nothing;
    - with none allocated in juju but some in MAAS, [process] sets the
      status text and calls the client's [add_machine] itself, before it
      returns: the call is in the log and has acted on the world when
      [process] ends, and [process] returns true when the client returned
      and raises what the client raised otherwise;
    - with machines allocated in juju, [process] chooses the first whose
      agent state is [started]; when there is none it sets the waiting
      text and returns true, calling nothing. *)
Theorem C7_multi_node_acquisition (js : JujuState) (ms : MaasState)
  (s : ControllerOverlay) (tr : list event) (w : World X) :
  MULTI_SYSTEM X = true ->
  reachable X (s, tr) ->
  machine s = None ->
  let c := mkCtx w tr in
  let allocated := machines_allocated js in
  let maas_allocated := maas_machines_allocated ms in
  (allocated = [] -> maas_allocated = [] ->
   process X js ms s c =
     (Ret true,
      set_info_text ("No machines allocated to juju. " ++
                     "Please pxe boot a machine.")%string s,
      c))
  /\ (allocated = [] -> maas_allocated <> [] ->
      process X js ms s c =
        (match fst (client_add_machine X w) with
         | None => Ret true
         | Some e => Raise e
         end,
         set_info_text "Adding maas machine to juju" s,
         mkCtx (snd (client_add_machine X w))
               (tr ++ [EvCall AddMachine (fst (client_add_machine X w))])))
  /\ (allocated <> [] -> first_started allocated = None ->
      process X js ms s c =
        (Ret true,
         set_info_text ("Waiting for a machine " ++ "to become ready.")%string s,
         c))
  /\ (allocated <> [] ->
      forall m, first_started allocated = Some m ->
                machine (snd (fst (process X js ms s c))) = Some m).
Proof.
  intros Hmulti Hreach Hm. cbn zeta.
  pose proof (reachable_invariant _ _ Hreach) as I.
  destruct (inv_no_machine X s I Hm) as (_ & _ & Hd).
  assert (Hgcm : forall al, al <> [] -> machines_allocated js = al ->
            get_controller_machine X js ms s (mkCtx w tr)
            = get_started_machine X (machines_allocated js) s (mkCtx w tr)).
  { intros al Hal Hjs. unfold get_controller_machine. rewrite Hmulti.
    destruct (machines_allocated js) as [|a l]; [congruence | reflexivity]. }
  repeat apply conj.
  - intros Hal Hmaas.
    unfold process, bind at 1, get at 1. rewrite Hd.
    unfold _process, acquire_machine, bind, get. rewrite Hm.
    unfold get_controller_machine. rewrite Hmulti, Hal, Hmaas. cbn.
    rewrite set_machine_None by exact Hm. reflexivity.
  - intros Hal Hmaas.
    unfold process, bind at 1, get at 1. rewrite Hd.
    unfold _process, acquire_machine, bind, get. rewrite Hm.
    unfold get_controller_machine. rewrite Hmulti, Hal.
    destruct (maas_machines_allocated ms) as [|a l]; [congruence|]. cbn.
    unfold add_machine, call, modify, ret, bind. cbn.
    destruct (client_add_machine X w) as [[e|] w']; cbn.
    + reflexivity.
    + rewrite set_machine_None by exact Hm. reflexivity.
  - intros Hal Hnone.
    unfold process, bind at 1, get at 1. rewrite Hd.
    unfold _process, acquire_machine, bind, get. rewrite Hm.
    rewrite (Hgcm _ Hal eq_refl).
    unfold get_started_machine, bind, modify, ret. unfold first_started in Hnone.
    destruct (filter _ (machines_allocated js)) as [|a l]; [| discriminate]. cbn.
    rewrite set_machine_None by exact Hm. reflexivity.
  - intros Hal m Hsome.
    destruct (process X js ms s (mkCtx w tr)) as [[r s'] c'] eqn:H. cbn.
    apply process_summary in H; [| exact Hd].
    destruct H as (ra & s1 & c1 & ld & lf & evs_d & evs_f
                   & Hacq & _ & _ & Hm' & _).
    rewrite Hm'.
    apply acquire_machine_unchosen in Hacq; [| exact Hm].
    destruct Hacq as (rm & s0 & c0 & Hg & Hacq).
    rewrite (Hgcm _ Hal eq_refl) in Hg.
    apply get_started_machine_spec in Hg. destruct Hg as (-> & -> & Hs0).
    rewrite Hsome in Hacq.
    destruct (SINGLE_SYSTEM X && negb (single_net_configured s0)).
    + destruct Hacq as (rc & s2 & Hc & -> & _).
      apply (configure_lxc_network_spec m) in Hc; [| reflexivity].
      destruct Hc as [(e & _ & -> & _) | [(e & _ & -> & _) | (_ & -> & _)]]; reflexivity.
    + destruct Hacq as (_ & -> & _). reflexivity.
Qed.

Lemma network_log_ext (s t : ControllerOverlay) (tr tr' : list event) :
  machine t = machine s ->
  single_net_configured t = single_net_configured s ->
  filter is_run tr' = filter is_run tr ->
  network_log s tr -> network_log t tr'.
Proof. unfold network_log. intros -> -> ->. auto. Qed.

Lemma setup_events_no_run (js : JujuState) (m : Machine) (l : list CharmClass)
  (evs : list event) :
  Forall (setup_event js m l) evs -> filter is_run evs = [].
Proof.
  induction 1 as [|ev evs (x & f & -> & _) _ IH]; cbn; auto.
Qed.

Lemma relation_events_no_run (js : JujuState) (l : list CharmClass)
  (evs : list event) :
  Forall (relation_event js l) evs -> filter is_run evs = [].
Proof.
  induction 1 as [|ev evs (x & f & [-> | ->] & _) _ IH]; cbn; auto.
Qed.

Lemma network_log_step (js : JujuState) (ms : MaasState) s c r s' c' :
  SINGLE_SYSTEM X = true ->
  network_log s (trace c) ->
  process X js ms s c = (r, s', c') ->
  network_log s' (trace c').
Proof.
  intros Hsingle Hlog H. destruct (done s) eqn:Hd.
  { apply process_inv in H. rewrite Hd in H. destruct H as (_ & -> & ->). exact Hlog. }
  apply process_summary in H; [| exact Hd].
  destruct H as (ra & s1 & c1 & ld & lf & evs_d & evs_f
                 & Hacq & _ & _ & Hm' & Hsnc' & Ht & Hsetup & Hrel & H).
  destruct (acquire_machine_spec js ms _ _ _ _ _ Hacq)
    as (_ & _ & _ & Hch & Hra & evs_a & Hta & _ & _ & Hnet).
  assert (Hd_norun : filter is_run evs_d = []).
  { destruct (machine s1) as [m|] eqn:Hm1.
    - apply (setup_events_no_run js m (undeployed X s)), Hsetup. reflexivity.
    - destruct ra as [[|]|e].
      + destruct Hra as (m & Hc & _). congruence.
      + destruct H as (_ & _ & _ & _ & -> & _). reflexivity.
      + destruct H as (_ & _ & _ & _ & -> & _). reflexivity. }
  pose proof (relation_events_no_run _ _ _ Hrel) as Hf_norun.
  assert (Hrun : filter is_run (trace c')
                 = filter is_run (trace c) ++ filter is_run evs_a).
  { rewrite Ht, Hta, !filter_app, Hd_norun, Hf_norun, !app_nil_r. reflexivity. }
  destruct (machine s) as [m|] eqn:Hm.
  - (* a machine was chosen before: nothing is run *)
    destruct (Hch m eq_refl) as (_ & -> & ->).
    apply (network_log_ext s s' (trace c) (trace c')); auto.
    rewrite Ht, !filter_app, Hd_norun, Hf_norun, !app_nil_r. reflexivity.
  - (* this call may choose one *)
    unfold network_log in Hlog. rewrite Hm in Hlog. destruct Hlog as (Hnone & Hsnc).
    specialize (Hnet eq_refl Hsnc).
    rewrite Hnone in Hrun. cbn in Hrun.
    unfold network_log. rewrite Hm', Hsnc', Hrun.
    destruct (machine s1) as [m|] eqn:Hm1.
    + rewrite Hsingle in Hnet. unfold network_log in Hnet. rewrite Hm1 in Hnet.
      exact Hnet.
    + exact Hnet.
Qed.

(** C8, as the code has it: in single-node mode, at every point of
    every run of one orchestrator, the commands of the network
    reconfiguration found in
    the whole log are: none as long as no controller machine is chosen;
    and once one is chosen, the remote copy to that machine, once,
    followed by the remote command sequence on that machine, once (not
    followed by it when the copy raised) and nothing else, the latch
    being set exactly when both returned.  So the reconfiguration is
    attempted by the call that chooses the machine and by no later call,
    and it is complete only when neither command raised: a command that
    raised is not run again. *)
Theorem C8_network_configured_once (s : ControllerOverlay) (tr : list event) :
  SINGLE_SYSTEM X = true ->
  reachable X (s, tr) ->
  network_log s tr.
Proof.
  intros Hsingle H. unfold reachable, process_calls in H.
  remember (ControllerOverlay_init X, @nil event) as st0 eqn:E0.
  remember (s, tr) as st eqn:E. revert s tr E.
  induction H as [|st1 st2 Hstep Hrt IH]; intros s tr E; subst.
  - inversion E; subst. unfold network_log. cbn. auto.
  - inversion Hstep as [js ms w s1 tr1 r s2 c2 Hp E1 E2]; subst.
    apply (network_log_step js ms s1 (mkCtx w tr1) r); auto.
Qed.

Lemma machine_kept (js : JujuState) (ms : MaasState) s c r s' c' m :
  process X js ms s c = (r, s', c') ->
  machine s = Some m -> machine s' = Some m.
Proof.
  intros H Hm. destruct (done s) eqn:Hd.
  { apply process_inv in H. rewrite Hd in H. destruct H as (_ & -> & _). exact Hm. }
  apply process_summary in H; [| exact Hd].
  destruct H as (ra & s1 & c1 & ld & lf & evs_d & evs_f & Hacq & _ & _ & Hm' & _).
  destruct (acquire_machine_chosen js ms _ _ _ _ _ _ Hm Hacq) as (_ & -> & _).
  congruence.
Qed.

Lemma setup_log_step (js : JujuState) (ms : MaasState) s c r s' c' :
  setup_log s (trace c) ->
  process X js ms s c = (r, s', c') ->
  setup_log s' (trace c').
Proof.
  intros Hlog H x _id f Hin.
  destruct (process_log _ _ _ _ _ _ _ H)
    as (ea & ed & ef & Ht & Hfa & Hsetup & Hnone & Hrel & _).
  rewrite Ht in Hin. apply in_app_or in Hin. destruct Hin as [Hin|Hin].
  { destruct (Hlog _ _ _ Hin) as (m & Hm & ->). exists m. split; auto.
    eapply machine_kept; eauto. }
  apply in_app_or in Hin. destruct Hin as [Hin|Hin].
  { rewrite Forall_forall in Hfa.
    destruct (Hfa _ Hin) as (f' & [He | (cmd & He)]); discriminate. }
  apply in_app_or in Hin. destruct Hin as [Hin|Hin].
  - destruct (machine s') as [m|] eqn:Hm.
    + specialize (Hsetup m eq_refl). rewrite Forall_forall in Hsetup.
      destruct (Hsetup _ Hin) as (y & f' & He & _). inversion He; subst. eauto.
    + rewrite (Hnone eq_refl) in Hin. destruct Hin.
  - rewrite Forall_forall in Hrel.
    destruct (Hrel _ Hin) as (y & f' & [He|He] & _); discriminate.
Qed.

Lemma reachable_setup_log (s : ControllerOverlay) (tr : list event) :
  reachable X (s, tr) -> setup_log s tr.
Proof.
  intro H. unfold reachable, process_calls in H.
  remember (ControllerOverlay_init X, @nil event) as st0 eqn:E0.
  remember (s, tr) as st eqn:E. revert s tr E.
  induction H as [|st1 st2 Hstep Hrt IH]; intros s tr E; subst.
  - inversion E; subst. intros x _id f [].
  - inversion Hstep as [js ms w s1 tr1 r s2 c2 Hp E1 E2]; subst.
    apply (setup_log_step js ms s1 (mkCtx w tr1) r); auto.
Qed.

Lemma process_calls_machine_kept s tr s' tr' m :
  process_calls X (s, tr) (s', tr') ->
  machine s = Some m -> machine s' = Some m.
Proof.
  intros H Hm. remember (s, tr) as a eqn:Ea. remember (s', tr') as b eqn:Eb.
  revert s' tr' Eb.
  induction H as [|y z Hstep Hby IH]; intros s' tr' Eb; subst.
  - inversion Eb; subst. exact Hm.
  - inversion Hstep as [js ms w s1 tr1 r s2 c2 Hp E1 E2]; subst.
    eapply machine_kept; [exact Hp|]. eapply IH. reflexivity.
Qed.

(** C10: once an orchestrator has chosen its controller machine, no
    later call of [process] changes it, whatever the later snapshots
    hold; and every [setup] ever called, in the call that chose the
    machine and in all later ones, is given the container target
    [lxc:<machine_id>] of that machine. *)
Theorem C10_controller_machine_is_kept (s s' : ControllerOverlay)
  (tr tr' : list event) (m : Machine) :
  reachable X (s, tr) ->
  machine s = Some m ->
  process_calls X (s, tr) (s', tr') ->
  machine s' = Some m
  /\ forall x _id f,
      In (EvCall (Setup x _id) f) tr' -> _id = ("lxc:" ++ machine_id m)%string.
Proof.
  intros Hreach Hm Hcalls.
  pose proof (process_calls_machine_kept _ _ _ _ _ Hcalls Hm) as Hm'.
  split; [exact Hm'|].
  intros x _id f Hin.
  assert (Hlog : setup_log s' tr').
  { apply reachable_setup_log. eapply process_calls_trans; eauto. }
  destruct (Hlog _ _ _ Hin) as (m' & Hm'' & ->). congruence.
Qed.

End Facts.

Section GUIFacts.

Variable X : Externals.

(** ** The callback of the poll *)

Lemma same_control_refl g : same_control g g.
Proof. repeat split. Qed.

Lemma same_control_trans g1 g2 g3 :
  same_control g1 g2 -> same_control g2 g3 -> same_control g1 g3.
Proof.
  unfold same_control. intros (A1 & A2 & A3 & A4 & A5 & A6 & A7)
                              (B1 & B2 & B3 & B4 & B5 & B6 & B7).
  repeat split; congruence.
Qed.

Lemma show_unit_urls_spec (i : Unit) g (c : Ctx (World X)) :
  exists g', show_unit_urls X i g c = (Ret tt, g', c) /\ same_control g g'.
Proof.
  unfold show_unit_urls, bind, modify, ret.
  destruct (is_horizon i); [destruct (str_contains _ _)|]; destruct (is_jujugui i);
    eexists; (split; [reflexivity|]); repeat split.
Qed.

Lemma for_each_same_control {A} (body : A -> M (World X) PegasusGUI unit) :
  (forall a g c, exists g', body a g c = (Ret tt, g', c) /\ same_control g g') ->
  forall l g c, exists g', for_each l body g c = (Ret tt, g', c) /\ same_control g g'.
Proof.
  intros Hbody. induction l as [|a l IH]; intros g c.
  - exists g. split; [reflexivity | apply same_control_refl].
  - destruct (Hbody a g c) as (g1 & H1 & S1).
    destruct (IH g1 c) as (g2 & H2 & S2).
    exists g2. split.
    + cbn [for_each]. unfold bind. rewrite H1. exact H2.
    + eapply same_control_trans; eauto.
Qed.

Lemma show_urls_spec (js : JujuState) g (c : Ctx (World X)) :
  exists g', show_urls X js g c = (Ret tt, g', c) /\ same_control g g'.
Proof.
  unfold show_urls.
  apply for_each_same_control. intros n g0 c0.
  apply for_each_same_control. intros i g1 c1. apply show_unit_urls_spec.
Qed.

Local Arguments process : simpl never.

Lemma update_and_redraw_spec (js : JujuState) (ms : MaasState) (ns : list Node)
  g (c : Ctx (World X)) :
  make_nodes (services js) = Ret ns ->
  _target (node_view g) = TControllerOverlay ->
  let p := process X js ms (controller_overlay (node_view g)) c in
  let u := update_and_redraw X (Some (js, ms)) g c in
  controller_overlay (node_view (snd (fst u))) = snd (fst p)
  /\ match fst (fst p) with
     | Ret b =>
         fst (fst u) = Ret tt
         /\ world (snd u) = world (snd p)
         /\ trace (snd u) = trace (snd p) ++ [EvDrawScreen]
         /\ _target (node_view (snd (fst u)))
            = (if b then TControllerOverlay else TNodeViewMode)
     | Raise e => fst (fst u) = Raise e /\ snd u = snd p
     end.
Proof.
  intros Hn Ht. cbn zeta.
  unfold update_and_redraw, do_update, overlay_process, zoom, set_target, of_outcome,
    bind, modify, get, ret, emit.
  cbn. rewrite Hn, Ht. cbn.
  destruct (process X js ms (controller_overlay (node_view g)) c) as [[[b|e] o'] c'] eqn:Hp;
    [| cbn; auto].
  destruct b; cbn.
  - match goal with
    | |- context [show_urls X js ?g0 c'] =>
        destruct (show_urls_spec js g0 c') as (g' & Hl & S); rewrite Hl
    end.
    cbn. destruct S as (S1 & S2 & _). cbn in S1, S2.
    repeat apply conj; auto; congruence.
  - destruct (widget g); cbn;
      match goal with
      | |- context [show_urls X js ?g0 c'] =>
          destruct (show_urls_spec js g0 c') as (g' & Hl & S); rewrite Hl
      end;
      cbn; destruct S as (S1 & S2 & _); cbn in S1, S2;
      repeat apply conj; auto; congruence.
Qed.

Lemma update_and_redraw_done (js : JujuState) (ms : MaasState) (ns : list Node)
  g (c : Ctx (World X)) :
  make_nodes (services js) = Ret ns ->
  done (controller_overlay (node_view g)) = true ->
  let u := update_and_redraw X (Some (js, ms)) g c in
  controller_overlay (node_view (snd (fst u))) = controller_overlay (node_view g)
  /\ fst (fst u) = Ret tt
  /\ snd u = mkCtx (world c) (trace c ++ [EvDrawScreen]).
Proof.
  intros Hn Hd. cbn zeta.
  unfold update_and_redraw, do_update, overlay_process, zoom, set_target, of_outcome,
    process, bind, modify, get, ret, emit.
  cbn. rewrite Hn. cbn.
  destruct (Target_eqb (_target (node_view g)) TControllerOverlay); cbn;
    rewrite ?Hd; cbn.
  - destruct (widget g); cbn;
      match goal with
      | |- context [show_urls X js ?g0 c] =>
          destruct (show_urls_spec js g0 c) as (g' & Hl & S); rewrite Hl
      end;
      cbn; destruct S as (S1 & _); cbn in S1;
      repeat apply conj; auto; destruct g as [[] ? ? ? ?]; cbn in *; congruence.
  - match goal with
    | |- context [show_urls X js ?g0 c] =>
        destruct (show_urls_spec js g0 c) as (g' & Hl & S); rewrite Hl
    end.
    cbn. destruct S as (S1 & _). cbn in S1. repeat apply conj; auto.
Qed.

(** ** The poll timer *)

Lemma tick_spec (g : PegasusGUI) (c : Ctx (World X)) :
  let v := node_view g in
  let shown := if (ticks_left v =? 0)%Z then poll_interval v else ticks_left v in
  let g' := snd (fst (tick X g c)) in
  let c' := snd (tick X g c) in
  fst (fst (tick X g c)) = Ret tt
  /\ ticks_left (node_view g') = (shown - 1)%Z
  /\ timer (node_view g') = ("(Re-poll in " ++ str_of_Z shown ++ " (s))")%string
  /\ (ticks_left v = 0%Z ->
      threads g' = threads g ++ [mkThread FnRefreshStates (next_fd g)]
      /\ pipes g' = mkPipe (next_fd g) CbUpdateAndRedraw None 0 :: pipes g
      /\ trace c' = trace c ++ [EvWatchPipe (next_fd g); EvThreadStart (next_fd g)]
      /\ world c' = world c)
  /\ (ticks_left v <> 0%Z ->
      threads g' = threads g /\ pipes g' = pipes g /\ c' = c).
Proof.
  cbn zeta. unfold tick, run_async, watch_pipe, bind, get, modify, ret, emit.
  destruct (ticks_left (node_view g) =? 0)%Z eqn:Hz; cbn.
  - apply Z.eqb_eq in Hz. repeat apply conj; auto; try congruence;
      try (intros _; rewrite <- app_assoc; auto).
  - apply Z.eqb_neq in Hz. repeat apply conj; auto; try congruence;
      try (intros _; destruct c; auto).
Qed.

Lemma keypress_f5 (g : PegasusGUI) (c : Ctx (World X)) :
  keypress X "f5" g c = (Ret "f5", with_view (set_ticks_left 0) g, c).
Proof. reflexivity. Qed.

(** C9, as the code has it: every [tick] shows the countdown and then
    takes one off it, in a polling and in a non-polling call alike: the
    value left is the value shown minus one.  A [tick] entered with the
    countdown at zero first puts it back to the poll interval and
    launches [run_async] on [refresh_states] (the poll of the state
    provider) with [update_and_redraw] as callback; any other [tick]
    launches nothing.  The callback does not run [process] and redraw
    whatever it is handed: it does when it is handed a polled state
    whose node widgets can be built, the overlay being the view's target
    or the orchestrator done.  It then leaves the orchestrator as
    [process] leaves it, and asks the loop to draw the screen when
    [process] returns; what [process] raises it raises, without asking
    for a redraw.  The key [f5] puts the countdown to zero, so that the
    [tick] after it polls. *)
Theorem C9_tick_counts_down_and_polls (g : PegasusGUI) (c : Ctx (World X)) :
  let v := node_view g in
  let shown := if (ticks_left v =? 0)%Z then poll_interval v else ticks_left v in
  let g' := snd (fst (tick X g c)) in
  let c' := snd (tick X g c) in
  (* the countdown *)
  (fst (fst (tick X g c)) = Ret tt
   /\ timer (node_view g') = ("(Re-poll in " ++ str_of_Z shown ++ " (s))")%string
   /\ ticks_left (node_view g') = (shown - 1)%Z)
  (* the poll *)
  /\ (ticks_left v = 0%Z ->
      threads g' = threads g ++ [mkThread FnRefreshStates (next_fd g)]
      /\ pipes g' = mkPipe (next_fd g) CbUpdateAndRedraw None 0 :: pipes g
      /\ trace c' = trace c ++ [EvWatchPipe (next_fd g); EvThreadStart (next_fd g)])
  /\ (ticks_left v <> 0%Z ->
      threads g' = threads g /\ pipes g' = pipes g /\ c' = c)
  /\ (forall c0, fst (fst (blocking_fn X FnRefreshStates tt c0))
                 = fst (poll_state X (world c0)))
  (* the callback *)
  /\ (forall js ms ns g1 c1,
        make_nodes (services js) = Ret ns ->
        _target (node_view g1) = TControllerOverlay
        \/ done (controller_overlay (node_view g1)) = true ->
        let p := process X js ms (controller_overlay (node_view g1)) c1 in
        let u := callback_fn X CbUpdateAndRedraw (Some (js, ms)) g1 c1 in
        controller_overlay (node_view (snd (fst u))) = snd (fst p)
        /\ (forall b, fst (fst p) = Ret b ->
                      fst (fst u) = Ret tt
                      /\ world (snd u) = world (snd p)
                      /\ trace (snd u) = trace (snd p) ++ [EvDrawScreen])
        /\ (forall e, fst (fst p) = Raise e ->
                      fst (fst u) = Raise e /\ snd u = snd p))
  (* the refresh key *)
  /\ (let g5 := snd (fst (keypress X "f5" g c)) in
      let c5 := snd (keypress X "f5" g c) in
      ticks_left (node_view g5) = 0%Z
      /\ threads (snd (fst (tick X g5 c5)))
         = threads g ++ [mkThread FnRefreshStates (next_fd g)]).
Proof.
  cbn zeta.
  destruct (tick_spec g c) as (T1 & T2 & T3 & T4 & T5). cbn zeta in *.
  repeat apply conj; auto.
  - intro Hz. destruct (T4 Hz) as (A & B & C & _). auto.
  - intro c0. cbn. unfold refresh_states.
    destruct (poll_state X (world c0)) as [[r|e] w']; reflexivity.
  - intros js ms ns g1 c1 Hn [Ht | Hd].
    + destruct (update_and_redraw_spec js ms ns g1 c1 Hn Ht) as (U1 & U2).
      cbn zeta in *. split; [exact U1|]. split.
      * intros b Hb. cbn [callback_fn]. rewrite Hb in U2. tauto.
      * intros e He. cbn [callback_fn]. rewrite He in U2. exact U2.
    + destruct (update_and_redraw_done js ms ns g1 c1 Hn Hd) as (U1 & U2 & U3).
      cbn zeta in *. cbn [callback_fn].
      rewrite (process_latched X _ Hd js ms c1). cbn [fst snd].
      split; [exact U1|]. split.
      * intros b _. rewrite U3. auto.
      * intros e He. discriminate.
Qed.

(** ** The bridge *)

Lemma lookup_pipe_head (fd : nat) (p : Pipe) (g : PegasusGUI) (ps : list Pipe) :
  write_fd p = fd -> pipes g = p :: ps -> lookup_pipe fd g = Some p.
Proof.
  intros Hfd Hp. unfold lookup_pipe. rewrite Hp. cbn. rewrite Hfd, Nat.eqb_refl.
  reflexivity.
Qed.

Lemma find_removed (fd : nat) (ps : list Pipe) :
  find (fun p => Nat.eqb (write_fd p) fd)
       (filter (fun p => negb (Nat.eqb (write_fd p) fd)) ps) = None.
Proof.
  induction ps as [|p ps IH]; cbn; auto.
  destruct (Nat.eqb (write_fd p) fd) eqn:E; cbn; auto. rewrite E. exact IH.
Qed.

(** C6: a bridged call whose blocking function raises.  Before the
    worker has written to the pipe the loop has nothing to hand over.
    The worker catches the exception, logs it, leaves the result cell at
    its initial [None] and writes to the pipe.  The loop then calls the
    callback, once, with that [None]; whether the callback returns or
    raises, the handler returns to the loop (a raising callback is
    logged), and it ends by unwatching and closing the pipe, after which
    the loop has nothing more to hand over for it. *)
Theorem C6_failing_blocking_fn_is_swallowed (f : BlockingFn) (cb : Callback)
  (g : PegasusGUI) (c : Ctx (World X)) (e : exn) :
  let fd := next_fd g in
  let g1 := snd (fst (run_async X f cb g c)) in
  let c1 := snd (run_async X f cb g c) in
  fst (fst (blocking_fn X f tt c1)) = Raise e ->
  let cf := snd (blocking_fn X f tt c1) in
  let g2 := snd (fst (thread_run X (mkThread f fd) g1 c1)) in
  let c2 := snd (thread_run X (mkThread f fd) g1 c1) in
  let called :=
    callback_fn X cb None (update_pipe fd (set_unread 0) g2)
      (mkCtx (world c2) (trace c2 ++ [EvCallback false])) in
  let g3 := snd (fst (loop_read_pipe X fd g2 c2)) in
  let c3 := snd (loop_read_pipe X fd g2 c2) in
  (* started, not yet written *)
  (In (mkThread f fd) (threads g1)
   /\ loop_read_pipe X fd g1 c1 = (Ret tt, g1, c1))
  (* the worker *)
  /\ (fst (fst (thread_run X (mkThread f fd) g1 c1)) = Ret tt
      /\ trace c2 = trace cf ++ [EvLogDebug e; EvWrite fd]
      /\ lookup_pipe fd g2 = Some (mkPipe fd cb None 1))
  (* the loop *)
  /\ (fst (fst (loop_read_pipe X fd g2 c2)) = Ret tt
      /\ trace c3 =
           trace (snd called)
           ++ match fst (fst called) with
              | Ret _ => []
              | Raise e' => [EvLogWarning e']
              end
           ++ [EvRemoveWatchPipe fd; EvClose fd]
      /\ lookup_pipe fd g3 = None
      /\ loop_read_pipe X fd g3 c3 = (Ret tt, g3, c3)).
Proof.
  cbn zeta. intro Hf.
  unfold run_async, watch_pipe, bind, get, modify, ret, emit in *. cbn in *.
  set (c1 := {| world := world c;
                trace := (trace c ++ [EvWatchPipe (next_fd g)])
                         ++ [EvThreadStart (next_fd g)] |}) in *.
  split.
  { split.
    - apply in_or_app. right. left. reflexivity.
    - unfold loop_read_pipe, bind, get, lookup_pipe. cbn.
      rewrite Nat.eqb_refl. cbn. reflexivity. }
  unfold thread_run, run_async_run_f, try_except, bind, zoom, modify, emit. cbn.
  destruct (blocking_fn X f tt c1) as [[[r|e'] u] cf] eqn:Hb; cbn in Hf; [discriminate|].
  inversion Hf; subst e'. cbn.
  unfold update_pipe. cbn. rewrite Nat.eqb_refl. cbn.
  split.
  { repeat apply conj; auto.
    - rewrite <- app_assoc. reflexivity.
    - unfold lookup_pipe. cbn. rewrite Nat.eqb_refl. reflexivity. }
  unfold loop_read_pipe, bind, get, lookup_pipe, modify. cbn.
  rewrite Nat.eqb_refl. cbn.
  unfold run_async_done, try_finally, try_except, remove_watch_pipe,
    bind, get, modify, emit, lookup_pipe, update_pipe. cbn.
  rewrite Nat.eqb_refl. cbn. rewrite Nat.eqb_refl. cbn.
  match goal with
  | |- context [callback_fn X cb None ?ga ?ca] =>
      destruct (callback_fn X cb None ga ca) as [[[[]|e'] g4] c4] eqn:Hc
  end; cbn; rewrite !find_removed, <- !app_assoc; repeat apply conj; reflexivity.
Qed.

End GUIFacts.

(* ================================================================== *)
(** * The claims on the small installation *)

Lemma NoDup_two_charms : NoDup [Demo.keystone; Demo.mysql].
Proof.
  constructor.
  - intros [H | []]. discriminate H.
  - constructor; [intros [] | constructor].
Qed.

Lemma NoDup_one_charm : NoDup [Demo.mysql].
Proof. constructor; [intros [] | constructor]. Qed.

Lemma reachable_init (X : Externals) : reachable X (ControllerOverlay_init X, []).
Proof. apply rtn1_refl. Qed.

Lemma process_calls_one (X : Externals) js ms (w : World X) st :
  process_calls X st (after_call X js ms w st).
Proof.
  eapply rtn1_trans; [| apply rtn1_refl].
  destruct st as [s tr]. apply process_call_run.
Qed.

Lemma reachable_after (X : Externals) js ms (w : World X) st :
  reachable X st -> reachable X (after_call X js ms w st).
Proof.
  intro H. eapply process_calls_trans; [exact H | apply process_calls_one].
Qed.

(** Two charms of priorities 2 and 1 registered in that order, one
    started machine, no service yet: the first call configures the
    network, sets the charms up in priority order and returns true. *)
Example first_call_deploys_in_priority_order :
  let X := Demo.single_node in
  let res := process X Demo.bare_machine Demo.maas_empty
               (ControllerOverlay_init X) Demo.ctx0 in
  fst (fst res) = Ret true
  /\ deployed_charm_classes (snd (fst res)) = [Demo.mysql; Demo.keystone]
  /\ finalized_charm_classes (snd (fst res)) = []
  /\ trace (snd res)
     = [EvCall (Run (scp_command "host1")) None;
        EvCall (Run (ssh_command "host1")) None;
        EvCall (Setup Demo.mysql "lxc:1") None;
        EvCall (Setup Demo.keystone "lxc:1") None].
Proof. cbn zeta. vm_compute. repeat split. Qed.

(** Once both services are up, the next call finalizes both and returns
    false. *)
Example later_call_finalizes_and_ends :
  let X := Demo.single_node in
  let st := after_call X Demo.bare_machine Demo.maas_empty 0
              (ControllerOverlay_init X, []) in
  let res := process X Demo.services_up Demo.maas_empty (fst st) (mkCtx 5 []) in
  fst (fst res) = Ret false
  /\ finalized_charm_classes (snd (fst res)) = [Demo.mysql; Demo.keystone]
  /\ done (snd (fst res)) = true
  /\ trace (snd res)
     = [EvCall (SetRelations Demo.mysql) None; EvCall (PostProc Demo.mysql) None;
        EvCall (SetRelations Demo.keystone) None; EvCall (PostProc Demo.keystone) None].
Proof. cbn zeta. vm_compute. repeat split. Qed.

(** C1 fails as stated: with one charm whose [setup] raises and a
    started machine, [process] raises that exception to its caller and
    the charm is not in the deployed list. *)
Lemma C1_counterexample :
  let X := Demo.failing_setup in
  let res := process X Demo.bare_machine Demo.maas_empty
               (ControllerOverlay_init X) Demo.ctx0 in
  In (EvCall (Setup Demo.mysql "lxc:1") (Some "setup failed")) (trace (snd res))
  /\ fst (fst res) = Raise "setup failed"
  /\ deployed_charm_classes (snd (fst res)) = [].
Proof. cbn zeta. vm_compute. repeat split. left. reflexivity. Qed.

Lemma C1_witness :
  let X := Demo.failing_setup in
  let res := process X Demo.bare_machine Demo.maas_empty
               (ControllerOverlay_init X) (mkCtx 0 []) in
  reachable X (ControllerOverlay_init X, [])
  /\ NoDup (charm_registry X)
  /\ exists evs,
      trace (snd res) = [] ++ evs
      /\ forall k e,
          In (EvCall k (Some e)) evs ->
          fst (fst res) = Raise e
          /\ (exists evs0, evs = evs0 ++ [EvCall k (Some e)])
          /\ (forall x _id, k = Setup x _id ->
                            ~ In x (deployed_charm_classes (snd (fst res))))
          /\ (forall x, k = SetRelations x \/ k = PostProc x ->
                        ~ In x (finalized_charm_classes (snd (fst res)))).
Proof.
  cbn zeta. split; [apply reachable_init|]. split; [exact NoDup_one_charm|].
  destruct (C1_hook_failure_reaches_the_caller Demo.failing_setup
              Demo.bare_machine Demo.maas_empty
              (ControllerOverlay_init Demo.failing_setup) [] 0
              (reachable_init Demo.failing_setup)) as (evs & Ht & Hall).
  exists evs. split; [exact Ht|].
  intros k e Hin. destruct (Hall k e Hin) as (A & B & C).
  split; [exact A|]. split; [exact B|]. exact (C NoDup_one_charm).
Defined.

(** C2 fails as stated: with no charm registered and no machine, the
    finalized list holds every registered class and [process] returns
    true. *)
Lemma C2_counterexample :
  let X := Demo.no_charms in
  let res := process X Demo.no_machines Demo.maas_empty
               (ControllerOverlay_init X) Demo.ctx0 in
  incl (charm_registry X) (finalized_charm_classes (snd (fst res)))
  /\ fst (fst res) = Ret true.
Proof. cbn zeta. split; [intros x [] | reflexivity]. Qed.

Lemma C2_witness :
  let X := Demo.single_node in
  let st := after_call X Demo.bare_machine Demo.maas_empty 0
              (ControllerOverlay_init X, []) in
  let res := process X Demo.services_up Demo.maas_empty (fst st) (mkCtx 5 (snd st)) in
  NoDup (charm_registry X)
  /\ charm_registry X <> []
  /\ reachable X (fst st, snd st)
  /\ (fst (fst res) = Ret false <->
      incl (charm_registry X) (finalized_charm_classes (snd (fst res))))
  /\ (fst (fst res) = Ret false ->
      forall js' ms' (c2 : Ctx (World X)),
        process X js' ms' (snd (fst res)) c2 = (Ret false, snd (fst res), c2)).
Proof.
  cbn zeta.
  assert (R : reachable Demo.single_node
                (after_call Demo.single_node Demo.bare_machine Demo.maas_empty 0
                   (ControllerOverlay_init Demo.single_node, []))).
  { apply reachable_after, reachable_init. }
  split; [exact NoDup_two_charms|]. split; [discriminate|]. split; [exact R|].
  apply (C2_false_iff_all_finalized_then_latched Demo.single_node
           Demo.services_up Demo.maas_empty _ _ 5).
  - exact NoDup_two_charms.
  - discriminate.
  - exact R.
Defined.

Lemma C3_witness :
  let X := Demo.single_node in
  let st := (ControllerOverlay_init X, @nil event) in
  let st' := after_call X Demo.bare_machine Demo.maas_empty 0 st in
  reachable X st
  /\ process_calls X st st'
  /\ (exists ld, deployed_charm_classes (fst st')
                  = deployed_charm_classes (fst st) ++ ld)
  /\ (exists lf, finalized_charm_classes (fst st')
                  = finalized_charm_classes (fst st) ++ lf)
  /\ incl (finalized_charm_classes (fst st')) (deployed_charm_classes (fst st'))
  /\ incl (deployed_charm_classes (fst st')) (charm_registry X).
Proof.
  cbn zeta. split; [apply reachable_init|]. split; [apply process_calls_one|].
  apply (C3_progress_only_grows_and_nests Demo.single_node
           (ControllerOverlay_init Demo.single_node)
           (fst (after_call Demo.single_node Demo.bare_machine Demo.maas_empty 0
                   (ControllerOverlay_init Demo.single_node, [])))
           []
           (snd (after_call Demo.single_node Demo.bare_machine Demo.maas_empty 0
                   (ControllerOverlay_init Demo.single_node, [])))).
  - apply reachable_init.
  - apply (process_calls_one Demo.single_node Demo.bare_machine Demo.maas_empty 0
             (ControllerOverlay_init Demo.single_node, [])).
Defined.

(** C5 fails as stated: with the service of a charm already in the
    snapshot but no started machine to choose, [process] returns true
    and has not put the charm in the deployed list. *)
Lemma C5_counterexample :
  let X := Demo.multi_node in
  let res := process X Demo.services_without_machine Demo.maas_empty
               (ControllerOverlay_init X) Demo.ctx0 in
  In Demo.mysql (charm_registry X)
  /\ name_in_services Demo.services_without_machine Demo.mysql = true
  /\ fst (fst res) = Ret true
  /\ ~ In Demo.mysql (deployed_charm_classes (snd (fst res))).
Proof.
  cbn zeta. repeat split.
  - right. left. reflexivity.
  - intros [].
Qed.

Lemma C5_witness :
  let X := Demo.single_node in
  let res := process X Demo.services_up Demo.maas_empty
               (ControllerOverlay_init X) (mkCtx 0 []) in
  name_in_services Demo.services_up Demo.mysql = true
  /\ (exists evs,
         trace (snd res) = [] ++ evs
         /\ forall _id f, ~ In (EvCall (Setup Demo.mysql _id) f) evs)
  /\ (reachable X (ControllerOverlay_init X, []) ->
      In Demo.mysql (charm_registry X) ->
      (exists b, fst (fst res) = Ret b) ->
      machine (snd (fst res)) <> None ->
      In Demo.mysql (deployed_charm_classes (snd (fst res)))).
Proof.
  cbn zeta. split; [reflexivity|].
  apply (C5_deployed_service_is_not_set_up Demo.single_node
           Demo.services_up Demo.maas_empty
           (ControllerOverlay_init Demo.single_node) [] 0 Demo.mysql).
  reflexivity.
Defined.

Lemma C6_witness :
  let X := Demo.failing_poll in
  let g := PegasusGUI_init X in
  let c := mkCtx 0 [] in
  let fd := next_fd g in
  let g1 := snd (fst (run_async X FnRefreshStates CbUpdateAndRedraw g c)) in
  let c1 := snd (run_async X FnRefreshStates CbUpdateAndRedraw g c) in
  let g2 := snd (fst (thread_run X (mkThread FnRefreshStates fd) g1 c1)) in
  let c2 := snd (thread_run X (mkThread FnRefreshStates fd) g1 c1) in
  fst (fst (blocking_fn X FnRefreshStates tt c1)) = Raise "poll failed"
  /\ fst (fst (thread_run X (mkThread FnRefreshStates fd) g1 c1)) = Ret tt
  /\ lookup_pipe fd g2 = Some (mkPipe fd CbUpdateAndRedraw None 1)
  /\ fst (fst (loop_read_pipe X fd g2 c2)) = Ret tt.
Proof.
  cbn zeta. split; [reflexivity|].
  destruct (C6_failing_blocking_fn_is_swallowed Demo.failing_poll
              FnRefreshStates CbUpdateAndRedraw
              (PegasusGUI_init Demo.failing_poll) (mkCtx 0 []) "poll failed" eq_refl)
    as (_ & (W1 & _ & W3) & (L1 & _)).
  split; [exact W1|]. split; [exact W3 | exact L1].
Defined.

(** C7 fails as stated: with a machine in MAAS and none in juju, the
    client's [add_machine] has been called, and has acted, by the time
    [process] returns, and no thread was started and no pipe watched for
    it. *)
Lemma C7_counterexample :
  let X := Demo.multi_node in
  let res := overlay_process X Demo.no_machines Demo.maas_one
               (PegasusGUI_init X) Demo.ctx0 in
  fst (fst res) = Ret true
  /\ trace (snd res) = [EvCall AddMachine None]
  /\ world (snd res) = 1
  /\ threads (snd (fst res)) = []
  /\ pipes (snd (fst res)) = [].
Proof. cbn zeta. repeat split. Qed.

Lemma C7_witness :
  let X := Demo.multi_node in
  let s := ControllerOverlay_init X in
  MULTI_SYSTEM X = true
  /\ reachable X (s, [])
  /\ machine s = None
  /\ process X Demo.no_machines Demo.maas_one s (mkCtx 0 [])
     = (Ret true, set_info_text "Adding maas machine to juju" s,
        mkCtx 1 [EvCall AddMachine None]).
Proof.
  cbn zeta. split; [reflexivity|]. split; [apply reachable_init|].
  split; [reflexivity|].
  destruct (C7_multi_node_acquisition Demo.multi_node Demo.no_machines Demo.maas_one
              (ControllerOverlay_init Demo.multi_node) [] 0
              eq_refl (reachable_init Demo.multi_node) eq_refl)
    as (_ & H & _).
  apply H; [reflexivity | discriminate].
Defined.

(** C8 fails as stated: with remote commands that raise, the first call
    selects the controller machine and the copy raises; the next call
    deploys and finalizes the charm and ends the work.  The remote
    command sequence was never run, the latch is not set, and nothing is
    left to run it. *)
Lemma C8_counterexample :
  let X := Demo.failing_run in
  let st := after_call X Demo.bare_machine Demo.maas_empty 0
              (ControllerOverlay_init X, []) in
  let st' := after_call X Demo.services_up Demo.maas_empty 1 st in
  SINGLE_SYSTEM X = true
  /\ machine (fst st) = Some Demo.machine1
  /\ done (fst st') = true
  /\ filter is_run (snd st')
     = [EvCall (Run (scp_command "host1")) (Some "run failed")]
  /\ single_net_configured (fst st') = false
  /\ forall js ms (c : Ctx (World X)),
      process X js ms (fst st') c = (Ret false, fst st', c).
Proof.
  cbn zeta. repeat apply conj; vm_compute; reflexivity.
Qed.

Lemma C8_witness :
  let X := Demo.single_node in
  let st := after_call X Demo.bare_machine Demo.maas_empty 0
              (ControllerOverlay_init X, []) in
  let st' := after_call X Demo.services_up Demo.maas_empty 5 st in
  SINGLE_SYSTEM X = true
  /\ reachable X st'
  /\ network_log (fst st') (snd st').
Proof.
  cbn zeta. split; [reflexivity|].
  assert (R : reachable Demo.single_node
                (after_call Demo.single_node Demo.services_up Demo.maas_empty 5
                   (after_call Demo.single_node Demo.bare_machine Demo.maas_empty 0
                      (ControllerOverlay_init Demo.single_node, [])))).
  { apply reachable_after, reachable_after, reachable_init. }
  split; [exact R|].
  apply (C8_network_configured_once Demo.single_node); [reflexivity | exact R].
Defined.

(** C9 fails as stated: the callback of the poll does not always run
    [process] and ask for a redraw.  Handed the [None] of a poll that
    raised, it raises a [TypeError] at once.  Handed a snapshot with a
    unit in error state that carries no detail, it raises while building
    the nodes, before [process] is called (which would have marked the
    charm deployed).  And when [process] raises (here a [setup] that
    fails) it raises too.  In none of the three a redraw is asked
    for. *)
Lemma C9_counterexample :
  let X := Demo.failing_setup in
  let g := PegasusGUI_init X in
  let cb := callback_fn X CbUpdateAndRedraw in
  let no_state := cb None g Demo.ctx0 in
  let no_node := cb (Some (Demo.service_in_error, Demo.maas_empty)) g Demo.ctx0 in
  let no_setup := cb (Some (Demo.bare_machine, Demo.maas_empty)) g Demo.ctx0 in
  (fst (fst no_state) = Raise "TypeError: 'NoneType' object is not iterable"
   /\ snd no_state = Demo.ctx0
   /\ controller_overlay (node_view (snd (fst no_state)))
      = controller_overlay (node_view g))
  /\ (fst (fst no_node)
      = Raise "AttributeError: 'NoneType' object has no attribute 'lstrip'"
      /\ snd no_node = Demo.ctx0
      /\ deployed_charm_classes (controller_overlay (node_view (snd (fst no_node)))) = []
      /\ deployed_charm_classes
           (snd (fst (process X Demo.service_in_error Demo.maas_empty
                        (controller_overlay (node_view g)) Demo.ctx0)))
         = [Demo.mysql])
  /\ (fst (fst no_setup) = Raise "setup failed"
      /\ trace (snd no_setup)
         = [EvCall (Setup Demo.mysql "lxc:1") (Some "setup failed")]).
Proof. cbn zeta. repeat apply conj; vm_compute; reflexivity. Qed.

Lemma C9_witness :
  let X := Demo.single_node in
  let g := PegasusGUI_init X in
  let g' := snd (fst (tick X g Demo.ctx0)) in
  let p := process X Demo.services_up Demo.maas_empty
             (controller_overlay (node_view g)) Demo.ctx0 in
  let u := callback_fn X CbUpdateAndRedraw (Some (Demo.services_up, Demo.maas_empty))
             g Demo.ctx0 in
  ticks_left (node_view g) = 0%Z
  /\ threads g' = threads g ++ [mkThread FnRefreshStates (next_fd g)]
  /\ make_nodes (services Demo.services_up)
     = Ret [mkNode (mkService "mysql" []) []; mkNode (mkService "keystone" []) []]
  /\ _target (node_view g) = TControllerOverlay
  /\ fst (fst p) = Ret false
  /\ fst (fst u) = Ret tt
  /\ trace (snd u) = trace (snd p) ++ [EvDrawScreen].
Proof.
  cbn zeta.
  set (g := PegasusGUI_init Demo.single_node).
  pose proof (C9_tick_counts_down_and_polls Demo.single_node g Demo.ctx0) as T.
  cbv zeta in T. destruct T as (_ & Tpoll & _ & _ & Tcb & _).
  assert (H0 : ticks_left (node_view g) = 0%Z) by reflexivity.
  assert (Hn : make_nodes (services Demo.services_up)
               = Ret [mkNode (mkService "mysql" []) [];
                      mkNode (mkService "keystone" []) []]) by reflexivity.
  assert (Ht : _target (node_view g) = TControllerOverlay) by reflexivity.
  assert (Hp : fst (fst (process Demo.single_node Demo.services_up Demo.maas_empty
                           (controller_overlay (node_view g)) Demo.ctx0)) = Ret false)
    by (vm_compute; reflexivity).
  destruct (Tpoll H0) as (A & _).
  destruct (Tcb Demo.services_up Demo.maas_empty _ g Demo.ctx0 Hn (or_introl Ht))
    as (_ & Tret & _).
  destruct (Tret false Hp) as (B & _ & C).
  exact (conj H0 (conj A (conj Hn (conj Ht (conj Hp (conj B C)))))).
Defined.


Lemma C10_witness :
  let X := Demo.single_node in
  let st := after_call X Demo.bare_machine Demo.maas_empty 0
              (ControllerOverlay_init X, []) in
  let st' := after_call X Demo.no_machines Demo.maas_empty 5 st in
  reachable X st
  /\ machine (fst st) = Some Demo.machine1
  /\ process_calls X st st'
  /\ machine (fst st') = Some Demo.machine1
  /\ forall x _id f,
      In (EvCall (Setup x _id) f) (snd st') ->
      _id = ("lxc:" ++ machine_id Demo.machine1)%string.
Proof.
  cbn zeta.
  assert (R : reachable Demo.single_node
                (after_call Demo.single_node Demo.bare_machine Demo.maas_empty 0
                   (ControllerOverlay_init Demo.single_node, []))).
  { apply reachable_after, reachable_init. }
  split; [exact R|]. split; [reflexivity|]. split; [apply process_calls_one|].
  apply (C10_controller_machine_is_kept Demo.single_node
           (fst (after_call Demo.single_node Demo.bare_machine Demo.maas_empty 0
                   (ControllerOverlay_init Demo.single_node, [])))
           _
           (snd (after_call Demo.single_node Demo.bare_machine Demo.maas_empty 0
                   (ControllerOverlay_init Demo.single_node, [])))
           _ Demo.machine1).
  - exact R.
  - reflexivity.
  - apply (process_calls_one Demo.single_node Demo.no_machines Demo.maas_empty 5).
Defined.

(* ================================================================== *)
(** * More of the file *)

(** ** The orchestrator *)








Section MoreFacts.

Variable X : Externals.







(** X3: once the snapshot has a service for the [charm_name] of every
    registered class, one call of [process] that returns with a
    controller machine chosen ends the work: it returns false, the
    orchestrator is done, and the finalized list is the registry up to
    order. *)
Theorem one_call_completes_once_services_are_up (js : JujuState) (ms : MaasState)
  (s : ControllerOverlay) (tr : list event) (w : World X) (b : bool) :
  let r := fst (fst (process X js ms s (mkCtx w tr))) in
  let s' := snd (fst (process X js ms s (mkCtx w tr))) in
  NoDup (charm_registry X) ->
  reachable X (s, tr) ->
  (forall x, In x (charm_registry X) -> has_service js x = true) ->
  r = Ret b ->
  machine s' <> None ->
  b = false
  /\ done s' = true
  /\ Permutation (finalized_charm_classes s') (charm_registry X).
Proof.
  cbn zeta. intros Hnd Hreach Hsv Hr Hm.
  destruct (process X js ms s (mkCtx w tr)) as [[r s'] c'] eqn:H. cbn in Hr, Hm |- *.
  pose proof (reachable_invariant X _ _ Hreach) as Inv.
  pose proof (invariant_step X js ms _ _ _ _ _ Inv H) as Inv'.
  assert (Hall : incl (charm_registry X) (finalized_charm_classes s')).
  { destruct (done s) eqn:Hd.
    - apply process_inv in H. rewrite Hd in H. destruct H as (_ & -> & _).
      pose proof (inv_done X s Inv Hd) as Hlen.
      apply NoDup_length_incl; [apply (inv_fin_nodup X s Inv Hnd) | lia |].
      eapply incl_tran; [apply (inv_fin_dep X s Inv) | apply (inv_dep_all X s Inv)].
    - apply process_summary in H; [| exact Hd].
      destruct H as (ra & s1 & c1 & ld & lf & evs_d & evs_f
                     & Hacq & Hdep & Hfin & Hm' & _ & _ & _ & _ & H).
      destruct (acquire_machine_spec X js ms _ _ _ _ _ Hacq) as (_ & _ & _ & _ & Hra & _).
      destruct ra as [[|]|e].
      + destruct H as (_ & [H | (Hld & _ & [H | (Hlf & _)])]).
        * destruct H as (? & ? & ? & ? & ? & -> & _). discriminate.
        * destruct H as (? & ? & ? & ? & ? & ? & -> & _). discriminate.
        * intros x Hx. rewrite Hfin, in_app_iff.
          destruct (in_dec CharmClass_eq_dec x (finalized_charm_classes s)) as [Hi|Hi];
            [left; exact Hi | right].
          rewrite Hlf. apply filter_In. split; [| apply Hsv, Hx].
          apply unfinalized_In. split; [| exact Hi].
          cbn. rewrite in_app_iff.
          destruct (in_dec CharmClass_eq_dec x (deployed_charm_classes s)) as [Hj|Hj];
            [left; exact Hj | right].
          rewrite Hld. apply undeployed_In. auto.
      + destruct Hra as (_ & Hn). congruence.
      + destruct H as (-> & _). discriminate. }
  assert (Hsub : incl (finalized_charm_classes s') (charm_registry X)).
  { eapply incl_tran; [apply (inv_fin_dep X s' Inv') | apply (inv_dep_all X s' Inv')]. }
  assert (Hlen : List.length (finalized_charm_classes s') = List.length (charm_registry X)).
  { apply Nat.le_antisymm; apply NoDup_incl_length; auto.
    apply (inv_fin_nodup X s' Inv' Hnd). }
  assert (Hperm : Permutation (finalized_charm_classes s') (charm_registry X)).
  { apply NoDup_Permutation_bis; auto; [apply (inv_fin_nodup X s' Inv' Hnd) | lia]. }
  assert (Hdone : done s' = true).
  { destruct (done s') eqn:Hd'; [reflexivity|].
    destruct (charm_registry X) as [|x0 l0] eqn:Hreg.
    - (* no charm at all: the call that has a machine ends the work *)
      destruct (done s) eqn:Hd.
      + apply process_inv in H. rewrite Hd in H. destruct H as (_ & -> & _). congruence.
      + apply process_summary in H; [| exact Hd].
        destruct H as (ra & s1 & c1 & ld & lf & evs_d & evs_f
                       & Hacq & _ & _ & Hm' & _ & _ & _ & _ & H).
        destruct (acquire_machine_spec X js ms _ _ _ _ _ Hacq) as (_ & _ & _ & _ & Hra & _).
        destruct ra as [[|]|e].
        * destruct H as (_ & [H | (_ & _ & [H | (_ & _ & _ & Hdn)])]).
          -- destruct H as (? & ? & ? & ? & ? & -> & _). discriminate.
          -- destruct H as (? & ? & ? & ? & ? & ? & -> & _). discriminate.
          -- rewrite Hdn, Hreg, Hlen in Hd'. cbn in Hd'. discriminate.
        * destruct Hra as (_ & Hn). congruence.
        * destruct H as (-> & _). discriminate.
    - pose proof (inv_not_done X s' Inv') as Hnot. rewrite Hreg in Hnot.
      specialize (Hnot Hnd ltac:(discriminate) Hd'). lia. }
  repeat apply conj; auto.
  apply (process_done_iff X js ms _ _ _ _ _ H) in Hdone. congruence.
Qed.


(** Induction over the runs of a fresh orchestrator. *)
Lemma reachable_induction (P : ControllerOverlay -> list event -> Prop) :
  P (ControllerOverlay_init X) [] ->
  (forall js ms (w : World X) s tr r s' c',
      P s tr ->
      process X js ms s (mkCtx w tr) = (r, s', c') ->
      P s' (trace c')) ->
  forall s tr, reachable X (s, tr) -> P s tr.
Proof.
  intros Hinit Hstep s tr H. unfold reachable, process_calls in H.
  remember (ControllerOverlay_init X, @nil event) as st0 eqn:E0.
  remember (s, tr) as st eqn:E. revert s tr E.
  induction H as [|st1 st2 Hs Hrt IH]; intros s tr E; subst.
  - inversion E; subst. exact Hinit.
  - inversion Hs as [js ms w s1 tr1 r s2 c2 Hp E1 E2]; subst.
    eapply Hstep; [| exact Hp]. apply IH; reflexivity.
Qed.

Lemma process_without_mode (js : JujuState) (ms : MaasState) s (c : Ctx (World X)) :
  MULTI_SYSTEM X = false ->
  SINGLE_SYSTEM X = false ->
  machine s = None ->
  done s = false ->
  process X js ms s c = (Ret true, s, c).
Proof.
  intros Hmulti Hsingle Hm Hd.
  unfold process, _process, acquire_machine, get_controller_machine, bind, get, modify, ret.
  rewrite Hd, Hm, Hmulti, Hsingle. cbn.
  destruct s; cbn in *. subst. reflexivity.
Qed.

(** X4: with neither [MULTI_SYSTEM] nor [SINGLE_SYSTEM] set the
    orchestrator never gets anywhere: after any number of calls it is
    still as [__init__] left it, nothing was called, and every call
    returns true (keep polling) without touching the orchestrator, the
    world or the log. *)
Theorem no_mode_nothing_happens (s : ControllerOverlay) (tr : list event) :
  MULTI_SYSTEM X = false ->
  SINGLE_SYSTEM X = false ->
  reachable X (s, tr) ->
  s = ControllerOverlay_init X /\ tr = []
  /\ forall js ms (c : Ctx (World X)), process X js ms s c = (Ret true, s, c).
Proof.
  intros Hmulti Hsingle Hreach.
  assert (Hinit : s = ControllerOverlay_init X /\ tr = []).
  { revert s tr Hreach. apply reachable_induction; [auto|].
    intros js ms w s tr r s' c' (-> & ->) H.
    rewrite (process_without_mode js ms) in H; auto.
    inversion H; subst. auto. }
  destruct Hinit as (-> & ->). repeat apply conj; auto.
  intros js ms c. apply process_without_mode; auto.
Qed.

Lemma add_machine_app (evs1 evs2 : list event) :
  filter is_add_machine (evs1 ++ evs2)
  = filter is_add_machine evs1 ++ filter is_add_machine evs2.
Proof. apply filter_app. Qed.

Lemma setup_events_no_add_machine (js : JujuState) (m : Machine) (l : list CharmClass)
  (evs : list event) :
  Forall (setup_event js m l) evs -> filter is_add_machine evs = [].
Proof.
  induction 1 as [|ev evs (x & f & -> & _) _ IH]; cbn; auto.
Qed.

Lemma relation_events_no_add_machine (js : JujuState) (l : list CharmClass)
  (evs : list event) :
  Forall (relation_event js l) evs -> filter is_add_machine evs = [].
Proof.
  induction 1 as [|ev evs (x & f & [-> | ->] & _) _ IH]; cbn; auto.
Qed.

(** Outside multi-node mode the acquisition block does not call the
    client. *)
Lemma acquire_machine_single (js : JujuState) (ms : MaasState) s c ra s1 c1 :
  MULTI_SYSTEM X = false ->
  acquire_machine X js ms s c = (ra, s1, c1) ->
  exists evs, trace c1 = trace c ++ evs /\ filter is_add_machine evs = [].
Proof.
  intros Hmulti H. destruct (machine s) as [m|] eqn:Hm.
  - destruct (acquire_machine_chosen X js ms _ _ _ _ _ _ Hm H) as (_ & _ & ->).
    exists []. rewrite app_nil_r. auto.
  - apply acquire_machine_unchosen in H; [| exact Hm].
    destruct H as (rm & s0 & c0 & Hg & H).
    assert (Hc0 : c0 = c).
    { unfold get_controller_machine in Hg. rewrite Hmulti in Hg.
      destruct (SINGLE_SYSTEM X).
      - apply get_started_machine_spec in Hg. tauto.
      - inversion Hg; reflexivity. }
    subst c0.
    destruct rm as [[m|]|e].
    + destruct (SINGLE_SYSTEM X && negb (single_net_configured s0)).
      * destruct H as (rc & s2 & Hn & _ & _).
        apply (configure_lxc_network_spec X m) in Hn; [| destruct s0; reflexivity].
        destruct Hn as [(e & _ & _ & Ht) | [(e & _ & _ & Ht) | (_ & _ & Ht)]];
          rewrite Ht; eexists; split; reflexivity.
      * destruct H as (_ & _ & ->). exists []. rewrite app_nil_r. auto.
    + destruct H as (_ & _ & ->). exists []. rewrite app_nil_r. auto.
    + destruct H as (_ & _ & ->). exists []. rewrite app_nil_r. auto.
Qed.

(** X6: outside multi-node mode no call of [process] ever calls the
    client's [add_machine]. *)
Theorem single_node_never_adds_a_machine (s : ControllerOverlay) (tr : list event) :
  MULTI_SYSTEM X = false ->
  reachable X (s, tr) ->
  filter is_add_machine tr = [].
Proof.
  intros Hmulti Hreach. revert s tr Hreach.
  apply reachable_induction; [reflexivity|].
  - intros js ms w s1 tr1 r s' c' IH H.
    destruct (done s1) eqn:Hd.
    { apply process_inv in H. rewrite Hd in H. destruct H as (_ & _ & ->). exact IH. }
    apply process_summary in H; [| exact Hd].
    destruct H as (ra & s2 & c2 & ld & lf & evs_d & evs_f
                   & Hacq & _ & _ & Hm' & _ & Ht & Hsetup & Hrel & H).
    destruct (acquire_machine_single js ms _ _ _ _ _ Hmulti Hacq) as (evs_a & Hta & Hna).
    assert (Hnd : filter is_add_machine evs_d = []).
    { destruct (machine s2) as [m|] eqn:Hm2.
      - apply (setup_events_no_add_machine js m (undeployed X s1)), Hsetup. reflexivity.
      - destruct (acquire_machine_spec X js ms _ _ _ _ _ Hacq)
          as (_ & _ & _ & _ & Hra & _).
        destruct ra as [[|]|e].
        + destruct Hra as (m & Hc & _). congruence.
        + destruct H as (_ & _ & _ & _ & -> & _). reflexivity.
        + destruct H as (_ & _ & _ & _ & -> & _). reflexivity. }
    rewrite Ht, Hta. cbn [trace].
    rewrite !add_machine_app, IH, Hna, Hnd,
      (relation_events_no_add_machine _ _ _ Hrel). reflexivity.
Qed.

(** X5: outside single-node mode no call of [process] ever runs a
    command through [utils._run], and the latch [single_net_configured]
    stays false. *)
Theorem multi_node_never_reconfigures_the_network (s : ControllerOverlay)
  (tr : list event) :
  SINGLE_SYSTEM X = false ->
  reachable X (s, tr) ->
  filter is_run tr = [] /\ single_net_configured s = false.
Proof.
  intros Hsingle Hreach. revert s tr Hreach.
  apply reachable_induction; [cbn; auto|].
  - intros js ms w s1 tr1 r s' c' (IHrun & IHsnc) H.
    destruct (done s1) eqn:Hd.
    { apply process_inv in H. rewrite Hd in H. destruct H as (_ & -> & ->). auto. }
    apply process_summary in H; [| exact Hd].
    destruct H as (ra & s2 & c2 & ld & lf & evs_d & evs_f
                   & Hacq & _ & _ & Hm' & Hsnc' & Ht & Hsetup & Hrel & H).
    destruct (acquire_machine_spec X js ms _ _ _ _ _ Hacq)
      as (_ & _ & _ & Hch & Hra & evs_a & Hta & _ & _ & Hnet).
    assert (Hnd : filter is_run evs_d = []).
    { destruct (machine s2) as [m|] eqn:Hm2.
      - apply (setup_events_no_run js m (undeployed X s1)), Hsetup. reflexivity.
      - destruct ra as [[|]|e].
        + destruct Hra as (m & Hc & _). congruence.
        + destruct H as (_ & _ & _ & _ & -> & _). reflexivity.
        + destruct H as (_ & _ & _ & _ & -> & _). reflexivity. }
    assert (Hacq' : filter is_run evs_a = [] /\ single_net_configured s2 = false).
    { destruct (machine s1) as [m|] eqn:Hm1.
      - destruct (Hch m eq_refl) as (_ & -> & Hc). rewrite Hc in Hta.
        cbn [trace] in Hta. rewrite <- (app_nil_r tr1) in Hta at 1.
        apply app_inv_head in Hta. subst evs_a. auto.
      - specialize (Hnet eq_refl IHsnc). rewrite Hsingle in Hnet.
        destruct (machine s2); exact Hnet. }
    destruct Hacq' as (Hna & Hs2).
    rewrite Ht, Hta. cbn [trace].
    rewrite !filter_app, IHrun, Hna, Hnd, (relation_events_no_run _ _ _ Hrel).
    split; [reflexivity | congruence].
Qed.

Lemma process_adds_a_machine (js : JujuState) (ms : MaasState) s (c : Ctx (World X)) :
  MULTI_SYSTEM X = true ->
  machine s = None ->
  done s = false ->
  machines_allocated js = [] ->
  maas_machines_allocated ms <> [] ->
  let res := process X js ms s c in
  machine (snd (fst res)) = None
  /\ done (snd (fst res)) = false
  /\ exists f, trace (snd res) = trace c ++ [EvCall AddMachine f].
Proof.
  intros Hmulti Hm Hd Hj Hmaas. cbn zeta.
  unfold process, _process, acquire_machine, get_controller_machine, add_machine,
    bind, get, modify, ret, call.
  rewrite Hd, Hm, Hmulti, Hj. cbn.
  destruct (maas_machines_allocated ms) as [|m0 l0]; [congruence|]. cbn.
  destruct (client_add_machine X (world c)) as [[e|] w']; cbn;
    repeat apply conj; auto; eexists; reflexivity.
Qed.

(** X7: in multi-node mode, as long as the polled snapshots show no
    machine allocated in juju and some machine in MAAS, every call of
    [process] calls the client's [add_machine] again, whether the
    earlier calls returned or raised: [n] such polls make [n] calls and
    nothing else, and leave the orchestrator without a machine. *)
Theorem add_machine_is_repeated_every_call (snapshots : list PollResult)
  (s : ControllerOverlay) (c : Ctx (World X)) :
  MULTI_SYSTEM X = true ->
  machine s = None ->
  done s = false ->
  Forall (fun p => machines_allocated (fst p) = []
                   /\ maas_machines_allocated (snd p) <> []) snapshots ->
  let s' := fst (run_calls X snapshots s c) in
  let c' := snd (run_calls X snapshots s c) in
  machine s' = None
  /\ exists evs,
      trace c' = trace c ++ evs
      /\ List.length evs = List.length snapshots
      /\ forall ev, In ev evs -> exists f, ev = EvCall AddMachine f.
Proof.
  intros Hmulti Hm Hd Hall. cbn zeta. revert s c Hm Hd.
  induction Hall as [|[js ms] rest (Hj & Hmaas) _ IH]; intros s c Hm Hd.
  - cbn. split; auto. exists []. rewrite app_nil_r. repeat apply conj; auto.
    intros ev [].
  - cbn [run_calls]. cbn [fst snd] in Hj, Hmaas.
    destruct (process_adds_a_machine js ms s c Hmulti Hm Hd Hj Hmaas)
      as (Hm1 & Hd1 & f & Ht1).
    destruct (IH _ (snd (process X js ms s c)) Hm1 Hd1) as (Hm2 & evs & Ht & Hlen & Hev).
    split; [exact Hm2|].
    exists (EvCall AddMachine f :: evs). rewrite Ht, Ht1, <- app_assoc.
    repeat apply conj; auto.
    + cbn. rewrite Hlen. reflexivity.
    + intros ev [<- | Hin]; eauto.
Qed.

End MoreFacts.

(** ** The callback of the poll, the bridge and the poll timer *)

Lemma same_but_texts_refl g : same_but_texts g g.
Proof.
  exists (status_info (node_view g)), (horizon_url (node_view g)),
         (jujugui_url (node_view g)).
  destruct g as [[] ? ? ? ?]; reflexivity.
Qed.

Lemma same_but_texts_trans g1 g2 g3 :
  same_but_texts g1 g2 -> same_but_texts g2 g3 -> same_but_texts g1 g3.
Proof.
  intros (a & b & d & ->) (a' & b' & d' & ->). exists a', b', d'. reflexivity.
Qed.

Lemma make_nodes_services (ss : list Service) (ns : list Node) :
  make_nodes ss = Ret ns -> map node_service ns = ss.
Proof.
  revert ns. induction ss as [|s ss IH]; intros ns H; cbn in H.
  - inversion H. reflexivity.
  - unfold Node_init in H. destruct (unit_infos (units s)) as [infos|e]; [| discriminate].
    destruct (make_nodes ss) as [ns'|e]; [| discriminate].
    inversion H. cbn. rewrite (IH ns' eq_refl). reflexivity.
Qed.

(** Building the nodes fails exactly on a unit in error state that
    carries no detail. *)
Lemma unit_infos_raises (us : list Unit) :
  (exists e, unit_infos us = Raise e)
  <-> exists u, In u us /\ str_contains "error" (unit_agent_state u) = true
                /\ agent_state_info u = None.
Proof.
  induction us as [|u us IH]; cbn.
  - split; [intros (e & H); discriminate | intros (u & [] & _)].
  - unfold unit_info_text.
    destruct (str_contains "error" (unit_agent_state u)) eqn:Herr.
    + destruct (agent_state_info u) as [d|] eqn:Hd.
      * destruct (unit_infos us) as [infos|e'].
        -- split; [intros (e & H); discriminate|].
           intros (u' & [<- | Hin] & He & Hn); [congruence|].
           destruct (proj2 IH (ex_intro _ u' (conj Hin (conj He Hn)))) as (e & H).
           discriminate.
        -- split; [intros _ | intros _; eauto].
           destruct (proj1 IH (ex_intro _ e' eq_refl)) as (u' & Hin & H').
           exists u'. auto.
      * split; [intros _; exists u; auto | intros _; eauto].
    + destruct (unit_infos us) as [infos|e'].
      * split; [intros (e & H); discriminate|].
        intros (u' & [<- | Hin] & He & Hn); [congruence|].
        destruct (proj2 IH (ex_intro _ u' (conj Hin (conj He Hn)))) as (e & H).
        discriminate.
      * split; [intros _ | intros _; eauto].
        destruct (proj1 IH (ex_intro _ e' eq_refl)) as (u' & Hin & H').
        exists u'. auto.
Qed.

Lemma make_nodes_raises (ss : list Service) :
  (exists e, make_nodes ss = Raise e)
  <-> exists s u, In s ss /\ In u (units s)
                  /\ str_contains "error" (unit_agent_state u) = true
                  /\ agent_state_info u = None.
Proof.
  induction ss as [|s ss IH]; cbn.
  - split; [intros (e & H); discriminate | intros (s & u & [] & _)].
  - unfold Node_init.
    destruct (unit_infos (units s)) as [infos|e0] eqn:Hu.
    + destruct (make_nodes ss) as [ns|e'].
      * split; [intros (e & H); discriminate|].
        intros (s' & u & [<- | Hin] & Hu' & He & Hn).
        -- assert (Hr : exists e, unit_infos (units s) = Raise e).
           { apply unit_infos_raises. eauto. }
           destruct Hr as (e & Hr). congruence.
        -- destruct (proj2 IH (ex_intro _ s' (ex_intro _ u
                                  (conj Hin (conj Hu' (conj He Hn)))))) as (e & H).
           discriminate.
      * split; [intros _ | intros _; eauto].
        destruct (proj1 IH (ex_intro _ e' eq_refl)) as (s' & u & Hin & H').
        exists s', u. auto.
    + split; [intros _ | intros _; eauto].
      destruct (proj1 (unit_infos_raises (units s)) (ex_intro _ e0 Hu))
        as (u & Hin & H').
      exists s, u. auto.
Qed.

Section GUIMore.

Variable X : Externals.

Lemma show_unit_urls_texts (i : Unit) g (c : Ctx (World X)) :
  exists g', show_unit_urls X i g c = (Ret tt, g', c) /\ same_but_texts g g'.
Proof.
  unfold show_unit_urls, bind, modify, ret.
  destruct (is_horizon i); [destruct (str_contains _ _)|]; destruct (is_jujugui i);
    eexists; (split; [reflexivity|]);
    match goal with
    | |- same_but_texts _ ?g' =>
        exists (status_info (node_view g')), (horizon_url (node_view g')),
               (jujugui_url (node_view g'))
    end;
    destruct g as [[] ? ? ? ?]; reflexivity.
Qed.

Lemma for_each_texts {A} (body : A -> M (World X) PegasusGUI unit) :
  (forall a g c, exists g', body a g c = (Ret tt, g', c) /\ same_but_texts g g') ->
  forall l g c, exists g', for_each l body g c = (Ret tt, g', c) /\ same_but_texts g g'.
Proof.
  intros Hbody. induction l as [|a l IH]; intros g c.
  - exists g. split; [reflexivity | apply same_but_texts_refl].
  - destruct (Hbody a g c) as (g1 & H1 & S1).
    destruct (IH g1 c) as (g2 & H2 & S2).
    exists g2. split.
    + cbn [for_each]. unfold bind. rewrite H1. exact H2.
    + eapply same_but_texts_trans; eauto.
Qed.

Lemma show_urls_texts (js : JujuState) g (c : Ctx (World X)) :
  exists g', show_urls X js g c = (Ret tt, g', c) /\ same_but_texts g g'.
Proof.
  unfold show_urls.
  apply for_each_texts. intros n g0 c0.
  apply for_each_texts. intros i g1 c1. apply show_unit_urls_texts.
Qed.

Local Arguments process : simpl never.

(** X11: once the view targets itself, the callback of a poll, handed
    a snapshot whose node widgets can be built, leaves the orchestrator
    alone: it makes no external call, stores the polled states, replaces
    the node list by the nodes built for the services of the snapshot
    and asks for one redraw; the widget on display, the pipes, the
    threads and the countdown are untouched. *)
Theorem after_completion_the_callback_only_redraws (js : JujuState) (ms : MaasState)
  (ns : list Node) (g : PegasusGUI) (c : Ctx (World X)) :
  make_nodes (services js) = Ret ns ->
  _target (node_view g) = TNodeViewMode ->
  let u := update_and_redraw X (Some (js, ms)) g c in
  let g' := snd (fst u) in
  fst (fst u) = Ret tt
  /\ snd u = mkCtx (world c) (trace c ++ [EvDrawScreen])
  /\ controller_overlay (node_view g') = controller_overlay (node_view g)
  /\ nodes (node_view g') = ns
  /\ map node_service ns = services js
  /\ nv_juju_state (node_view g') = Some js
  /\ nv_maas_state (node_view g') = Some ms
  /\ _target (node_view g') = TNodeViewMode
  /\ widget g' = widget g
  /\ pipes g' = pipes g /\ threads g' = threads g
  /\ ticks_left (node_view g') = ticks_left (node_view g).
Proof.
  intros Hn Ht. cbn zeta.
  unfold update_and_redraw, do_update, of_outcome, bind, modify, get, ret, emit.
  cbn. rewrite Hn, Ht. cbn.
  match goal with
  | |- context [show_urls X js ?g0 c] =>
      destruct (show_urls_texts js g0 c) as (g' & Hl & (a & b & d & ->)); rewrite Hl
  end.
  cbn. rewrite Ht. repeat apply conj; try reflexivity.
  apply make_nodes_services, Hn.
Qed.

(** X12: what the callback of a poll, handed a snapshot whose node
    widgets can be built, does to the view when [process] returns.  On
    true the target and the widget on display stay as they are.  On
    false the target becomes the node view, and the node view is put on
    display unless the console or the lock screen is shown, which stay;
    the orchestrator is done exactly in that case.  Either way the node
    list is replaced by the nodes built for the snapshot. *)
Theorem completion_switches_the_view (js : JujuState) (ms : MaasState)
  (ns : list Node) (g : PegasusGUI) (c : Ctx (World X)) (b : bool) :
  make_nodes (services js) = Ret ns ->
  _target (node_view g) = TControllerOverlay ->
  fst (fst (process X js ms (controller_overlay (node_view g)) c)) = Ret b ->
  let g' := snd (fst (update_and_redraw X (Some (js, ms)) g c)) in
  _target (node_view g') = (if b then TControllerOverlay else TNodeViewMode)
  /\ widget g' = (if b then widget g
                  else match widget g with
                       | WConsoleMode => WConsoleMode
                       | WLockScreen => WLockScreen
                       | _ => WNodeViewMode
                       end)
  /\ done (controller_overlay (node_view g')) = negb b
  /\ nodes (node_view g') = ns.
Proof.
  intros Hn Ht Hb. cbn zeta.
  pose proof (process_done_iff X js ms (controller_overlay (node_view g)) c) as Hdone.
  unfold update_and_redraw, do_update, overlay_process, zoom, set_target, of_outcome,
    bind, modify, get, ret, emit.
  cbn. rewrite Hn, Ht. cbn.
  destruct (process X js ms (controller_overlay (node_view g)) c) as [[r o'] c'] eqn:Hp.
  cbn in Hb. subst r. specialize (Hdone _ _ _ eq_refl).
  assert (Hd : done o' = negb b).
  { destruct b; cbn.
    - destruct (done o'); [| reflexivity].
      assert (Ret true = Ret false) by (apply Hdone; reflexivity). discriminate.
    - apply Hdone. reflexivity. }
  destruct b; cbn.
  - match goal with
    | |- context [show_urls X js ?g0 c'] =>
        destruct (show_urls_texts js g0 c') as (g' & Hl & (a & b & d & ->)); rewrite Hl
    end.
    cbn. rewrite Ht. repeat apply conj; auto.
  - destruct (widget g) eqn:Hw; cbn;
      match goal with
      | |- context [show_urls X js ?g0 c'] =>
          destruct (show_urls_texts js g0 c') as (g' & Hl & (a & b & d & ->)); rewrite Hl
      end; cbn; repeat apply conj; auto.
Qed.


(** X24: a snapshot with a unit in error state that carries no error
    detail stops the callback of a poll before it reaches the
    orchestrator.  Building the node of that unit's service raises, so
    [process] is not called: nothing is called or logged, the
    orchestrator, the node list, the target and the widget on display
    stay as they were, and no redraw is asked for; only the status text
    and the stored states were written.  No deployment progress is made
    on such a snapshot. *)
Theorem node_without_error_detail_stops_the_callback (js : JujuState)
  (ms : MaasState) (g : PegasusGUI) (c : Ctx (World X)) (s : Service) (u : Unit) :
  In s (services js) ->
  In u (units s) ->
  str_contains "error" (unit_agent_state u) = true ->
  agent_state_info u = None ->
  let res := update_and_redraw X (Some (js, ms)) g c in
  let g' := snd (fst res) in
  (exists e, fst (fst res) = Raise e)
  /\ snd res = c
  /\ controller_overlay (node_view g') = controller_overlay (node_view g)
  /\ nodes (node_view g') = nodes (node_view g)
  /\ _target (node_view g') = _target (node_view g)
  /\ widget g' = widget g
  /\ nv_juju_state (node_view g') = Some js.
Proof.
  intros Hs Hu Herr Hnone. cbn zeta.
  destruct (proj2 (make_nodes_raises (services js))
              (ex_intro _ s (ex_intro _ u (conj Hs (conj Hu (conj Herr Hnone))))))
    as (e & He).
  unfold update_and_redraw, do_update, of_outcome, bind, modify, get, ret, emit.
  cbn. rewrite He. cbn.
  repeat apply conj; try reflexivity. exists e. reflexivity.
Qed.

(** X8: a bridged call whose blocking function returns.  The worker
    stores the result in the cell of the call and writes to the pipe,
    logging nothing else; the loop then calls the callback, once, with
    that result; whether the callback returns or raises, the handler
    returns to the loop (a raising callback is logged), and it ends by
    unwatching and closing the pipe, after which the loop has nothing
    more to hand over for it. *)
Theorem bridge_hands_the_result_to_the_callback (f : BlockingFn) (cb : Callback)
  (g : PegasusGUI) (c : Ctx (World X)) (r : PollResult) :
  let fd := next_fd g in
  let g1 := snd (fst (run_async X f cb g c)) in
  let c1 := snd (run_async X f cb g c) in
  fst (fst (blocking_fn X f tt c1)) = Ret r ->
  let cf := snd (blocking_fn X f tt c1) in
  let g2 := snd (fst (thread_run X (mkThread f fd) g1 c1)) in
  let c2 := snd (thread_run X (mkThread f fd) g1 c1) in
  let called :=
    callback_fn X cb (Some r) (update_pipe fd (set_unread 0) g2)
      (mkCtx (world c2) (trace c2 ++ [EvCallback true])) in
  let g3 := snd (fst (loop_read_pipe X fd g2 c2)) in
  let c3 := snd (loop_read_pipe X fd g2 c2) in
  (* the worker *)
  (fst (fst (thread_run X (mkThread f fd) g1 c1)) = Ret tt
   /\ c2 = mkCtx (world cf) (trace cf ++ [EvWrite fd])
   /\ lookup_pipe fd g2 = Some (mkPipe fd cb (Some r) 1))
  (* the loop *)
  /\ (fst (fst (loop_read_pipe X fd g2 c2)) = Ret tt
      /\ trace c3 =
           trace (snd called)
           ++ match fst (fst called) with
              | Ret _ => []
              | Raise e' => [EvLogWarning e']
              end
           ++ [EvRemoveWatchPipe fd; EvClose fd]
      /\ world c3 = world (snd called)
      /\ lookup_pipe fd g3 = None
      /\ loop_read_pipe X fd g3 c3 = (Ret tt, g3, c3)).
Proof.
  cbn zeta. intro Hf.
  unfold run_async, watch_pipe, bind, get, modify, ret, emit in *. cbn in *.
  set (c1 := {| world := world c;
                trace := (trace c ++ [EvWatchPipe (next_fd g)])
                         ++ [EvThreadStart (next_fd g)] |}) in *.
  unfold thread_run, run_async_run_f, try_except, bind, zoom, modify, emit. cbn.
  destruct (blocking_fn X f tt c1) as [[[r'|e'] u] cf] eqn:Hb; cbn in Hf; [| discriminate].
  inversion Hf; subst r'. cbn.
  unfold update_pipe. cbn. rewrite Nat.eqb_refl. cbn.
  rewrite Nat.eqb_refl. unfold set_unread, set_result_res. cbn.
  split.
  { repeat apply conj; auto.
    unfold lookup_pipe. cbn. rewrite Nat.eqb_refl. reflexivity. }
  unfold loop_read_pipe, bind, get, lookup_pipe, modify. cbn.
  rewrite Nat.eqb_refl. cbn.
  unfold run_async_done, try_finally, try_except, remove_watch_pipe,
    bind, get, modify, emit, lookup_pipe, update_pipe. cbn.
  rewrite Nat.eqb_refl. cbn. rewrite Nat.eqb_refl. cbn.
  match goal with
  | |- context [callback_fn X cb (Some r) ?ga ?ca] =>
      destruct (callback_fn X cb (Some r) ga ca) as [[[[]|e'] g4] c4] eqn:Hc
  end; cbn; rewrite !find_removed, <- !app_assoc; repeat apply conj; reflexivity.
Qed.

(** X9: a poll that fails, from the tick that launches it to the end
    of its callback.  The exception of [poll_state] is logged by the
    worker, [update_and_redraw] is called with [None] and raises a
    [TypeError] that the bridge logs; the loop gets no exception, the
    screen is not redrawn, and the orchestrator, the node list, the
    target and the widget on display are as before; only the status
    text says that polling is going on, and the countdown was
    restarted. *)
Theorem failed_poll_changes_nothing (g : PegasusGUI) (c : Ctx (World X))
  (e : exn) (w' : World X) :
  ticks_left (node_view g) = 0%Z ->
  poll_state X (world c) = (Raise e, w') ->
  let fd := next_fd g in
  let polled :=
    (tick X ;;; thread_run X (mkThread FnRefreshStates fd) ;;; loop_read_pipe X fd) g c in
  let g' := snd (fst polled) in
  fst (fst polled) = Ret tt
  /\ snd polled =
       mkCtx w'
         (trace c ++ [EvWatchPipe fd; EvThreadStart fd; EvCall PollState (Some e);
                      EvLogDebug e; EvWrite fd; EvCallback false;
                      EvLogWarning "TypeError: 'NoneType' object is not iterable";
                      EvRemoveWatchPipe fd; EvClose fd])
  /\ controller_overlay (node_view g') = controller_overlay (node_view g)
  /\ nodes (node_view g') = nodes (node_view g)
  /\ _target (node_view g') = _target (node_view g)
  /\ widget g' = widget g
  /\ lookup_pipe fd g' = None
  /\ status_info (node_view g') = "[INFO] Polling node availability"
  /\ ticks_left (node_view g') = (poll_interval (node_view g) - 1)%Z.
Proof.
  intros Hz Hpoll. cbn zeta.
  unfold tick, run_async, thread_run, run_async_run_f, loop_read_pipe, watch_pipe,
    bind, get, modify, ret, emit.
  rewrite Hz. cbn. unfold try_except, zoom, refresh_states. cbn. rewrite Hpoll. cbn.
  unfold lookup_pipe, update_pipe. cbn. rewrite !Nat.eqb_refl. cbn.
  rewrite !Nat.eqb_refl. cbn.
  unfold run_async_done, try_finally, try_except, remove_watch_pipe, update_and_redraw,
    lookup_pipe, bind, get, modify, ret, emit, raise.
  cbn. rewrite !Nat.eqb_refl. cbn.
  rewrite <- !app_assoc. cbn.
  repeat apply conj; try reflexivity.
  unfold lookup_pipe. cbn. rewrite Nat.eqb_refl. cbn. apply find_removed.
Qed.


(** X10: an exception that [process] raises inside the callback of a
    poll (a charm hook, the client or a command failed), on a snapshot
    whose node widgets can be built, does not reach the loop: the bridge
    logs it as a warning and unwatches and closes the pipe.  The
    orchestrator is as [process] left it, the view still targets the
    overlay, and neither the node list is replaced nor the screen
    redrawn. *)
Theorem hook_failure_is_logged_by_the_bridge (js : JujuState) (ms : MaasState)
  (ns : list Node) (g : PegasusGUI) (c : Ctx (World X)) (fd : nat) (p : Pipe)
  (e : exn) :
  make_nodes (services js) = Ret ns ->
  lookup_pipe fd g = Some p ->
  result_res p = Some (js, ms) ->
  _target (node_view g) = TControllerOverlay ->
  let pr := process X js ms (controller_overlay (node_view g))
              (mkCtx (world c) (trace c ++ [EvCallback true])) in
  fst (fst pr) = Raise e ->
  let d := run_async_done X CbUpdateAndRedraw fd g c in
  let g' := snd (fst d) in
  fst (fst d) = Ret tt
  /\ snd d = mkCtx (world (snd pr))
               (trace (snd pr) ++ [EvLogWarning e; EvRemoveWatchPipe fd; EvClose fd])
  /\ controller_overlay (node_view g') = snd (fst pr)
  /\ nodes (node_view g') = nodes (node_view g)
  /\ _target (node_view g') = TControllerOverlay
  /\ widget g' = widget g
  /\ lookup_pipe fd g' = None.
Proof.
  intros Hn Hl Hres Ht. cbn zeta. intro He.
  unfold run_async_done, try_finally, try_except, remove_watch_pipe, bind, get, modify,
    ret, emit.
  rewrite Hl, Hres. cbn.
  unfold update_and_redraw, do_update, overlay_process, zoom, of_outcome,
    bind, get, modify, ret.
  cbn. rewrite Hn, Ht. cbn.
  destruct (process X js ms (controller_overlay (node_view g))
              {| world := world c; trace := trace c ++ [EvCallback true] |})
    as [[[b|e'] o'] c'] eqn:Hp; cbn in He; [discriminate|].
  inversion He; subst e'. cbn. rewrite <- !app_assoc. cbn.
  repeat apply conj; try reflexivity; auto.
  unfold lookup_pipe. cbn. apply find_removed.
Qed.

Lemma tick_idle (g : PegasusGUI) (c : Ctx (World X)) :
  ticks_left (node_view g) <> 0%Z ->
  tick X g c =
    (Ret tt,
     with_view (fun v => set_ticks_left (ticks_left (node_view g) - 1)
                           (set_timer ("(Re-poll in " ++ str_of_Z (ticks_left (node_view g))
                                       ++ " (s))")%string v)) g,
     c).
Proof.
  intro Hz. apply Z.eqb_neq in Hz.
  unfold tick, bind, get, modify, ret. rewrite Hz. cbn. reflexivity.
Qed.

(** Counting down: [k] ticks from a countdown at [k] launch nothing and
    leave it at zero. *)
Lemma ticks_countdown :
  forall (k : nat) (g : PegasusGUI) (c : Ctx (World X)),
    ticks_left (node_view g) = Z.of_nat k ->
    exists t,
      ticks X k g c = (with_view (fun v => set_ticks_left 0 (set_timer t v)) g, c).
Proof.
  induction k as [|k IH]; intros g c Hk.
  - exists (timer (node_view g)). cbn.
    destruct g as [[] ? ? ? ?]. cbn in *. subst. reflexivity.
  - cbn [ticks]. rewrite tick_idle by lia. cbn [fst snd].
    match goal with
    | |- context [ticks X k ?g1 c] => destruct (IH g1 c) as (t & ->)
    end.
    { cbn. lia. }
    exists t. reflexivity.
Qed.

(** X13: the poll timer is periodic.  From a countdown at zero and a
    poll interval of [k+1] seconds, the next [k+1] ticks launch exactly
    one poll, on the first of them, and bring the countdown back to
    zero. *)
Theorem one_poll_every_poll_interval (k : nat) (g : PegasusGUI) (c : Ctx (World X)) :
  ticks_left (node_view g) = 0%Z ->
  poll_interval (node_view g) = Z.of_nat (S k) ->
  let g' := fst (ticks X (S k) g c) in
  let c' := snd (ticks X (S k) g c) in
  ticks_left (node_view g') = 0%Z
  /\ poll_interval (node_view g') = poll_interval (node_view g)
  /\ threads g' = threads g ++ [mkThread FnRefreshStates (next_fd g)]
  /\ pipes g' = mkPipe (next_fd g) CbUpdateAndRedraw None 0 :: pipes g
  /\ c' = mkCtx (world c)
            (trace c ++ [EvWatchPipe (next_fd g); EvThreadStart (next_fd g)]).
Proof.
  intros Hz Hp. cbn zeta. cbn [ticks].
  match goal with
  | |- context [ticks X k ?g1 ?c1] => destruct (ticks_countdown k g1 c1) as (t & ->)
  end.
  { unfold tick, run_async, watch_pipe, bind, get, modify, ret, emit.
    rewrite Hz. cbn. lia. }
  unfold tick, run_async, watch_pipe, bind, get, modify, ret, emit.
  rewrite Hz. cbn. rewrite <- app_assoc. repeat apply conj; reflexivity.
Qed.

End GUIMore.

(** ** The idle lock *)

Section LockFacts.

Variable X : Externals.
Variable P : LockSettings.

Lemma tick_returns (g : PegasusGUI) (c : Ctx (World X)) :
  fst (fst (tick X g c)) = Ret tt
  /\ widget (snd (fst (tick X g c))) = widget g
  /\ controller_overlay (node_view (snd (fst (tick X g c))))
     = controller_overlay (node_view g)
  /\ _target (node_view (snd (fst (tick X g c)))) = _target (node_view g).
Proof.
  unfold tick, run_async, watch_pipe, bind, get, modify, ret, emit.
  destruct (ticks_left (node_view g) =? 0)%Z; cbn; auto.
Qed.

Lemma ticks_widget (n : nat) :
  forall (g : PegasusGUI) (c : Ctx (World X)),
    widget (fst (ticks X n g c)) = widget g.
Proof.
  induction n as [|n IH]; intros g c; cbn [ticks]; [reflexivity|].
  rewrite IH. apply tick_returns.
Qed.

Local Arguments tick : simpl never.

(** One tick of the loop with nothing to lock. *)
Lemma PegasusGUI_tick_idle (l : PegasusLoop) (c : Ctx (World X)) :
  negb (locked l) && IS_TTY P = false ->
  PegasusGUI_tick X P l c =
    (Ret tt,
     set_alarms (S (alarms l)) (set_gui (snd (fst (tick X (gui l) c))) l),
     snd (tick X (gui l) c)).
Proof.
  intro H. unfold PegasusGUI_tick, bind, get, modify, ret, zoom. rewrite H.
  destruct (tick_returns (gui l) c) as (Hr & _).
  destruct (tick X (gui l) c) as [[r g'] c']. cbn in Hr |- *. subst r. reflexivity.
Qed.

(** One tick of the loop that counts idle time down. *)
Lemma PegasusGUI_tick_counting (l : PegasusLoop) (c : Ctx (World X)) :
  locked l = false -> IS_TTY P = true -> lock_ticks l <> 0%Z ->
  PegasusGUI_tick X P l c =
    (Ret tt,
     set_alarms (S (alarms l))
       (set_gui (snd (fst (tick X (gui l) c))) (set_lock_ticks (lock_ticks l - 1) l)),
     snd (tick X (gui l) c)).
Proof.
  intros Hl Ht Hz. apply Z.eqb_neq in Hz.
  unfold PegasusGUI_tick, bind, get, modify, ret, zoom. rewrite Hl, Ht, Hz. cbn.
  destruct (tick_returns (gui l) c) as (Hr & _).
  destruct (tick X (gui l) c) as [[r g'] c']. cbn in Hr |- *. subst r. reflexivity.
Qed.

(** The tick that locks. *)
Lemma PegasusGUI_tick_locking (l : PegasusLoop) (c : Ctx (World X)) :
  locked l = false -> IS_TTY P = true -> lock_ticks l = 0%Z ->
  let t := tick X (set_widget WLockScreen (gui l)) c in
  PegasusGUI_tick X P l c =
    (Ret tt,
     mkPegasusLoop (snd (fst t)) 0 true
       (Some (mkLockScreen (widget (gui l)) "" (Plain ""))) (S (alarms l)),
     snd t).
Proof.
  intros Hl Ht Hz. cbn zeta.
  unfold PegasusGUI_tick, bind, get, modify, ret, zoom. rewrite Hl, Ht, Hz. cbn.
  destruct (tick_returns (set_widget WLockScreen (gui l)) c) as (Hr & _).
  destruct (tick X (set_widget WLockScreen (gui l)) c) as [[r g'] c'].
  cbn in Hr |- *. subst r. unfold set_alarms, set_gui. cbn. rewrite Hz. reflexivity.
Qed.

(** The widget on display plays no part in [NodeViewMode.tick]. *)
Lemma tick_set_widget (w : Widget) (g : PegasusGUI) (c : Ctx (World X)) :
  tick X (set_widget w g) c
  = (fst (fst (tick X g c)), set_widget w (snd (fst (tick X g c))), snd (tick X g c)).
Proof.
  unfold tick, run_async, watch_pipe, bind, get, modify, ret, emit. cbn.
  destruct (ticks_left (node_view g) =? 0)%Z; cbn; reflexivity.
Qed.

Lemma lock_countdown :
  forall (k : nat) (l : PegasusLoop) (c : Ctx (World X)),
    IS_TTY P = true ->
    locked l = false ->
    lock_ticks l = Z.of_nat k ->
    PegasusGUI_ticks X P k l c =
      (mkPegasusLoop (fst (ticks X k (gui l) c)) 0 false (lock_screen l) (alarms l + k),
       snd (ticks X k (gui l) c)).
Proof.
  induction k as [|k IH]; intros l c Ht Hl Hk.
  - cbn. rewrite Nat.add_0_r. destruct l; cbn in *. subst. reflexivity.
  - cbn [PegasusGUI_ticks ticks].
    rewrite PegasusGUI_tick_counting by (auto; lia). cbn [fst snd].
    rewrite IH; auto.
    + cbn. rewrite <- Nat.add_succ_comm. reflexivity.
    + cbn. lia.
Qed.

Lemma no_lock_ticks :
  forall (n : nat) (l : PegasusLoop) (c : Ctx (World X)),
    negb (locked l) && IS_TTY P = false ->
    PegasusGUI_ticks X P n l c =
      (mkPegasusLoop (fst (ticks X n (gui l) c)) (lock_ticks l) (locked l)
         (lock_screen l) (alarms l + n),
       snd (ticks X n (gui l) c)).
Proof.
  induction n as [|n IH]; intros l c H.
  - cbn. rewrite Nat.add_0_r. destruct l; reflexivity.
  - cbn [PegasusGUI_ticks ticks].
    rewrite PegasusGUI_tick_idle by exact H. cbn [fst snd].
    rewrite IH; auto. cbn. rewrite <- Nat.add_succ_comm. reflexivity.
Qed.

Lemma ticks_snoc :
  forall (n : nat) (g : PegasusGUI) (c : Ctx (World X)),
    ticks X (S n) g c =
      (snd (fst (tick X (fst (ticks X n g c)) (snd (ticks X n g c)))),
       snd (tick X (fst (ticks X n g c)) (snd (ticks X n g c)))).
Proof.
  induction n as [|n IH]; intros g c.
  - reflexivity.
  - cbn [ticks] in *. rewrite IH. reflexivity.
Qed.

Lemma PegasusGUI_ticks_snoc :
  forall (n : nat) (l : PegasusLoop) (c : Ctx (World X)),
    PegasusGUI_ticks X P (S n) l c =
      (snd (fst (PegasusGUI_tick X P (fst (PegasusGUI_ticks X P n l c))
                   (snd (PegasusGUI_ticks X P n l c)))),
       snd (PegasusGUI_tick X P (fst (PegasusGUI_ticks X P n l c))
              (snd (PegasusGUI_ticks X P n l c)))).
Proof.
  induction n as [|n IH]; intros l c.
  - reflexivity.
  - cbn [PegasusGUI_ticks] in *. rewrite IH. reflexivity.
Qed.

(** X14: on a TTY, an unlocked loop whose idle countdown stands at [k]
    is still unlocked, with the same widget on display, after [k] ticks,
    and locked by the tick after: the lock screen is on display, made
    with the widget that was shown and an empty password field.  The
    node view's own timer runs through all these ticks as it would
    without the lock, and every tick re-arms the alarm. *)
Theorem screen_locks_when_idle_time_runs_out (k : nat) (l : PegasusLoop)
  (c : Ctx (World X)) :
  IS_TTY P = true ->
  locked l = false ->
  lock_ticks l = Z.of_nat k ->
  let before := fst (PegasusGUI_ticks X P k l c) in
  let after := fst (PegasusGUI_ticks X P (S k) l c) in
  (locked before = false
   /\ widget (gui before) = widget (gui l)
   /\ lock_screen before = lock_screen l)
  /\ (locked after = true
      /\ widget (gui after) = WLockScreen
      /\ lock_screen after = Some (mkLockScreen (widget (gui l)) "" (Plain ""))
      /\ node_view (gui after) = node_view (fst (ticks X (S k) (gui l) c))
      /\ snd (PegasusGUI_ticks X P (S k) l c) = snd (ticks X (S k) (gui l) c)
      /\ alarms after = alarms l + S k).
Proof.
  intros Ht Hl Hk. cbn zeta.
  rewrite PegasusGUI_ticks_snoc, ticks_snoc.
  rewrite (lock_countdown k l c Ht Hl Hk). cbn [fst snd gui locked lock_screen].
  split; [repeat apply conj; auto; apply ticks_widget|].
  rewrite PegasusGUI_tick_locking by auto.
  cbn [fst snd gui locked lock_screen alarms].
  rewrite tick_set_widget. cbn [fst snd].
  rewrite ticks_widget.
  repeat apply conj; auto.
Qed.

(** X15: off a TTY, or while the screen is locked, the ticks of the loop
    never touch the lock: the idle countdown, the lock flag and the lock
    screen stay as they are, while [NodeViewMode.tick] keeps running
    (polls go on behind the lock screen) and the alarm is re-armed every
    time. *)
Theorem no_lock_off_a_tty_or_when_locked (n : nat) (l : PegasusLoop)
  (c : Ctx (World X)) :
  IS_TTY P = false \/ locked l = true ->
  PegasusGUI_ticks X P n l c =
    (mkPegasusLoop (fst (ticks X n (gui l) c)) (lock_ticks l) (locked l)
       (lock_screen l) (alarms l + n),
     snd (ticks X n (gui l) c)).
Proof.
  intro H. apply no_lock_ticks.
  destruct H as [-> | ->]; [apply andb_false_r | reflexivity].
Qed.

(** X16: a key press restarts the idle countdown and filters nothing:
    [_key_pressed] hands the keys back unchanged, and on a TTY the
    unlocked loop then stays unlocked, with its widget on display, for
    [LOCK_TIME] ticks and is locked by the tick after. *)
Theorem key_press_postpones_the_lock (keys : list string) (l : PegasusLoop)
  (c : Ctx (World X)) :
  IS_TTY P = true ->
  locked l = false ->
  let pressed := _key_pressed X keys l c in
  let l0 := snd (fst pressed) in
  let idle := Z.to_nat LOCK_TIME in
  pressed = (Ret keys, set_lock_ticks LOCK_TIME l, c)
  /\ (forall n, n <= idle ->
                locked (fst (PegasusGUI_ticks X P n l0 c)) = false
                /\ widget (gui (fst (PegasusGUI_ticks X P n l0 c))) = widget (gui l))
  /\ locked (fst (PegasusGUI_ticks X P (S idle) l0 c)) = true
  /\ widget (gui (fst (PegasusGUI_ticks X P (S idle) l0 c))) = WLockScreen.
Proof.
  intros Ht Hl. cbn zeta.
  assert (Hp : _key_pressed X keys l c = (Ret keys, set_lock_ticks LOCK_TIME l, c))
    by reflexivity.
  rewrite Hp. cbn [fst snd].
  split; [reflexivity|].
  assert (Hidle : LOCK_TIME = Z.of_nat (Z.to_nat LOCK_TIME)) by reflexivity.
  revert Hidle. generalize (Z.to_nat LOCK_TIME) as idle.
  generalize LOCK_TIME as lock_time. intros lock_time idle ->.
  assert (Hcount : forall n m (l1 : PegasusLoop) (c1 : Ctx (World X)),
             locked l1 = false -> lock_ticks l1 = Z.of_nat (n + m) ->
             PegasusGUI_ticks X P n l1 c1 =
               (mkPegasusLoop (fst (ticks X n (gui l1) c1)) (Z.of_nat m) false
                  (lock_screen l1) (alarms l1 + n),
                snd (ticks X n (gui l1) c1))).
  { induction n as [|n IH]; intros m l1 c1 Hl1 Hk.
    - cbn. rewrite Nat.add_0_r. destruct l1; cbn in *. subst. reflexivity.
    - cbn [PegasusGUI_ticks ticks].
      rewrite PegasusGUI_tick_counting by (auto; lia). cbn [fst snd].
      rewrite (IH m); auto.
      + cbn. rewrite <- Nat.add_succ_comm. reflexivity.
      + cbn. lia. }
  split.
  - intros n Hn.
    rewrite (Hcount n (idle - n)).
    + cbn [fst snd gui locked set_lock_ticks]. split; [reflexivity | apply ticks_widget].
    + exact Hl.
    + cbn [lock_ticks set_lock_ticks]. f_equal. lia.
  - rewrite PegasusGUI_ticks_snoc.
    rewrite (lock_countdown idle) by (try reflexivity; assumption).
    rewrite PegasusGUI_tick_locking by (try reflexivity; assumption).
    cbn [fst snd gui locked]. rewrite tick_set_widget.
    cbn [fst snd widget set_widget]. split; reflexivity.
Qed.


(** X17: the lock screen lets go on one input only: a key press
    unlocks exactly when the key is [enter] and the password field holds
    [OPENSTACK_PASSWORD].  With no password known ([None]) nothing
    unlocks.  A press that does not unlock leaves the loop's widget and
    idle countdown alone; on [enter] it shows the error text, and a
    wrong password is cleared from the field. *)
Theorem only_the_password_unlocks (ls : LockScreen) (key : string)
  (l : PegasusLoop) (c : Ctx (World X)) :
  locked l = true ->
  let res := LockScreen_keypress X P ls key l c in
  let l' := snd (fst res) in
  (locked l' = false
   <-> key = "enter" /\ OPENSTACK_PASSWORD P = Some (password ls))
  /\ (locked l' = true ->
      gui l' = gui l /\ lock_ticks l' = lock_ticks l
      /\ exists ls', lock_screen l' = Some ls' /\ old_res ls' = old_res ls
                     /\ (key = "enter" ->
                         invalid ls' = match OPENSTACK_PASSWORD P with
                                       | None => IOERROR P
                                       | Some _ => INVALID
                                       end
                         /\ (OPENSTACK_PASSWORD P <> None -> password ls' = "")))
  /\ snd res = c.
Proof.
  intro Hl. cbn zeta.
  unfold LockScreen_keypress, unlock, bind, get, modify, ret.
  destruct (String.eqb key "enter") eqn:Hk.
  - apply String.eqb_eq in Hk. subst key.
    destruct (OPENSTACK_PASSWORD P) as [pw|] eqn:Hpw.
    + destruct (String.eqb pw (password ls)) eqn:He; cbn.
      * apply String.eqb_eq in He. subst pw.
        repeat apply conj; auto; try tauto. discriminate.
      * apply String.eqb_neq in He. rewrite Hl.
        repeat apply conj; auto.
        -- discriminate.
        -- intros (_ & Hs). congruence.
        -- intros _. repeat apply conj; auto.
           eexists. repeat apply conj; try reflexivity. intros _. split; auto.
    + cbn. rewrite Hl. repeat apply conj; auto.
      * discriminate.
      * intros (_ & Hs). discriminate.
      * intros _. repeat apply conj; auto.
        eexists. repeat apply conj; try reflexivity. intros _. split; auto. congruence.
  - apply String.eqb_neq in Hk. cbn. rewrite Hl. repeat apply conj; auto.
    + discriminate.
    + intros (Hs & _). congruence.
    + intros _. repeat apply conj; auto.
      eexists. repeat apply conj; try reflexivity. intro. congruence.
Qed.

(** X18: locking and unlocking is a round trip.  After the tick that
    locks, [enter] on the right password puts back the widget that was
    on display before the lock (the node view instead, if that widget
    was the overlay and the overlay is done), restarts the idle
    countdown at [LOCK_TIME] and clears the lock; the node view is as
    the tick left it, and nothing is called. *)
Theorem lock_then_password_restores_the_view (l : PegasusLoop) (c : Ctx (World X))
  (pw : string) :
  IS_TTY P = true ->
  locked l = false ->
  lock_ticks l = 0%Z ->
  OPENSTACK_PASSWORD P = Some pw ->
  let l1 := snd (fst (PegasusGUI_tick X P l c)) in
  let c1 := snd (PegasusGUI_tick X P l c) in
  lock_screen l1 = Some (mkLockScreen (widget (gui l)) "" (Plain ""))
  /\ forall ls,
      old_res ls = widget (gui l) ->
      password ls = pw ->
      LockScreen_keypress X P ls "enter" l1 c1 =
        (Ret None,
         mkPegasusLoop
           (set_widget
              (match widget (gui l) with
               | WControllerOverlay =>
                   if done (controller_overlay (node_view (gui l)))
                   then WNodeViewMode else WControllerOverlay
               | w => w
               end)
              (gui l1))
           LOCK_TIME false None (alarms l1),
         c1).
Proof.
  intros Ht Hl Hz Hpw. cbn zeta.
  rewrite PegasusGUI_tick_locking by assumption. cbn [fst snd lock_screen].
  split; [reflexivity|].
  intros ls Hold Hp.
  unfold LockScreen_keypress, unlock, bind, get, modify, ret.
  rewrite Hpw. cbn [String.eqb Ascii.eqb Bool.eqb].
  rewrite Hp, String.eqb_refl, Hold. cbn [gui].
  destruct (tick_returns (set_widget WLockScreen (gui l)) c) as (_ & _ & Ho & _).
  rewrite Ho. cbn [node_view set_widget].
  destruct (widget (gui l)); reflexivity.
Qed.

Local Arguments process : simpl never.

(** X19: the overlay that finishes behind the lock screen is never
    shown again.  With the screen locked over the overlay, the callback
    of a poll, handed a snapshot whose node widgets can be built, leaves
    the lock screen on display whatever [process] returns; unlocking
    afterwards shows the overlay if [process] returned true and the
    node view if it returned false. *)
Theorem overlay_finished_while_locked_is_bypassed (js : JujuState) (ms : MaasState)
  (ns : list Node) (l : PegasusLoop) (c : Ctx (World X)) (ls : LockScreen)
  (b : bool) :
  make_nodes (services js) = Ret ns ->
  widget (gui l) = WLockScreen ->
  old_res ls = WControllerOverlay ->
  _target (node_view (gui l)) = TControllerOverlay ->
  fst (fst (process X js ms (controller_overlay (node_view (gui l))) c)) = Ret b ->
  let polled := zoom gui set_gui (update_and_redraw X (Some (js, ms))) l c in
  let res := (zoom gui set_gui (update_and_redraw X (Some (js, ms))) ;;; unlock X ls) l c in
  let l' := snd (fst res) in
  widget (gui (snd (fst polled))) = WLockScreen
  /\ fst (fst res) = Ret tt
  /\ widget (gui l') = (if b then WControllerOverlay else WNodeViewMode)
  /\ _target (node_view (gui l')) = (if b then TControllerOverlay else TNodeViewMode)
  /\ locked l' = false
  /\ lock_ticks l' = LOCK_TIME.
Proof.
  intros Hn Hw Hold Ht Hb. cbn zeta.
  pose proof (process_done_iff X js ms (controller_overlay (node_view (gui l))) c) as Hdone.
  unfold unlock, zoom, update_and_redraw, do_update, overlay_process, zoom, set_target,
    of_outcome, bind, modify, get, ret, emit.
  cbn. rewrite Hn, Ht. cbn.
  destruct (process X js ms (controller_overlay (node_view (gui l))) c)
    as [[r o'] c'] eqn:Hp.
  cbn in Hb. subst r. specialize (Hdone _ _ _ eq_refl).
  assert (Hd : done o' = negb b).
  { destruct b; cbn.
    - destruct (done o'); [| reflexivity].
      assert (Ret true = Ret false) by (apply Hdone; reflexivity). discriminate.
    - apply Hdone. reflexivity. }
  destruct b; cbn; rewrite ?Hw; cbn;
    match goal with
    | |- context [show_urls X js ?g0 c'] =>
        destruct (show_urls_texts X js g0 c') as (g' & Hq & (x & y & z & ->)); rewrite Hq
    end; cbn; rewrite Hold, ?Hw, Hd; cbn; repeat apply conj; auto.
Qed.

End LockFacts.

(** ** Hot keys and the dialog *)

Section HotkeyFacts.

Variable X : Externals.

(** X20: [_header_hotkeys] raises (the loop's exit) exactly for the
    keys [q] and [Q] while the lock screen is not on display; while it
    is, no hot key does anything; and no key but [f8] changes the
    loop. *)
Theorem quit_key_ends_the_loop_unless_locked (key : string) (g : PegasusGUI)
  (c : Ctx (World X)) :
  let res := _header_hotkeys X key g c in
  ((exists e, fst (fst res) = Raise e)
   <-> (key = "q" \/ key = "Q") /\ widget g <> WLockScreen)
  /\ (widget g = WLockScreen -> res = (Ret tt, g, c))
  /\ (key <> "f8" -> snd (fst res) = g)
  /\ snd res = c.
Proof.
  cbn zeta. unfold _header_hotkeys, bind, get, modify, ret, raise.
  assert (Hq : String.eqb key "q" || String.eqb key "Q" = true
               <-> key = "q" \/ key = "Q").
  { rewrite orb_true_iff, !String.eqb_eq. tauto. }
  assert (Hlocked : widget g = WLockScreen \/ widget g <> WLockScreen).
  { destruct (widget g); auto; right; discriminate. }
  destruct Hlocked as [Hw | Hw].
  { rewrite Hw. cbn.
    split; [split; [intros (e & He); discriminate | intros (_ & Hne); congruence]
           | repeat apply conj; auto]. }
  destruct (String.eqb key "f8") eqn:Hf8.
  - apply String.eqb_eq in Hf8. subst key.
    destruct (widget g) eqn:Hg; try congruence; cbn; rewrite ?Hg; cbn;
      (split; [split; [intros (e & He); discriminate
                      | intros ([Hk | Hk] & _); discriminate]
              | repeat apply conj; auto; congruence]).
  - apply String.eqb_neq in Hf8.
    destruct (String.eqb key "q" || String.eqb key "Q") eqn:Hk.
    + assert (Hkey : key = "q" \/ key = "Q") by (apply Hq; reflexivity).
      destruct (widget g) eqn:Hg; try congruence; cbn;
        (split; [split; [intros _; split; [exact Hkey | discriminate]
                        | intros _; eexists; reflexivity]
                | repeat apply conj; auto; discriminate]).
    + assert (Hnk : ~ (key = "q" \/ key = "Q")).
      { intro H. apply Hq in H. discriminate. }
      destruct (widget g) eqn:Hg; try congruence; cbn;
        (split; [split; [intros (e & He); discriminate | intros (H & _); tauto]
                | repeat apply conj; auto; discriminate]).
Qed.

(** X21: [f8] toggles between the console and the node view's target.
    Pressed twice from the console it returns to the console; pressed
    twice from any other widget but the lock screen it ends on the
    view's current target, which need not be the widget it started
    from. *)
Theorem f8_twice_shows_the_current_target (g : PegasusGUI) (c : Ctx (World X)) :
  widget g <> WLockScreen ->
  (_header_hotkeys X "f8" ;;; _header_hotkeys X "f8") g c =
    (Ret tt,
     set_widget (match widget g with
                 | WConsoleMode => WConsoleMode
                 | _ => widget_of_target (_target (node_view g))
                 end) g,
     c).
Proof.
  intro Hw. unfold _header_hotkeys, bind, get, modify, ret, raise.
  destruct (widget g) eqn:Hg; cbn; rewrite ?Hg; cbn; try congruence;
    destruct (_target (node_view g)); reflexivity.
Qed.

End HotkeyFacts.

Section DialogFacts.

Variable X : Externals.
Variable allow_multi_units : CharmClass -> bool.
Variable client_add_unit :
  string -> option string -> Z -> World X -> option exn * World X.
Variable radio_initial_state : nat -> bool.




(** X23: when no registered class allows multiple units the dialog has
    no radio button, and its [Ok] button raises an [IndexError]: no unit
    is added and the dialog is not closed. *)
Theorem ok_without_a_multi_unit_charm_raises (g : PegasusGUI) (c : Ctx (World X)) :
  (forall x, In x (charm_registry X) -> allow_multi_units x = false) ->
  AddCharmDialog_yes X client_add_unit
    (AddCharmDialog_init X allow_multi_units radio_initial_state) g c
  = (Raise "IndexError: list index out of range", g, c).
Proof.
  intro Hnone. unfold AddCharmDialog_yes, AddCharmDialog_init.
  assert (Hf : filter allow_multi_units (charm_registry X) = []).
  { induction (charm_registry X) as [|x l IH]; cbn; [reflexivity|].
    rewrite (Hnone x) by (left; reflexivity). apply IH.
    intros y Hy. apply Hnone. right. exact Hy. }
  rewrite Hf. reflexivity.
Qed.

End DialogFacts.

(* ================================================================== *)
(** * More of the file on the small installation *)


Lemma one_call_completes_once_services_are_up_witness :
  let X := Demo.single_node in
  let s := ControllerOverlay_init X in
  let res := process X Demo.services_up Demo.maas_empty s (mkCtx 0 []) in
  NoDup (charm_registry X)
  /\ reachable X (s, [])
  /\ (forall x, In x (charm_registry X) -> has_service Demo.services_up x = true)
  /\ fst (fst res) = Ret false
  /\ machine (snd (fst res)) <> None
  /\ done (snd (fst res)) = true
  /\ Permutation (finalized_charm_classes (snd (fst res))) (charm_registry X).
Proof.
  cbn zeta.
  assert (H1 : NoDup (charm_registry Demo.single_node)) by apply NoDup_two_charms.
  assert (H2 : reachable Demo.single_node (ControllerOverlay_init Demo.single_node, []))
    by apply reachable_init.
  assert (H3 : forall x, In x (charm_registry Demo.single_node) ->
                         has_service Demo.services_up x = true).
  { intros x [<- | [<- | []]]; reflexivity. }
  assert (H4 : fst (fst (process Demo.single_node Demo.services_up Demo.maas_empty
                           (ControllerOverlay_init Demo.single_node) (mkCtx 0 [])))
               = Ret false) by (vm_compute; reflexivity).
  assert (H5 : machine (snd (fst (process Demo.single_node Demo.services_up
                                    Demo.maas_empty
                                    (ControllerOverlay_init Demo.single_node)
                                    (mkCtx 0 []))))
               <> None) by (vm_compute; discriminate).
  exact (conj H1 (conj H2 (conj H3 (conj H4 (conj H5
           (proj2 (one_call_completes_once_services_are_up Demo.single_node
                     Demo.services_up Demo.maas_empty _ [] 0 false
                     H1 H2 H3 H4 H5))))))).
Defined.

Lemma no_mode_nothing_happens_witness :
  let X := Demo.externals false false [Demo.mysql] Demo.never_fails Demo.poll_ok in
  let st := after_call X Demo.bare_machine Demo.maas_empty 0
              (ControllerOverlay_init X, []) in
  MULTI_SYSTEM X = false
  /\ SINGLE_SYSTEM X = false
  /\ reachable X (fst st, snd st)
  /\ fst st = ControllerOverlay_init X
  /\ snd st = [].
Proof.
  cbn zeta.
  set (X := Demo.externals false false [Demo.mysql] Demo.never_fails Demo.poll_ok).
  assert (H1 : MULTI_SYSTEM X = false) by reflexivity.
  assert (H2 : SINGLE_SYSTEM X = false) by reflexivity.
  assert (H3 : reachable X
                 (fst (after_call X Demo.bare_machine Demo.maas_empty 0
                         (ControllerOverlay_init X, [])),
                  snd (after_call X Demo.bare_machine Demo.maas_empty 0
                         (ControllerOverlay_init X, [])))).
  { rewrite <- surjective_pairing. apply reachable_after, reachable_init. }
  pose proof (no_mode_nothing_happens X _ _ H1 H2 H3) as (T1 & T2 & _).
  exact (conj H1 (conj H2 (conj H3 (conj T1 T2)))).
Defined.

Lemma multi_node_never_reconfigures_the_network_witness :
  let X := Demo.multi_node in
  let st := after_call X Demo.bare_machine Demo.maas_empty 0
              (ControllerOverlay_init X, []) in
  SINGLE_SYSTEM X = false
  /\ reachable X (fst st, snd st)
  /\ filter is_run (snd st) = []
  /\ single_net_configured (fst st) = false.
Proof.
  cbn zeta.
  assert (H1 : SINGLE_SYSTEM Demo.multi_node = false) by reflexivity.
  assert (H2 : reachable Demo.multi_node
                 (fst (after_call Demo.multi_node Demo.bare_machine Demo.maas_empty 0
                         (ControllerOverlay_init Demo.multi_node, [])),
                  snd (after_call Demo.multi_node Demo.bare_machine Demo.maas_empty 0
                         (ControllerOverlay_init Demo.multi_node, [])))).
  { rewrite <- surjective_pairing. apply reachable_after, reachable_init. }
  exact (conj H1 (conj H2
           (multi_node_never_reconfigures_the_network Demo.multi_node _ _ H1 H2))).
Defined.

Lemma single_node_never_adds_a_machine_witness :
  let X := Demo.single_node in
  let st := after_call X Demo.bare_machine Demo.maas_empty 0
              (ControllerOverlay_init X, []) in
  MULTI_SYSTEM X = false
  /\ reachable X (fst st, snd st)
  /\ filter is_add_machine (snd st) = [].
Proof.
  cbn zeta.
  assert (H1 : MULTI_SYSTEM Demo.single_node = false) by reflexivity.
  assert (H2 : reachable Demo.single_node
                 (fst (after_call Demo.single_node Demo.bare_machine Demo.maas_empty 0
                         (ControllerOverlay_init Demo.single_node, [])),
                  snd (after_call Demo.single_node Demo.bare_machine Demo.maas_empty 0
                         (ControllerOverlay_init Demo.single_node, [])))).
  { rewrite <- surjective_pairing. apply reachable_after, reachable_init. }
  exact (conj H1 (conj H2
           (single_node_never_adds_a_machine Demo.single_node _ _ H1 H2))).
Defined.

Lemma add_machine_is_repeated_every_call_witness :
  let X := Demo.multi_node in
  let s := ControllerOverlay_init X in
  let snapshots := [(Demo.no_machines, Demo.maas_one); (Demo.no_machines, Demo.maas_one)] in
  MULTI_SYSTEM X = true
  /\ machine s = None
  /\ done s = false
  /\ Forall (fun p => machines_allocated (fst p) = []
                      /\ maas_machines_allocated (snd p) <> []) snapshots
  /\ machine (fst (run_calls X snapshots s Demo.ctx0)) = None
  /\ exists evs,
      trace (snd (run_calls X snapshots s Demo.ctx0)) = trace Demo.ctx0 ++ evs
      /\ List.length evs = 2
      /\ forall ev, In ev evs -> exists f, ev = EvCall AddMachine f.
Proof.
  cbn zeta.
  assert (H1 : MULTI_SYSTEM Demo.multi_node = true) by reflexivity.
  assert (H2 : machine (ControllerOverlay_init Demo.multi_node) = None) by reflexivity.
  assert (H3 : done (ControllerOverlay_init Demo.multi_node) = false) by reflexivity.
  assert (H4 : Forall (fun p => machines_allocated (fst p) = []
                                /\ maas_machines_allocated (snd p) <> [])
                 [(Demo.no_machines, Demo.maas_one); (Demo.no_machines, Demo.maas_one)]).
  { repeat constructor; discriminate. }
  exact (conj H1 (conj H2 (conj H3 (conj H4
           (add_machine_is_repeated_every_call Demo.multi_node _ _ Demo.ctx0
              H1 H2 H3 H4))))).
Defined.

Lemma bridge_hands_the_result_to_the_callback_witness :
  let X := Demo.single_node in
  let g := PegasusGUI_init X in
  let fd := next_fd g in
  let g1 := snd (fst (run_async X FnRefreshStates CbUpdateAndRedraw g Demo.ctx0)) in
  let c1 := snd (run_async X FnRefreshStates CbUpdateAndRedraw g Demo.ctx0) in
  let g2 := snd (fst (thread_run X (mkThread FnRefreshStates fd) g1 c1)) in
  let c2 := snd (thread_run X (mkThread FnRefreshStates fd) g1 c1) in
  fst (fst (blocking_fn X FnRefreshStates tt c1)) = Ret (Demo.bare_machine, Demo.maas_empty)
  /\ lookup_pipe fd g2
     = Some (mkPipe fd CbUpdateAndRedraw (Some (Demo.bare_machine, Demo.maas_empty)) 1)
  /\ fst (fst (loop_read_pipe X fd g2 c2)) = Ret tt
  /\ lookup_pipe fd (snd (fst (loop_read_pipe X fd g2 c2))) = None.
Proof.
  cbn zeta.
  assert (H : fst (fst (blocking_fn Demo.single_node FnRefreshStates tt
                          (snd (run_async Demo.single_node FnRefreshStates
                                  CbUpdateAndRedraw (PegasusGUI_init Demo.single_node)
                                  Demo.ctx0))))
              = Ret (Demo.bare_machine, Demo.maas_empty)) by reflexivity.
  pose proof (bridge_hands_the_result_to_the_callback Demo.single_node FnRefreshStates
                CbUpdateAndRedraw (PegasusGUI_init Demo.single_node) Demo.ctx0
                (Demo.bare_machine, Demo.maas_empty) H) as T.
  cbv zeta in T. destruct T as ((_ & _ & T1) & (T2 & _ & _ & T3 & _)).
  exact (conj H (conj T1 (conj T2 T3))).
Defined.

Lemma failed_poll_changes_nothing_witness :
  let X := Demo.failing_poll in
  let g := PegasusGUI_init X in
  let polled :=
    (tick X ;;; thread_run X (mkThread FnRefreshStates (next_fd g))
            ;;; loop_read_pipe X (next_fd g)) g Demo.ctx0 in
  ticks_left (node_view g) = 0%Z
  /\ poll_state X (world Demo.ctx0) = (Raise "poll failed", 1)
  /\ fst (fst polled) = Ret tt
  /\ controller_overlay (node_view (snd (fst polled))) = controller_overlay (node_view g)
  /\ widget (snd (fst polled)) = widget g.
Proof.
  cbn zeta.
  assert (H1 : ticks_left (node_view (PegasusGUI_init Demo.failing_poll)) = 0%Z)
    by reflexivity.
  assert (H2 : poll_state Demo.failing_poll (world Demo.ctx0) = (Raise "poll failed", 1))
    by reflexivity.
  pose proof (failed_poll_changes_nothing Demo.failing_poll
                (PegasusGUI_init Demo.failing_poll) Demo.ctx0 "poll failed" 1 H1 H2) as T.
  cbv zeta in T. destruct T as (T1 & _ & T2 & _ & _ & T3 & _).
  exact (conj H1 (conj H2 (conj T1 (conj T2 T3)))).
Defined.

Lemma hook_failure_is_logged_by_the_bridge_witness :
  let X := Demo.failing_setup in
  let p := mkPipe 0 CbUpdateAndRedraw (Some (Demo.bare_machine, Demo.maas_empty)) 0 in
  let g := set_pipes [p] (PegasusGUI_init X) in
  let pr := process X Demo.bare_machine Demo.maas_empty
              (controller_overlay (node_view g))
              (mkCtx (world Demo.ctx0) (trace Demo.ctx0 ++ [EvCallback true])) in
  let d := run_async_done X CbUpdateAndRedraw 0 g Demo.ctx0 in
  make_nodes (services Demo.bare_machine) = Ret []
  /\ lookup_pipe 0 g = Some p
  /\ result_res p = Some (Demo.bare_machine, Demo.maas_empty)
  /\ _target (node_view g) = TControllerOverlay
  /\ fst (fst pr) = Raise "setup failed"
  /\ fst (fst d) = Ret tt
  /\ lookup_pipe 0 (snd (fst d)) = None.
Proof.
  cbn zeta.
  set (X := Demo.failing_setup).
  set (p := mkPipe 0 CbUpdateAndRedraw (Some (Demo.bare_machine, Demo.maas_empty)) 0).
  set (g := set_pipes [p] (PegasusGUI_init X)).
  assert (H0 : make_nodes (services Demo.bare_machine) = Ret []) by reflexivity.
  assert (H1 : lookup_pipe 0 g = Some p) by reflexivity.
  assert (H2 : result_res p = Some (Demo.bare_machine, Demo.maas_empty)) by reflexivity.
  assert (H3 : _target (node_view g) = TControllerOverlay) by reflexivity.
  assert (H4 : fst (fst (process X Demo.bare_machine Demo.maas_empty
                           (controller_overlay (node_view g))
                           (mkCtx (world Demo.ctx0) (trace Demo.ctx0 ++ [EvCallback true]))))
               = Raise "setup failed") by (vm_compute; reflexivity).
  pose proof (hook_failure_is_logged_by_the_bridge X Demo.bare_machine Demo.maas_empty
                [] g Demo.ctx0 0 p "setup failed" H0 H1 H2 H3 H4) as T.
  cbv zeta in T. destruct T as (T1 & _ & _ & _ & _ & _ & T2).
  exact (conj H0 (conj H1 (conj H2 (conj H3 (conj H4 (conj T1 T2)))))).
Defined.

Lemma after_completion_the_callback_only_redraws_witness :
  let X := Demo.single_node in
  let g := with_view (set__target TNodeViewMode) (PegasusGUI_init X) in
  let u := update_and_redraw X (Some (Demo.services_up, Demo.maas_empty)) g Demo.ctx0 in
  make_nodes (services Demo.services_up)
  = Ret [mkNode (mkService "mysql" []) []; mkNode (mkService "keystone" []) []]
  /\ _target (node_view g) = TNodeViewMode
  /\ fst (fst u) = Ret tt
  /\ snd u = mkCtx (world Demo.ctx0) (trace Demo.ctx0 ++ [EvDrawScreen])
  /\ controller_overlay (node_view (snd (fst u))) = controller_overlay (node_view g).
Proof.
  cbn zeta.
  set (g := with_view (set__target TNodeViewMode) (PegasusGUI_init Demo.single_node)).
  assert (H0 : make_nodes (services Demo.services_up)
               = Ret [mkNode (mkService "mysql" []) [];
                      mkNode (mkService "keystone" []) []]) by reflexivity.
  assert (H : _target (node_view g) = TNodeViewMode) by reflexivity.
  pose proof (after_completion_the_callback_only_redraws Demo.single_node
                Demo.services_up Demo.maas_empty _ g Demo.ctx0 H0 H) as T.
  cbv zeta in T. destruct T as (T1 & T2 & T3 & _).
  exact (conj H0 (conj H (conj T1 (conj T2 T3)))).
Defined.

Lemma completion_switches_the_view_witness :
  let X := Demo.single_node in
  let g := PegasusGUI_init X in
  let g' := snd (fst (update_and_redraw X (Some (Demo.services_up, Demo.maas_empty))
                        g Demo.ctx0)) in
  make_nodes (services Demo.services_up)
  = Ret [mkNode (mkService "mysql" []) []; mkNode (mkService "keystone" []) []]
  /\ _target (node_view g) = TControllerOverlay
  /\ fst (fst (process X Demo.services_up Demo.maas_empty
                 (controller_overlay (node_view g)) Demo.ctx0)) = Ret false
  /\ _target (node_view g') = TNodeViewMode
  /\ widget g' = WNodeViewMode
  /\ done (controller_overlay (node_view g')) = true.
Proof.
  cbn zeta.
  set (g := PegasusGUI_init Demo.single_node).
  assert (H1 : _target (node_view g) = TControllerOverlay) by reflexivity.
  assert (H2 : fst (fst (process Demo.single_node Demo.services_up Demo.maas_empty
                           (controller_overlay (node_view g)) Demo.ctx0)) = Ret false)
    by (vm_compute; reflexivity).
  assert (H0 : make_nodes (services Demo.services_up)
               = Ret [mkNode (mkService "mysql" []) [];
                      mkNode (mkService "keystone" []) []]) by reflexivity.
  pose proof (completion_switches_the_view Demo.single_node Demo.services_up
                Demo.maas_empty _ g Demo.ctx0 false H0 H1 H2) as T.
  cbv zeta in T. destruct T as (T1 & T2 & T3 & _).
  exact (conj H0 (conj H1 (conj H2 (conj T1 (conj T2 T3))))).
Defined.

Lemma one_poll_every_poll_interval_witness :
  let X := Demo.single_node in
  let g := PegasusGUI_init X in
  let g' := fst (ticks X 10 g Demo.ctx0) in
  ticks_left (node_view g) = 0%Z
  /\ poll_interval (node_view g) = Z.of_nat 10
  /\ ticks_left (node_view g') = 0%Z
  /\ threads g' = threads g ++ [mkThread FnRefreshStates (next_fd g)].
Proof.
  cbn zeta.
  set (g := PegasusGUI_init Demo.single_node).
  assert (H1 : ticks_left (node_view g) = 0%Z) by reflexivity.
  assert (H2 : poll_interval (node_view g) = Z.of_nat 10) by reflexivity.
  pose proof (one_poll_every_poll_interval Demo.single_node 9 g Demo.ctx0 H1 H2) as T.
  cbv zeta in T. destruct T as (T1 & _ & T2 & _).
  exact (conj H1 (conj H2 (conj T1 T2))).
Defined.

Lemma screen_locks_when_idle_time_runs_out_witness :
  let X := Demo.single_node in
  let P := DemoLock.on_tty in
  let l := set_lock_ticks 2 (PegasusLoop_init X) in
  IS_TTY P = true
  /\ locked l = false
  /\ lock_ticks l = Z.of_nat 2
  /\ locked (fst (PegasusGUI_ticks X P 2 l Demo.ctx0)) = false
  /\ locked (fst (PegasusGUI_ticks X P 3 l Demo.ctx0)) = true
  /\ widget (gui (fst (PegasusGUI_ticks X P 3 l Demo.ctx0))) = WLockScreen.
Proof.
  cbn zeta.
  set (l := set_lock_ticks 2 (PegasusLoop_init Demo.single_node)).
  assert (H1 : IS_TTY DemoLock.on_tty = true) by reflexivity.
  assert (H2 : locked l = false) by reflexivity.
  assert (H3 : lock_ticks l = Z.of_nat 2) by reflexivity.
  pose proof (screen_locks_when_idle_time_runs_out Demo.single_node DemoLock.on_tty
                2 l Demo.ctx0 H1 H2 H3) as T.
  cbv zeta in T. destruct T as ((T1 & _) & (T2 & T3 & _)).
  exact (conj H1 (conj H2 (conj H3 (conj T1 (conj T2 T3))))).
Defined.

Lemma no_lock_off_a_tty_or_when_locked_witness :
  let X := Demo.single_node in
  let P := DemoLock.off_tty in
  let l := PegasusLoop_init X in
  (IS_TTY P = false \/ locked l = true)
  /\ PegasusGUI_ticks X P 3 l Demo.ctx0 =
       (mkPegasusLoop (fst (ticks X 3 (gui l) Demo.ctx0)) (lock_ticks l) (locked l)
          (lock_screen l) (alarms l + 3),
        snd (ticks X 3 (gui l) Demo.ctx0)).
Proof.
  cbn zeta.
  assert (H : IS_TTY DemoLock.off_tty = false
              \/ locked (PegasusLoop_init Demo.single_node) = true)
    by (left; reflexivity).
  exact (conj H (no_lock_off_a_tty_or_when_locked Demo.single_node DemoLock.off_tty
                   3 (PegasusLoop_init Demo.single_node) Demo.ctx0 H)).
Defined.

Lemma key_press_postpones_the_lock_witness :
  let X := Demo.single_node in
  let P := DemoLock.on_tty in
  let l := PegasusLoop_init X in
  let l0 := snd (fst (_key_pressed X ["a"] l Demo.ctx0)) in
  IS_TTY P = true
  /\ locked l = false
  /\ _key_pressed X ["a"] l Demo.ctx0 = (Ret ["a"], set_lock_ticks LOCK_TIME l, Demo.ctx0)
  /\ locked (fst (PegasusGUI_ticks X P (S (Z.to_nat LOCK_TIME)) l0 Demo.ctx0)) = true.
Proof.
  cbn zeta.
  assert (H1 : IS_TTY DemoLock.on_tty = true) by reflexivity.
  assert (H2 : locked (PegasusLoop_init Demo.single_node) = false) by reflexivity.
  pose proof (key_press_postpones_the_lock Demo.single_node DemoLock.on_tty ["a"]
                (PegasusLoop_init Demo.single_node) Demo.ctx0 H1 H2) as T.
  cbv zeta in T. destruct T as (T1 & _ & T2 & _).
  exact (conj H1 (conj H2 (conj T1 T2))).
Defined.

Lemma only_the_password_unlocks_witness :
  let X := Demo.single_node in
  let P := DemoLock.on_tty in
  let l := DemoLock.locked_loop X in
  let ls := mkLockScreen WControllerOverlay "secret" (Plain "") in
  let res := LockScreen_keypress X P ls "enter" l Demo.ctx0 in
  locked l = true
  /\ (locked (snd (fst res)) = false
      <-> "enter" = "enter" /\ OPENSTACK_PASSWORD P = Some (password ls))
  /\ snd res = Demo.ctx0.
Proof.
  cbn zeta.
  assert (H : locked (DemoLock.locked_loop Demo.single_node) = true) by reflexivity.
  pose proof (only_the_password_unlocks Demo.single_node DemoLock.on_tty
                (mkLockScreen WControllerOverlay "secret" (Plain "")) "enter"
                (DemoLock.locked_loop Demo.single_node) Demo.ctx0 H) as T.
  cbv zeta in T. destruct T as (T1 & _ & T2).
  exact (conj H (conj T1 T2)).
Defined.

Lemma lock_then_password_restores_the_view_witness :
  let X := Demo.single_node in
  let P := DemoLock.on_tty in
  let l := PegasusLoop_init X in
  let l1 := snd (fst (PegasusGUI_tick X P l Demo.ctx0)) in
  IS_TTY P = true
  /\ locked l = false
  /\ lock_ticks l = 0%Z
  /\ OPENSTACK_PASSWORD P = Some "secret"
  /\ lock_screen l1 = Some (mkLockScreen (widget (gui l)) "" (Plain "")).
Proof.
  cbn zeta.
  assert (H1 : IS_TTY DemoLock.on_tty = true) by reflexivity.
  assert (H2 : locked (PegasusLoop_init Demo.single_node) = false) by reflexivity.
  assert (H3 : lock_ticks (PegasusLoop_init Demo.single_node) = 0%Z) by reflexivity.
  assert (H4 : OPENSTACK_PASSWORD DemoLock.on_tty = Some "secret") by reflexivity.
  pose proof (lock_then_password_restores_the_view Demo.single_node DemoLock.on_tty
                (PegasusLoop_init Demo.single_node) Demo.ctx0 "secret" H1 H2 H3 H4) as T.
  cbv zeta in T. destruct T as (T1 & _).
  exact (conj H1 (conj H2 (conj H3 (conj H4 T1)))).
Defined.

Lemma overlay_finished_while_locked_is_bypassed_witness :
  let X := Demo.single_node in
  let l := DemoLock.locked_loop X in
  let ls := mkLockScreen WControllerOverlay "secret" (Plain "") in
  let res := (zoom gui set_gui
                (update_and_redraw X (Some (Demo.services_up, Demo.maas_empty)))
              ;;; unlock X ls) l Demo.ctx0 in
  make_nodes (services Demo.services_up)
  = Ret [mkNode (mkService "mysql" []) []; mkNode (mkService "keystone" []) []]
  /\ widget (gui l) = WLockScreen
  /\ old_res ls = WControllerOverlay
  /\ _target (node_view (gui l)) = TControllerOverlay
  /\ fst (fst (process X Demo.services_up Demo.maas_empty
                 (controller_overlay (node_view (gui l))) Demo.ctx0)) = Ret false
  /\ fst (fst res) = Ret tt
  /\ widget (gui (snd (fst res))) = WNodeViewMode.
Proof.
  cbn zeta.
  set (l := DemoLock.locked_loop Demo.single_node).
  set (ls := mkLockScreen WControllerOverlay "secret" (Plain "")).
  assert (H1 : widget (gui l) = WLockScreen) by reflexivity.
  assert (H2 : old_res ls = WControllerOverlay) by reflexivity.
  assert (H3 : _target (node_view (gui l)) = TControllerOverlay) by reflexivity.
  assert (H4 : fst (fst (process Demo.single_node Demo.services_up Demo.maas_empty
                           (controller_overlay (node_view (gui l))) Demo.ctx0))
               = Ret false) by (vm_compute; reflexivity).
  assert (H0 : make_nodes (services Demo.services_up)
               = Ret [mkNode (mkService "mysql" []) [];
                      mkNode (mkService "keystone" []) []]) by reflexivity.
  pose proof (overlay_finished_while_locked_is_bypassed Demo.single_node
                Demo.services_up Demo.maas_empty _ l Demo.ctx0 ls false
                H0 H1 H2 H3 H4) as T.
  cbv zeta in T. destruct T as (_ & T1 & T2 & _).
  exact (conj H0 (conj H1 (conj H2 (conj H3 (conj H4 (conj T1 T2)))))).
Defined.

Lemma f8_twice_shows_the_current_target_witness :
  let X := Demo.single_node in
  let g := PegasusGUI_init X in
  widget g <> WLockScreen
  /\ (_header_hotkeys X "f8" ;;; _header_hotkeys X "f8") g Demo.ctx0
     = (Ret tt, set_widget WControllerOverlay g, Demo.ctx0).
Proof.
  cbn zeta.
  assert (H : widget (PegasusGUI_init Demo.single_node) <> WLockScreen) by discriminate.
  exact (conj H (f8_twice_shows_the_current_target Demo.single_node
                   (PegasusGUI_init Demo.single_node) Demo.ctx0 H)).
Defined.

Lemma ok_without_a_multi_unit_charm_raises_witness :
  let X := Demo.single_node in
  let g := PegasusGUI_init X in
  (forall x, In x (charm_registry X) -> (fun _ : CharmClass => false) x = false)
  /\ AddCharmDialog_yes X (DemoLock.add_unit_ok X)
       (AddCharmDialog_init X (fun _ => false) (Nat.eqb 0)) g Demo.ctx0
     = (Raise "IndexError: list index out of range", g, Demo.ctx0).
Proof.
  cbn zeta.
  assert (H : forall x, In x (charm_registry Demo.single_node) ->
                        (fun _ : CharmClass => false) x = false)
    by (intros; reflexivity).
  exact (conj H (ok_without_a_multi_unit_charm_raises Demo.single_node
                   (fun _ => false) (DemoLock.add_unit_ok Demo.single_node)
                   (Nat.eqb 0) (PegasusGUI_init Demo.single_node) Demo.ctx0 H)).
Defined.

Lemma node_without_error_detail_stops_the_callback_witness :
  let X := Demo.single_node in
  let g := PegasusGUI_init X in
  let js := Demo.service_in_error in
  let s := mkService "mysql" [Demo.unit_in_error] in
  let res := update_and_redraw X (Some (js, Demo.maas_empty)) g Demo.ctx0 in
  In s (services js)
  /\ In Demo.unit_in_error (units s)
  /\ str_contains "error" (unit_agent_state Demo.unit_in_error) = true
  /\ agent_state_info Demo.unit_in_error = None
  /\ (exists e, fst (fst res) = Raise e)
  /\ snd res = Demo.ctx0
  /\ controller_overlay (node_view (snd (fst res))) = controller_overlay (node_view g).
Proof.
  cbn zeta.
  assert (H1 : In (mkService "mysql" [Demo.unit_in_error])
                 (services Demo.service_in_error)) by (left; reflexivity).
  assert (H2 : In Demo.unit_in_error (units (mkService "mysql" [Demo.unit_in_error])))
    by (left; reflexivity).
  assert (H3 : str_contains "error" (unit_agent_state Demo.unit_in_error) = true)
    by reflexivity.
  assert (H4 : agent_state_info Demo.unit_in_error = None) by reflexivity.
  pose proof (node_without_error_detail_stops_the_callback Demo.single_node
                Demo.service_in_error Demo.maas_empty (PegasusGUI_init Demo.single_node)
                Demo.ctx0 _ _ H1 H2 H3 H4) as T.
  cbv zeta in T. destruct T as (T1 & T2 & T3 & _).
  exact (conj H1 (conj H2 (conj H3 (conj H4 (conj T1 (conj T2 T3)))))).
Defined.
